(** * ComfyUI API client (compyuiAPI.py): a shallow embedding

    The client drives a remote job server over HTTP: it patches one field
    of a workflow graph, submits the graph, polls the queue until the job
    has left it, and downloads the files named by the history record.

    The embedding has three layers.
    - JSON documents as trees ([json]) with the Python operators the
      client applies to parsed responses ([in], subscript, truthiness,
      [str]).
    - A store of mutable Python objects ([pyobj], [pyval]): the workflow
      graph is a dict of dicts that [update_node_input] mutates in place
      and that [dict.copy] copies one level deep, so sharing matters.
    - A state-and-exception monad [M] over a [world]: the store, the
      responses the server is going to give, what the file system lets
      the client do, the trace of effects (requests, sleeps, prints, file
      writes) and the fields of the [ComfyUIAPI] object. *)

From Stdlib Require Import ZArith QArith Ascii String DecimalString Lia.
From stdpp Require Import base list strings.

Open Scope Z_scope.
Open Scope list_scope.

(** ** JSON documents

    What [json.load] and [response.json()] return.  A JSON object becomes
    a Python dict, which keeps insertion order: an association list, in
    which a key is looked up at its first entry.  Numbers are integers
    here; Python floats are outside the model.  A str is a [string]: a
    sequence of characters with code points below 256, the [ascii] of a
    character being its code point; the other characters are outside the
    model. *)

#[warnings="-register-all"]
Inductive json : Type :=
| JNull
| JBool (b : bool)
| JInt (z : Z)
| JStr (s : string)
| JList (items : list json)
| JDict (fields : list (string * json)).

(** Induction over documents, with the hypothesis for every element of a
    list and every value of a dict. *)
Fixpoint json_ind' (P : json -> Prop)
    (Hnull : P JNull) (Hbool : forall b, P (JBool b))
    (Hint : forall z, P (JInt z)) (Hstr : forall s, P (JStr s))
    (Hlist : forall items, Forall P items -> P (JList items))
    (Hdict : forall fields, Forall (fun kv => P (snd kv)) fields -> P (JDict fields))
    (j : json) {struct j} : P j.
Proof.
  destruct j as [| b | z | s | items | fields].
  - exact Hnull.
  - apply Hbool.
  - apply Hint.
  - apply Hstr.
  - apply Hlist. induction items as [| x items IH].
    + constructor.
    + constructor; [ apply (json_ind' P); assumption | exact IH ].
  - apply Hdict. induction fields as [| [k x] fields IH].
    + constructor.
    + constructor; [ apply (json_ind' P); assumption | exact IH ].
Defined.

(** *** Dictionaries as association lists *)

Section Dict.
Context {V : Type}.

(** [d[k]], [None] standing for KeyError. *)
Fixpoint dict_get (k : string) (d : list (string * V)) : option V :=
  match d with
  | [] => None
  | (k', v) :: d' => if String.eqb k k' then Some v else dict_get k d'
  end.

(** [k in d]. *)
Definition dict_has (k : string) (d : list (string * V)) : bool :=
  match dict_get k d with Some _ => true | None => false end.

(** [d[k] = v]: an existing key keeps its place, a new one goes last. *)
Fixpoint dict_set (k : string) (v : V) (d : list (string * V)) : list (string * V) :=
  match d with
  | [] => [(k, v)]
  | (k', v') :: d' =>
      if String.eqb k k' then (k', v) :: d' else (k', v') :: dict_set k v d'
  end.
End Dict.

(** *** Python operators on parsed documents *)

(** [bool(x)]: None, False, 0, the empty string, list and dict are false. *)
Definition truthy (j : json) : bool :=
  match j with
  | JNull => false
  | JBool b => b
  | JInt z => negb (z =? 0)
  | JStr s => negb (String.eqb s "")
  | JList items => match items with [] => false | _ => true end
  | JDict fields => match fields with [] => false | _ => true end
  end.

(** [s == x] for a str [s]: only an equal str compares equal. *)
Definition str_eq (s : string) (x : json) : bool :=
  match x with JStr t => String.eqb s t | _ => false end.

(** [s in t] for two strs: [s] occurs in [t] as a substring. *)
Fixpoint is_substring (s t : string) : bool :=
  String.prefix s t
  || match t with EmptyString => false | String _ t' => is_substring s t' end.

(** The exceptions the client can raise.  The two [Exception(...)] of
    [run_workflow] and the one of [get_history] carry what their message
    is formatted from.  [ValueError] is what [time.sleep] raises for a
    negative length and [OverflowError] what it raises for a length that
    the clock of the platform cannot count; [OSError] stands for the
    exceptions of the file system (FileNotFoundError, IsADirectoryError,
    PermissionError and the other subclasses). *)
Inductive exn : Type :=
| SubmitFailed (status_code : Z) (text : string)
| PromptIdNotFound (result : json)
| HistoryFailed (status_code : Z)
| JSONDecodeError
| TypeError
| KeyError (key : string)
| AttributeError
| ValueError
| OverflowError
| OSError.

(** [k in x] for a str [k]: key of a dict, element of a list, substring of
    a str; the other values are not containers. *)
Definition json_contains (k : string) (x : json) : exn + bool :=
  match x with
  | JDict fields => inr (dict_has k fields)
  | JList items => inr (existsb (str_eq k) items)
  | JStr t => inr (is_substring k t)
  | _ => inl TypeError
  end.

(** [x[k]] for a str [k]: only a dict can be indexed by a str. *)
Definition json_getitem (x : json) (k : string) : exn + json :=
  match x with
  | JDict fields =>
      match dict_get k fields with Some v => inr v | None => inl (KeyError k) end
  | _ => inl TypeError
  end.

(** [x.get(k, default)]: a method of dicts only. *)
Definition json_get (x : json) (k : string) (default : json) : exn + json :=
  match x with
  | JDict fields =>
      match dict_get k fields with Some v => inr v | None => inr default end
  | _ => inl AttributeError
  end.

(** [x.items()]. *)
Definition json_items (x : json) : exn + list (string * json) :=
  match x with
  | JDict fields => inr fields
  | _ => inl AttributeError
  end.

(** The characters of a str, each a str of length one. *)
Fixpoint chars (s : string) : list json :=
  match s with
  | EmptyString => []
  | String c s' => JStr (String c EmptyString) :: chars s'
  end.

(** [for y in x]: the elements of a list, the keys of a dict, the
    characters of a str. *)
Definition json_iter (x : json) : exn + list json :=
  match x with
  | JList items => inr items
  | JDict fields => inr (map (fun kv => JStr (fst kv)) fields)
  | JStr s => inr (chars s)
  | _ => inl TypeError
  end.

(** *** [str] and [repr] *)

Definition backslash : ascii := ascii_of_N 92.
Definition dquote : ascii := ascii_of_N 34.
Definition squote : ascii := ascii_of_N 39.

Definition hex_digit (n : N) : ascii :=
  ascii_of_N (if (n <? 10)%N then 48 + n else 87 + n)%N.

(** The characters below U+0100 that are not printable for [repr]: the
    control characters U+0000-U+001F and U+007F-U+009F, the no-break space
    U+00A0 and the soft hyphen U+00AD. *)
Definition not_printable (n : N) : bool :=
  ((n <? 32) || ((127 <=? n) && (n <=? 160)) || (n =? 173))%N.

(** One character inside [repr] of a str quoted with [q]: the quote and
    the backslash get a backslash, tab, newline and return their letter,
    the other characters that are not printable their code in
    hexadecimal. *)
Definition repr_char (q : ascii) (c : ascii) : string :=
  let n := N_of_ascii c in
  if Ascii.eqb c q || Ascii.eqb c backslash then String backslash (String c EmptyString)
  else if (n =? 9)%N then String backslash "t"
  else if (n =? 10)%N then String backslash "n"
  else if (n =? 13)%N then String backslash "r"
  else if not_printable n then
    String backslash (String "x"%char
      (String (hex_digit (n / 16)) (String (hex_digit (n mod 16)) EmptyString)))
  else String c EmptyString.

Fixpoint has_char (c : ascii) (s : string) : bool :=
  match s with
  | EmptyString => false
  | String c' s' => Ascii.eqb c c' || has_char c s'
  end.

Fixpoint repr_chars (q : ascii) (s : string) : string :=
  match s with
  | EmptyString => EmptyString
  | String c s' => repr_char q c +:+ repr_chars q s'
  end.

(** [repr(s)] of a str: single quotes, unless the str has a single quote
    and no double quote. *)
Definition repr_str (s : string) : string :=
  let q := if has_char squote s && negb (has_char dquote s) then dquote else squote in
  String q (repr_chars q s) +:+ String q EmptyString.

Definition str_of_Z (z : Z) : string := NilZero.string_of_int (Z.to_int z).

Fixpoint join (sep : string) (parts : list string) : string :=
  match parts with
  | [] => ""
  | [p] => p
  | p :: rest => p +:+ sep +:+ join sep rest
  end.

(** [repr(x)] of a parsed document. *)
Fixpoint py_repr (x : json) : string :=
  match x with
  | JNull => "None"
  | JBool true => "True"
  | JBool false => "False"
  | JInt z => str_of_Z z
  | JStr s => repr_str s
  | JList items => "[" +:+ join ", " (map py_repr items) +:+ "]"
  | JDict fields =>
      "{" +:+ join ", "
        ((fix go (l : list (string * json)) : list string :=
            match l with
            | [] => []
            | (k, v) :: l' => (repr_str k +:+ ": " +:+ py_repr v) :: go l'
            end) fields) +:+ "}"
  end.

(** [str(x)]: a str is itself, everything else is its [repr]. *)
Definition py_str (x : json) : string :=
  match x with
  | JStr s => s
  | _ => py_repr x
  end.


(** ** The store of Python objects

    A dict or a list is an object in the store and a variable holds a
    reference to it: two references to one object see each other's
    updates.  Objects are never freed; a new one goes to the end. *)

Inductive pyval : Type :=
| PNone
| PBool (b : bool)
| PInt (z : Z)
| PStr (s : string)
| PRef (l : nat).

Inductive pyobj : Type :=
| PList (items : list pyval)
| PDict (fields : list (string * pyval)).

Abbreviation store := (list pyobj).

(** [s == v] for a str [s] and a value of the store. *)
Definition pystr_eq (s : string) (v : pyval) : bool :=
  match v with PStr t => String.eqb s t | _ => false end.

(** [k in x], as [json_contains]. *)
Definition store_contains (h : store) (k : string) (x : pyval) : exn + bool :=
  match x with
  | PRef l =>
      match h !! l with
      | Some (PDict fields) => inr (dict_has k fields)
      | Some (PList items) => inr (existsb (pystr_eq k) items)
      | None => inl TypeError
      end
  | PStr t => inr (is_substring k t)
  | _ => inl TypeError
  end.

(** [x[k]], as [json_getitem]. *)
Definition store_getitem (h : store) (x : pyval) (k : string) : exn + pyval :=
  match x with
  | PRef l =>
      match h !! l with
      | Some (PDict fields) =>
          match dict_get k fields with Some v => inr v | None => inl (KeyError k) end
      | _ => inl TypeError
      end
  | _ => inl TypeError
  end.

(** [x[k] = v]: the dict that [x] refers to is updated where it is. *)
Definition store_setitem (h : store) (x : pyval) (k : string) (v : pyval) : exn + store :=
  match x with
  | PRef l =>
      match h !! l with
      | Some (PDict fields) => inr (<[l := PDict (dict_set k v fields)]> h)
      | _ => inl TypeError
      end
  | _ => inl TypeError
  end.

(** *** Loading a document into the store

    [json.load] builds fresh objects: the parts of a list or dict first,
    in order, then the object itself.  [load_at base j] is the value and
    the new objects when the store has [base] objects already. *)
Fixpoint load_at (base : nat) (j : json) : pyval * list pyobj :=
  match j with
  | JNull => (PNone, [])
  | JBool b => (PBool b, [])
  | JInt z => (PInt z, [])
  | JStr s => (PStr s, [])
  | JList items =>
      let '(vs, ext) :=
        (fix go (base : nat) (l : list json) : list pyval * list pyobj :=
           match l with
           | [] => ([], [])
           | x :: l' =>
               let '(v, e1) := load_at base x in
               let '(vs, e2) := go (base + length e1)%nat l' in
               (v :: vs, e1 ++ e2)
           end) base items in
      (PRef (base + length ext), ext ++ [PList vs])
  | JDict fields =>
      let '(kvs, ext) :=
        (fix go (base : nat) (l : list (string * json))
           : list (string * pyval) * list pyobj :=
           match l with
           | [] => ([], [])
           | (k, x) :: l' =>
               let '(v, e1) := load_at base x in
               let '(kvs, e2) := go (base + length e1)%nat l' in
               ((k, v) :: kvs, e1 ++ e2)
           end) base fields in
      (PRef (base + length ext), ext ++ [PDict kvs])
  end.

Fixpoint load_list (base : nat) (l : list json) : list pyval * list pyobj :=
  match l with
  | [] => ([], [])
  | x :: l' =>
      let '(v, e1) := load_at base x in
      let '(vs, e2) := load_list (base + length e1)%nat l' in
      (v :: vs, e1 ++ e2)
  end.

Fixpoint load_fields (base : nat) (l : list (string * json))
  : list (string * pyval) * list pyobj :=
  match l with
  | [] => ([], [])
  | (k, x) :: l' =>
      let '(v, e1) := load_at base x in
      let '(kvs, e2) := load_fields (base + length e1)%nat l' in
      ((k, v) :: kvs, e1 ++ e2)
  end.

(** *** Reading a document back

    [denotes h j v]: followed through the store [h], the value [v] is the
    document [j]. *)
Fixpoint denotes (h : store) (j : json) (v : pyval) : bool :=
  match j, v with
  | JNull, PNone => true
  | JBool b, PBool b' => Bool.eqb b b'
  | JInt z, PInt z' => z =? z'
  | JStr s, PStr s' => String.eqb s s'
  | JList items, PRef l =>
      match h !! l with
      | Some (PList vs) =>
          (fix go (js : list json) (vs : list pyval) : bool :=
             match js, vs with
             | [], [] => true
             | x :: js', v :: vs' => denotes h x v && go js' vs'
             | _, _ => false
             end) items vs
      | _ => false
      end
  | JDict fields, PRef l =>
      match h !! l with
      | Some (PDict kvs) =>
          (fix go (js : list (string * json)) (vs : list (string * pyval)) : bool :=
             match js, vs with
             | [], [] => true
             | (k, x) :: js', (k', v) :: vs' =>
                 String.eqb k k' && denotes h x v && go js' vs'
             | _, _ => false
             end) fields kvs
      | _ => false
      end
  | _, _ => false
  end.

Fixpoint denotes_list (h : store) (js : list json) (vs : list pyval) : bool :=
  match js, vs with
  | [], [] => true
  | x :: js', v :: vs' => denotes h x v && denotes_list h js' vs'
  | _, _ => false
  end.

Fixpoint denotes_fields (h : store) (js : list (string * json))
    (vs : list (string * pyval)) : bool :=
  match js, vs with
  | [], [] => true
  | (k, x) :: js', (k', v) :: vs' =>
      String.eqb k k' && denotes h x v && denotes_fields h js' vs'
  | _, _ => false
  end.

(** ** The world and the monad of the client *)

(** An HTTP response: [response.status_code], the body ([response.text],
    [response.content]) and what [response.json()] makes of it, [None]
    when the body is not JSON. *)
Record response : Type := {
  status_code : Z;
  content : string;
  json_body : option json }.

(** The [print] calls of the client, by what they report. *)
Inductive message : Type :=
| MsgUpdated (node_id input_name : string)       (* line 44 *)
| MsgNoInput (node_id input_name : string)       (* line 46, a warning *)
| MsgNoNode (node_id : string)                   (* line 48, a warning *)
| MsgResponse (result : json)                    (* line 75 *)
| MsgStarted (prompt_id : json)                  (* line 89 *)
| MsgWaiting                                     (* line 102 *)
| MsgQueueFailed (status : Z)                    (* line 108 *)
| MsgRunning (prompts : list json)               (* line 138 *)
| MsgPending (prompts : list json)               (* line 139 *)
| MsgCompleted                                   (* line 144 *)
| MsgNoHistory (prompt_id : string)              (* line 170, a warning *)
| MsgNoOutputs (prompt_id : string)              (* line 187, a warning *)
| MsgDownloaded (local_path : string)            (* line 212 *)
| MsgDownloadFailed (filename : string) (status : Z).  (* line 215 *)

(** What the client does to its surroundings.  [ESleep] is a
    [time.sleep] that has slept; [EMakedirs] and [EWrite] are the calls
    [os.makedirs(path, exist_ok=True)] and [open(path, "wb")] with its
    [write] that the file system has carried out. *)
Inductive event : Type :=
| EPost (url : string) (body : json)
| EGet (url : string)
| ESleep (seconds : Q)
| EPrint (m : message)
| EMakedirs (path : string)
| EWrite (path : string) (data : string).

(** The state a call runs in: the store, the responses the server gives
    to the requests still to come, what has happened so far, the two
    fields of the [ComfyUIAPI] object, and the platform: the exception
    with which it refuses [time.sleep] for a length that is not negative,
    and [os.makedirs(path, exist_ok=True)] and [open(path, "wb")] for a
    path, [None] where it carries the call out. *)
Record world : Type := {
  heap : store;
  script : list response;
  trace : list event;
  server_address : string;
  history_data : json;
  sleep_error : Q -> option exn;
  makedirs_error : string -> option exn;
  open_error : string -> option exn }.

Definition set_heap (h : store) (w : world) : world :=
  {| heap := h; script := script w; trace := trace w;
     server_address := server_address w; history_data := history_data w;
     sleep_error := sleep_error w;
     makedirs_error := makedirs_error w; open_error := open_error w |}.

Definition set_script (s : list response) (w : world) : world :=
  {| heap := heap w; script := s; trace := trace w;
     server_address := server_address w; history_data := history_data w;
     sleep_error := sleep_error w;
     makedirs_error := makedirs_error w; open_error := open_error w |}.

Definition log (e : event) (w : world) : world :=
  {| heap := heap w; script := script w; trace := trace w ++ [e];
     server_address := server_address w; history_data := history_data w;
     sleep_error := sleep_error w;
     makedirs_error := makedirs_error w; open_error := open_error w |}.

Definition set_history_data (j : json) (w : world) : world :=
  {| heap := heap w; script := script w; trace := trace w;
     server_address := server_address w; history_data := j;
     sleep_error := sleep_error w;
     makedirs_error := makedirs_error w; open_error := open_error w |}.

(** A call returns, raises, or is left waiting for a response that the
    script does not have. *)
Inductive outcome (A : Type) : Type :=
| Ret (a : A)
| Raise (e : exn)
| Blocked.
Arguments Ret {A} a.
Arguments Raise {A} e.
Arguments Blocked {A}.

Definition M (A : Type) : Type := world -> outcome A * world.

Definition ret {A} (a : A) : M A := fun w => (Ret a, w).

Definition bind {A B} (m : M A) (k : A -> M B) : M B :=
  fun w =>
    match m w with
    | (Ret a, w') => k a w'
    | (Raise e, w') => (Raise e, w')
    | (Blocked, w') => (Blocked, w')
    end.

Definition raise {A} (e : exn) : M A := fun w => (Raise e, w).

Definition lift {A} (r : exn + A) : M A :=
  match r with inl e => raise e | inr a => ret a end.

Declare Scope monad_scope.
Delimit Scope monad_scope with monad.
Notation "x <- m ;; k" := (bind m (fun x => k))
  (at level 100, m at next level, k at level 200, right associativity) : monad_scope.
Notation "m ;; k" := (bind m (fun _ => k))
  (at level 100, k at level 200, right associativity) : monad_scope.
Open Scope monad_scope.

Definition emit (e : event) : M unit := fun w => (Ret tt, log e w).
Definition print (m : message) : M unit := emit (EPrint m).

(** [time.sleep(seconds)]: a negative length is refused with ValueError,
    another length where the platform refuses it. *)
Definition sleep (seconds : Q) : M unit :=
  fun w =>
    if Qle_bool 0 seconds then
      match sleep_error w seconds with
      | Some e => (Raise e, w)
      | None => emit (ESleep seconds) w
      end
    else (Raise ValueError, w).
Arguments Qle_bool : simpl never.

(** [os.makedirs(path, exist_ok=True)]. *)
Definition os_makedirs (path : string) : M unit :=
  fun w =>
    match makedirs_error w path with
    | Some e => (Raise e, w)
    | None => emit (EMakedirs path) w
    end.

(** [with open(path, "wb") as file: file.write(data)]. *)
Definition write_file (path data : string) : M unit :=
  fun w =>
    match open_error w path with
    | Some e => (Raise e, w)
    | None => emit (EWrite path data) w
    end.

Definition url_of (path : string) : M string :=
  fun w => (Ret (server_address w +:+ path), w).

(** A request is sent and the next response of the script is its answer;
    the call is left waiting when the script has none.  Failures of the
    connection are not part of the model. *)
Definition request (e : event) : M response :=
  fun w =>
    match script w with
    | [] => (Blocked, log e w)
    | r :: rest => (Ret r, set_script rest (log e w))
    end.

Definition requests_get (url : string) : M response := request (EGet url).
Definition requests_post (url : string) (body : json) : M response :=
  request (EPost url body).

(** [response.json()]. *)
Definition response_json (r : response) : M json :=
  match json_body r with Some j => ret j | None => raise JSONDecodeError end.

Definition contains (k : string) (x : pyval) : M bool :=
  fun w => lift (store_contains (heap w) k x) w.
Definition getitem (x : pyval) (k : string) : M pyval :=
  fun w => lift (store_getitem (heap w) x k) w.
Definition setitem (x : pyval) (k : string) (v : pyval) : M unit :=
  fun w =>
    match store_setitem (heap w) x k v with
    | inl e => (Raise e, w)
    | inr h' => (Ret tt, set_heap h' w)
    end.

(** [json.load]: the document read becomes fresh objects of the store. *)
Definition json_load (document : json) : M pyval :=
  fun w =>
    let '(v, ext) := load_at (length (heap w)) document in
    (Ret v, set_heap (heap w ++ ext) w).

(** [x.copy()]: a new dict (or list) with the items of the old one, the
    values shared with it. *)
Definition py_copy (x : pyval) : M pyval :=
  fun w =>
    match x with
    | PRef l =>
        match heap w !! l with
        | Some o => (Ret (PRef (length (heap w))), set_heap (heap w ++ [o]) w)
        | None => (Raise AttributeError, w)
        end
    | _ => (Raise AttributeError, w)
    end.

(** ** The client *)

(** [ComfyUIAPI.update_node_input], lines 29-50. *)
Definition update_node_input (workflow : pyval) (node_id input_name : string)
    (new_value : pyval) : M pyval :=
  present <- contains node_id workflow ;;
  (if present : bool then
     node <- getitem workflow node_id ;;
     inputs <- getitem node "inputs" ;;
     has <- contains input_name inputs ;;
     if has : bool then
       node <- getitem workflow node_id ;;
       inputs <- getitem node "inputs" ;;
       setitem inputs input_name new_value ;;
       print (MsgUpdated node_id input_name)
     else
       print (MsgNoInput node_id input_name)
   else
     print (MsgNoNode node_id)) ;;
  ret workflow.

(** The start of every job of the main program, lines 276-279 and
    319-322: the loaded workflow is copied and the copy is patched. *)
Definition copy_and_update (workflow : pyval) (node_id input_name : string)
    (new_value : pyval) : M pyval :=
  current_workflow <- py_copy workflow ;;
  update_node_input current_workflow node_id input_name new_value.

(** [ComfyUIAPI.run_workflow], lines 52-90.  [workflow] is the graph as
    [requests] serialises it into the body of the request. *)
Definition run_workflow (workflow : json) (client_id : option string) : M json :=
  let prompt_data :=
    JDict [("prompt", workflow);
           ("client_id",
            JStr match client_id with
                 | Some c => if String.eqb c "" then "" else c
                 | None => ""
                 end)] in
  url <- url_of "/prompt" ;;
  response <- requests_post url prompt_data ;;
  if negb (status_code response =? 200) then
    raise (SubmitFailed (status_code response) (content response))
  else
    result <- response_json response ;;
    print (MsgResponse result) ;;
    has_prompt_id <- lift (json_contains "prompt_id" result) ;;
    prompt_id <-
      (if has_prompt_id : bool then lift (json_getitem result "prompt_id")
       else
         has_id <- lift (json_contains "id" result) ;;
         if has_id : bool then lift (json_getitem result "id")
         else
           match result with
           | JList (first :: _) => ret (JStr (py_str first))
           | _ => ret (JStr "")
           end) ;;
    if negb (truthy prompt_id) then raise (PromptIdNotFound result)
    else
      print (MsgStarted prompt_id) ;;
      ret prompt_id.

(** What one entry of a queue list adds to the list of prompt ids, lines
    125-128 and 133-136. *)
Definition entry_id (item : json) : list json :=
  match item with
  | JDict fields =>
      match dict_get "prompt_id" fields with Some v => [v] | None => [] end
  | JList (first :: _) => [first]
  | _ => []
  end.

(** The prompt ids under [key] of the queue data, lines 122-128 for
    "queue_running" and 130-136 for "queue_pending". *)
Definition queue_ids (queue_data : json) (key : string) : exn + list json :=
  match json_contains key queue_data with
  | inl e => inl e
  | inr false => inr []
  | inr true =>
      match json_getitem queue_data key with
      | inl e => inl e
      | inr (JList items) => inr (flat_map entry_id items)
      | inr _ => inr []
      end
  end.

(** One round of the loop of [wait_for_completion], lines 104-148:
    [Some true] is [return True], [None] goes round again. *)
Definition poll_once (prompt_id : string) (check_interval : Q) : M (option bool) :=
  url <- url_of "/queue" ;;
  response <- requests_get url ;;
  if negb (status_code response =? 200) then
    print (MsgQueueFailed (status_code response)) ;;
    sleep check_interval ;;
    ret None
  else
    queue_data <- response_json response ;;
    running_prompts <- lift (queue_ids queue_data "queue_running") ;;
    pending_prompts <- lift (queue_ids queue_data "queue_pending") ;;
    print (MsgRunning running_prompts) ;;
    print (MsgPending pending_prompts) ;;
    if negb (existsb (str_eq prompt_id) running_prompts)
       && negb (existsb (str_eq prompt_id) pending_prompts)
       && match running_prompts with [] => true | _ => false end
    then
      print MsgCompleted ;;
      ret (Some true)
    else
      sleep check_interval ;;
      ret None.

(** [while True]: the body is run until it returns. *)
Fixpoint iterate {A} (rounds : nat) (body : M (option A)) : M A :=
  match rounds with
  | O => fun w => (Blocked, w)
  | S rounds' =>
      r <- body ;;
      match r with
      | Some a => ret a
      | None => iterate rounds' body
      end
  end.

(** The loop of [wait_for_completion].  Every round takes a response from
    the script, so one more round than the script has responses is as
    good as any number of them ([polling_rounds]). *)
Definition polling (prompt_id : string) (check_interval : Q) : M bool :=
  fun w => iterate (S (length (script w))) (poll_once prompt_id check_interval) w.

(** [ComfyUIAPI.wait_for_completion], lines 92-148. *)
Definition wait_for_completion (prompt_id : string) (check_interval : Q) : M bool :=
  print MsgWaiting ;;
  polling prompt_id check_interval.

(** [ComfyUIAPI.get_history], lines 150-171. *)
Definition get_history (prompt_id : string) : M json :=
  url <- url_of "/history" ;;
  response <- requests_get url ;;
  if negb (status_code response =? 200) then
    raise (HistoryFailed (status_code response))
  else
    history <- response_json response ;;
    (fun w => (Ret tt, set_history_data history w)) ;;
    known <- lift (json_contains prompt_id history) ;;
    if known : bool then lift (json_getitem history prompt_id)
    else
      print (MsgNoHistory prompt_id) ;;
      ret (JDict []).

(** [os.path.basename] (posixpath): what follows the last slash. *)
Fixpoint basename_from (current : string) (p : string) : string :=
  match p with
  | EmptyString => current
  | String c p' =>
      if Ascii.eqb c "/"%char then basename_from EmptyString p'
      else basename_from (current +:+ String c EmptyString) p'
  end.

Definition basename (p : string) : string := basename_from EmptyString p.

Definition os_path_basename (p : json) : exn + string :=
  match p with
  | JStr s => inr (basename s)
  | _ => inl TypeError
  end.

Fixpoint ends_with_slash (p : string) : bool :=
  match p with
  | EmptyString => false
  | String c EmptyString => Ascii.eqb c "/"%char
  | String _ p' => ends_with_slash p'
  end.

(** [os.path.join(a, b)] (posixpath). *)
Definition os_path_join (a b : string) : string :=
  if String.prefix "/" b then b
  else if String.eqb a "" || ends_with_slash a then a +:+ b
  else a +:+ "/" +:+ b.

(** [for x in l: acc = f(acc, x)]. *)
Fixpoint foldM {A B} (f : B -> A -> M B) (l : list A) (acc : B) : M B :=
  match l with
  | [] => ret acc
  | x :: l' => acc' <- f acc x ;; foldM f l' acc'
  end.

(** The body of the innermost loop of [download_images], lines 201-215. *)
Definition download_image (output_dir : string) (downloaded_files : list string)
    (image_data : json) : M (list string) :=
  filename <- lift (json_get image_data "filename" (JStr "")) ;;
  if truthy filename then
    image_url <- url_of ("/view?filename=" +:+ py_str filename) ;;
    name <- lift (os_path_basename filename) ;;
    let local_path := os_path_join output_dir name in
    response <- requests_get image_url ;;
    if status_code response =? 200 then
      write_file local_path (content response) ;;
      print (MsgDownloaded local_path) ;;
      ret (downloaded_files ++ [local_path])
    else
      print (MsgDownloadFailed (py_str filename) (status_code response)) ;;
      ret downloaded_files
  else ret downloaded_files.

(** The body of the loop over the outputs of one node, lines 199-215. *)
Definition download_output (output_dir : string) (downloaded_files : list string)
    (entry : string * json) : M (list string) :=
  let '(output_type, output_data) := entry in
  if String.eqb output_type "images" then
    images <- lift (json_iter output_data) ;;
    foldM (download_image output_dir) images downloaded_files
  else ret downloaded_files.

(** The body of the loop over the nodes, lines 198-215. *)
Definition download_node (output_dir : string) (downloaded_files : list string)
    (entry : string * json) : M (list string) :=
  let '(node_id, node_output) := entry in
  kinds <- lift (json_items node_output) ;;
  foldM (download_output output_dir) kinds downloaded_files.

(** [ComfyUIAPI.download_images], lines 173-217. *)
Definition download_images (prompt_id output_dir : string) : M (list string) :=
  history <- get_history prompt_id ;;
  no_outputs <-
    (if negb (truthy history) then ret true
     else
       has <- lift (json_contains "outputs" history) ;;
       ret (negb has)) ;;
  if no_outputs : bool then
    print (MsgNoOutputs prompt_id) ;;
    ret []
  else
    os_makedirs output_dir ;;
    outputs <- lift (json_get history "outputs" (JDict [])) ;;
    nodes <- lift (json_items outputs) ;;
    foldM (download_node output_dir) nodes [].

(** ** The story descriptions of the main program *)

(** How the [try] block of lines 250-260 ends for one story file: with
    nothing said, with the warning of line 258, or with an exception,
    which line 259 catches and prints.  The files that follow are read
    in each of the three cases. *)
Inductive story_end : Type :=
| StoryRead
| StoryWarned
| StoryFailed (e : exn).

(** The loop of lines 254-256 over the pages: the descriptions are
    appended to the list of the main program, one by one, so that an
    exception leaves the ones appended before it. *)
Fixpoint read_pages (story_descriptions : list json) (pages : list json)
    : list json * story_end :=
  match pages with
  | [] => (story_descriptions, StoryRead)
  | page :: pages' =>
      match json_contains "image" page with
      | inl e => (story_descriptions, StoryFailed e)
      | inr false => read_pages story_descriptions pages'
      | inr true =>
          match json_getitem page "image" with
          | inl e => (story_descriptions, StoryFailed e)
          | inr description => read_pages (story_descriptions ++ [description]) pages'
          end
      end
  end.

(** Lines 253-258, for the document [story_data] that [json.load] gave. *)
Definition read_story (story_descriptions : list json) (story_data : json)
    : list json * story_end :=
  match story_data with
  | JDict fields =>
      if dict_has "pages" fields then
        match json_getitem story_data "pages" with
        | inl e => (story_descriptions, StoryFailed e)
        | inr pages =>
            match json_iter pages with
            | inl e => (story_descriptions, StoryFailed e)
            | inr pages' => read_pages story_descriptions pages'
            end
        end
      else (story_descriptions, StoryWarned)
  | _ => (story_descriptions, StoryWarned)
  end.

(** * The vocabulary of the properties *)

(** ** Graphs in the store *)

(** [workflow] refers to a dict with the items [nodes]. *)
Definition dict_at (h : store) (x : pyval) (items : list (string * pyval)) : Prop :=
  exists l, x = PRef l /\ h !! l = Some (PDict items).

(** [node] is a record whose "inputs" is a dict with the items [ins]. *)
Definition inputs_at (h : store) (node : pyval) (ins : list (string * pyval)) : Prop :=
  exists fields inputs,
    dict_at h node fields /\ dict_get "inputs" fields = Some inputs /\ dict_at h inputs ins.

(** A value that is no container: [in] raises TypeError on it. *)
Definition scalar (v : pyval) : Prop :=
  match v with PNone | PBool _ | PInt _ => True | _ => False end.

(** A path that names a directory whatever the file system holds: it
    ends in a slash, in "." or in "..", or it is empty. *)
Definition names_directory (path : string) : bool :=
  let name := basename path in
  String.eqb name "" || String.eqb name "." || String.eqb name "..".

(** [ComfyUIAPI.__init__]; [responses] is what the server will answer.
    The platform of the examples sleeps every length that is not more
    than 2^63 - 1 nanoseconds, makes every directory but the one of the
    empty path, and opens for writing every path that does not name a
    directory. *)
Definition init_world (address : string) (responses : list response) : world :=
  {| heap := []; script := responses; trace := [];
     server_address := address; history_data := JDict [];
     sleep_error := fun seconds =>
       if Qle_bool seconds (9223372036854775807 # 1000000000) then None
       else Some OverflowError;
     makedirs_error := fun path => if String.eqb path "" then Some OSError else None;
     open_error := fun path => if names_directory path then Some OSError else None |}.

(** The graph and the world once [document] has been loaded by a new
    client. *)
Definition loaded (document : json) : pyval * world :=
  match json_load document (init_world "http://127.0.0.1:8188" []) with
  | (Ret v, w) => (v, w)
  | (_, w) => (PNone, w)
  end.

(** The store [h] has the objects [ext] from position [base] on. *)
Definition agrees (h : store) (base : nat) (ext : list pyobj) : Prop :=
  forall i o, ext !! i = Some o -> h !! (base + i)%nat = Some o.

(** The graph with the field set, as a document. *)
Definition set_field (nodes fields ins : list (string * json))
    (node_id input_name : string) (value : json) : json :=
  JDict (dict_set node_id
           (JDict (dict_set "inputs" (JDict (dict_set input_name value ins)) fields))
           nodes).

(** A graph of two nodes, the second the text encoder whose "text" the
    main program sets. *)
Definition flux_graph : list (string * json) :=
  [("6", JDict [("class_type", JStr "KSampler");
                ("inputs", JDict [("seed", JInt 42); ("positive", JList [JStr "32"; JInt 0])])]);
   ("32", JDict [("class_type", JStr "CLIPTextEncode");
                 ("inputs", JDict [("clip", JList [JStr "4"; JInt 1]);
                                   ("text", JStr "a photo")])])].

(** ** Submitting *)

(** The request that [run_workflow] sends. *)
Definition prompt_request (w : world) (workflow : json) (client_id : option string) : event :=
  EPost (server_address w +:+ "/prompt")
    (JDict [("prompt", workflow);
            ("client_id", JStr match client_id with Some c => c | None => "" end)]).

(** An answer 200 whose body is the document [body]. *)
Definition ok_response (body : json) : response :=
  {| status_code := 200; content := "(json)"; json_body := Some body |}.

(** The identifier as the specification words it: the value under
    "prompt_id", then the value under "id", then the first element of a
    sequence as a str, and of these the first that is not empty. *)
Definition first_non_empty_identifier (result : json) : option json :=
  let candidates :=
    match result with
    | JDict fields =>
        match dict_get "prompt_id" fields with Some v => [v] | None => [] end
        ++ match dict_get "id" fields with Some v => [v] | None => [] end
    | JList (first :: _) => [JStr (py_str first)]
    | _ => []
    end in
  find truthy candidates.

(** The str [s] occurs in the str [t]. *)
Definition occurs_in (s t : string) : Prop := exists a b, t = a +:+ s +:+ b.

(** The identifier [v] is found in the answer [result] in one of the
    three shapes: under "prompt_id" or under "id" of an object, or as the
    first element of a sequence, made a str. *)
Definition identifier_in (result v : json) : Prop :=
  (exists fields,
     result = JDict fields
     /\ (dict_get "prompt_id" fields = Some v \/ dict_get "id" fields = Some v))
  \/ (exists first items, result = JList (first :: items) /\ v = JStr (py_str first)).

(** ** Polling *)

(** The running and the pending list that a poll parses out of its
    response: there are none when the status is not 200 or the body is
    not a document that the parsing goes through. *)
Definition queue_lists (r : response) : option (list json * list json) :=
  if status_code r =? 200 then
    match json_body r with
    | Some queue_data =>
        match queue_ids queue_data "queue_running", queue_ids queue_data "queue_pending" with
        | inr running, inr pending => Some (running, pending)
        | _, _ => None
        end
    | None => None
    end
  else None.

(** The job is in neither list and nothing is running. *)
Definition job_done (prompt_id : string) (lists : list json * list json) : bool :=
  negb (existsb (str_eq prompt_id) (fst lists))
  && negb (existsb (str_eq prompt_id) (snd lists))
  && match fst lists with [] => true | _ => false end.

(** The poll that gets [r] sees the job done. *)
Definition observes_done (prompt_id : string) (r : response) : bool :=
  match queue_lists r with
  | Some lists => job_done prompt_id lists
  | None => false
  end.

(** The poll that gets [r] parses the two lists and does not see the job
    done. *)
Definition observes_busy (prompt_id : string) (r : response) : bool :=
  match queue_lists r with
  | Some lists => negb (job_done prompt_id lists)
  | None => false
  end.

(** The polls after which the loop goes round again. *)
Definition retried (prompt_id : string) (r : response) : bool :=
  negb (status_code r =? 200) || observes_busy prompt_id r.

(** What [time.sleep] raises for the length [seconds], [None] when it
    sleeps. *)
Definition sleep_refusal (w : world) (seconds : Q) : option exn :=
  if Qle_bool 0 seconds then sleep_error w seconds else Some ValueError.

(** [time.sleep] takes the length [seconds]: it is not negative and the
    platform does not refuse it. *)
Definition can_sleep (w : world) (seconds : Q) : Prop :=
  (0 <= seconds)%Q /\ sleep_error w seconds = None.

(** The number of GET requests in a trace. *)
Definition polls (t : list event) : nat :=
  length (List.filter (fun e => match e with EGet _ => true | _ => false end) t).

(** The sleeps of a trace, in order. *)
Definition sleeps (t : list event) : list Q :=
  flat_map (fun e => match e with ESleep s => [s] | _ => [] end) t.

(** The world after a poll that was answered [r] with a status other
    than 200. *)
Definition after_failed_poll (check_interval : Q) (r : response)
    (rest : list response) (w : world) : world :=
  log (ESleep check_interval)
    (log (EPrint (MsgQueueFailed (status_code r)))
       (set_script rest (log (EGet (server_address w +:+ "/queue")) w))).

(** The world after a poll that parsed the two lists and went on. *)
Definition after_busy_poll (check_interval : Q) (lists : list json * list json)
    (rest : list response) (w : world) : world :=
  log (ESleep check_interval)
    (log (EPrint (MsgPending (snd lists)))
       (log (EPrint (MsgRunning (fst lists)))
          (set_script rest (log (EGet (server_address w +:+ "/queue")) w)))).

(** The world after the poll that saw the job done. *)
Definition after_last_poll (lists : list json * list json)
    (rest : list response) (w : world) : world :=
  log (EPrint MsgCompleted)
    (log (EPrint (MsgPending (snd lists)))
       (log (EPrint (MsgRunning (fst lists)))
          (set_script rest (log (EGet (server_address w +:+ "/queue")) w)))).


(** The status of [r] is in the range 200-299. *)
Definition status_2xx (r : response) : Prop := 200 <= status_code r < 300.

(** ** Downloading *)

(** The history record as the data model has it: "outputs" maps a node to
    a mapping from output kind to data, the data under "images" being a
    sequence of descriptors, each a mapping whose "filename", if it has
    one, is a str. *)
Definition descriptor_ok (image_data : json) : bool :=
  match image_data with
  | JDict fields =>
      match dict_get "filename" fields with
      | Some (JStr _) | None => true
      | Some _ => false
      end
  | _ => false
  end.

(** An entry of a node's outputs: under "images", a sequence of
    descriptors; under any other kind, anything. *)
Definition output_ok (entry : string * json) : bool :=
  if String.eqb (fst entry) "images" then
    match snd entry with
    | JList descriptors => forallb descriptor_ok descriptors
    | _ => false
    end
  else true.

(** An entry of "outputs": the outputs of a node are a mapping. *)
Definition node_ok (entry : string * json) : bool :=
  match snd entry with
  | JDict kinds => forallb output_ok kinds
  | _ => false
  end.

(** A record with "outputs". *)
Definition record_ok (record : json) : bool :=
  match record with
  | JDict fields =>
      match dict_get "outputs" fields with
      | Some (JDict nodes) => forallb node_ok nodes
      | _ => false
      end
  | _ => false
  end.

(** The file names of the record in the order the loops meet them: the
    non-empty "filename" of every descriptor under an "images". *)
Definition descriptor_names (image_data : json) : list string :=
  match image_data with
  | JDict fields =>
      match dict_get "filename" fields with
      | Some (JStr s) => if String.eqb s "" then [] else [s]
      | _ => []
      end
  | _ => []
  end.

(** The file names under one entry of a node's outputs. *)
Definition output_names (entry : string * json) : list string :=
  if String.eqb (fst entry) "images" then
    match snd entry with
    | JList descriptors => flat_map descriptor_names descriptors
    | _ => []
    end
  else [].

(** The file names under one node. *)
Definition node_names (entry : string * json) : list string :=
  match snd entry with
  | JDict kinds => flat_map output_names kinds
  | _ => []
  end.

(** The file names of the record. *)
Definition image_names (record : json) : list string :=
  match record with
  | JDict fields =>
      match dict_get "outputs" fields with
      | Some (JDict nodes) => flat_map node_names nodes
      | _ => []
      end
  | _ => []
  end.

(** Where the file named [filename] by the server goes. *)
Definition local_path (output_dir filename : string) : string :=
  os_path_join output_dir (basename filename).

(** The request for a file was answered 200. *)
Definition fetched_ok (p : string * response) : bool := status_code (snd p) =? 200.

(** The paths of the files whose request was answered 200. *)
Definition saved (output_dir : string) (pairs : list (string * response)) : list string :=
  map (fun p => local_path output_dir (fst p)) (List.filter fetched_ok pairs).

(** The files as written: path and bytes. *)
Definition saved_files (output_dir : string) (pairs : list (string * response))
  : list (string * string) :=
  map (fun p => (local_path output_dir (fst p), content (snd p)))
    (List.filter fetched_ok pairs).

(** What happens for one file name and the answer to its request. *)
Definition fetch_events (address output_dir : string) (p : string * response) : list event :=
  EGet (address +:+ "/view?filename=" +:+ fst p)
  :: if fetched_ok p then
       [EWrite (local_path output_dir (fst p)) (content (snd p));
        EPrint (MsgDownloaded (local_path output_dir (fst p)))]
     else [EPrint (MsgDownloadFailed (fst p) (status_code (snd p)))].

(** The world after the requests for the files of [pairs]. *)
Definition fetched (output_dir : string) (pairs : list (string * response))
    (rest : list response) (w : world) : world :=
  {| heap := heap w; script := rest;
     trace := trace w ++ flat_map (fetch_events (server_address w) output_dir) pairs;
     server_address := server_address w; history_data := history_data w;
     sleep_error := sleep_error w;
     makedirs_error := makedirs_error w; open_error := open_error w |}.

(** The files written in a trace, in order: path and bytes. *)
Definition writes (t : list event) : list (string * string) :=
  flat_map (fun e => match e with EWrite p data => [(p, data)] | _ => [] end) t.

(** The file system lets the files at [paths] be opened for writing. *)
Definition opens (w : world) (paths : list string) : Prop :=
  Forall (fun path => open_error w path = None) paths.

(** A piece of the loops that requests the files [names], one after the
    other, and adds the saved ones to the list, where the file system
    lets them be written. *)
Definition fetches (output_dir : string) (m : list string -> M (list string))
    (names : list string) : Prop :=
  forall acc w responses rest,
    script w = responses ++ rest ->
    length responses = length names ->
    opens w (saved output_dir (combine names responses)) ->
    m acc w = (Ret (acc ++ saved output_dir (combine names responses)),
               fetched output_dir (combine names responses) rest w).

(** The history of the example: job "p42" has the image "img_0001_.png"
    and a second one in a folder of the server. *)
Definition p42_history : list (string * json) :=
  [("p42",
    JDict [("outputs",
            JDict [("9", JDict [("images",
                                 JList [JDict [("filename", JStr "img_0001_.png");
                                               ("type", JStr "output")];
                                        JDict [("filename", JStr "batch/img_0002_.png")]])])])])].

(** An answer 200 with the bytes of an image. *)
Definition png (data : string) : response :=
  {| status_code := 200; content := data; json_body := None |}.

(** ** Places of the store *)

(** Two states of one place of the store with the same kind of object:
    the same list, or a dict with the same keys in the same order. *)
Definition same_shape (o o' : option pyobj) : Prop :=
  match o, o' with
  | Some (PDict d), Some (PDict d') => map fst d = map fst d'
  | Some (PList a), Some (PList b) => a = b
  | None, None => True
  | _, _ => False
  end.

(** ** Answers and queue entries *)

(** A value that [in] cannot look into. *)
Definition json_scalar (x : json) : Prop :=
  match x with JNull | JBool _ | JInt _ => True | _ => False end.

(** An entry of a queue list in one of the two encodings that the
    parsing knows: an object with the id under "prompt_id", or a
    sequence with the id in front. *)
Inductive queue_entry : Type :=
| ByKey (id : json) (others : list (string * json))
| ByPosition (id : json) (others : list json).

Definition entry_doc (e : queue_entry) : json :=
  match e with
  | ByKey id others => JDict (("prompt_id", id) :: others)
  | ByPosition id others => JList (id :: others)
  end.

Definition entry_ident (e : queue_entry) : json :=
  match e with ByKey id _ | ByPosition id _ => id end.

(** The events of a wait: requests for the queue, sleeps of the
    interval, prints. *)
Definition polling_event (address : string) (check_interval : Q) (e : event) : Prop :=
  e = EGet (address +:+ "/queue") \/ e = ESleep check_interval \/ exists m, e = EPrint m.

(** What a call leaves alone: the store, the history cache, the address
    of the server. *)
Definition same_objects (w w' : world) : Prop :=
  heap w' = heap w /\ history_data w' = history_data w
  /\ server_address w' = server_address w.

(** The polls that see something running. *)
Definition sees_running (r : response) : bool :=
  match queue_lists r with
  | Some (_ :: _, _) => true
  | _ => false
  end.

(** The entries under [key] of a queue object: the list under the key,
    and no entry where the object does not have the key. *)
Definition entries_under (fields : list (string * json)) (key : string)
    (entries : list queue_entry) : Prop :=
  dict_get key fields = Some (JList (map entry_doc entries))
  \/ (dict_get key fields = None /\ entries = []).

(** The answer [r] is a queue snapshot of the data model: status 200 and
    an object with the entries [running] under "queue_running" and the
    entries [pending] under "queue_pending". *)
Definition shows (r : response) (running pending : list queue_entry) : Prop :=
  status_code r = 200
  /\ exists fields,
       json_body r = Some (JDict fields)
       /\ entries_under fields "queue_running" running
       /\ entries_under fields "queue_pending" pending.

(** The job is among the entries: one of them has the str [prompt_id]
    as its id. *)
Definition listed (prompt_id : string) (entries : list queue_entry) : Prop :=
  In (JStr prompt_id) (map entry_ident entries).


(** The snapshot [r] has something running, or the job pending. *)
Definition shows_busy (prompt_id : string) (r : response) : Prop :=
  exists running pending,
    shows r running pending /\ (running <> [] \/ listed prompt_id pending).

(** The answers after which the wait goes on: a status other than 200,
    or a snapshot that does not show the job done. *)
Definition goes_on (prompt_id : string) (r : response) : Prop :=
  status_code r <> 200 \/ shows_busy prompt_id r.



(** ** Files of the output directory *)

(** The name of a file in a directory: not empty, not "." or "..", and
    without a slash. *)
Definition file_name (name : string) : Prop :=
  name <> "" /\ name <> "." /\ name <> ".." /\ has_char "/"%char name = false.

(** [path] is a file of the directory [output_dir] itself: the directory,
    a slash unless the directory is the empty path or ends in one, and
    the name of a file. *)
Definition directly_in (output_dir path : string) : Prop :=
  exists name,
    file_name name
    /\ ((output_dir = "" \/ exists d, output_dir = d +:+ "/") /\ path = output_dir +:+ name
        \/ (output_dir <> "" /\ forall d, output_dir <> d +:+ "/")
           /\ path = output_dir +:+ "/" +:+ name).

(** The file system opens no path that names a directory for writing. *)
Definition opens_no_directory (w : world) : Prop :=
  forall path, names_directory path = true -> open_error w path <> None.

(** [path] was opened for writing and is the place in [output_dir] of a
    file name of the server. *)
Definition written_to (w : world) (output_dir path : string) : Prop :=
  open_error w path = None /\ exists filename, path = local_path output_dir filename.

(** A piece of [download_images] that writes to such paths only, that
    adds to the list the paths it wrote, in order, and no other, and that
    leaves the file system as it is. *)
Definition saves_into (output_dir : string) (m : list string -> M (list string)) : Prop :=
  forall acc w,
    exists new,
      writes (trace (snd (m acc w))) = writes (trace w) ++ new
      /\ Forall (fun f => written_to w output_dir (fst f)) new
      /\ open_error (snd (m acc w)) = open_error w
      /\ match fst (m acc w) with
         | Ret l => l = acc ++ map fst new
         | _ => True
         end.

(** ** Pages of a story *)

Definition is_dict (x : json) : bool :=
  match x with JDict _ => true | _ => false end.

(** The description of a page that is an object: the value of its key
    "image", if it has one. *)
Definition page_image (page : json) : list json :=
  match page with
  | JDict fields =>
      match dict_get "image" fields with Some description => [description] | None => [] end
  | _ => []
  end.

(** * Properties *)

Example py_str_list :
  py_str (JList [JInt (-12); JStr "ab"; JNull; JDict [("k", JBool true)]])
  = "[-12, 'ab', None, {'k': True}]".
Proof. vm_compute. reflexivity. Qed.

(** ** Dictionaries *)

Section DictFacts.
Context {V : Type}.
Implicit Types (d : list (string * V)) (k : string) (v : V).

Lemma dict_get_set_same k v d : dict_get k (dict_set k v d) = Some v.
Proof.
  induction d as [| [k' v'] d IH]; simpl.
  - now rewrite String.eqb_refl.
  - destruct (String.eqb k k') eqn:E; simpl; rewrite E; [reflexivity | exact IH].
Qed.

Lemma dict_get_set_other k k' v d :
  k' <> k -> dict_get k' (dict_set k v d) = dict_get k' d.
Proof.
  intros Hne. induction d as [| [k0 v0] d IH]; simpl.
  - apply String.eqb_neq in Hne. now rewrite Hne.
  - destruct (String.eqb k k0) eqn:E; simpl.
    + apply String.eqb_eq in E. subst k0.
      apply String.eqb_neq in Hne. now rewrite Hne.
    + now rewrite IH.
Qed.

Lemma dict_set_keys k v d :
  dict_has k d = true -> map fst (dict_set k v d) = map fst d.
Proof.
  unfold dict_has. induction d as [| [k' v'] d IH]; simpl; [discriminate |].
  destruct (String.eqb k k') eqn:E; simpl; [reflexivity |].
  intros H. now rewrite IH.
Qed.

End DictFacts.

(** ** [update_node_input] on the store *)

(** Running a call: the definitions are unfolded, and what the
    hypotheses say about the store and the script is used where it
    appears. *)
Ltac use_hyp :=
  match goal with
  | H : ?lhs = _ |- context [?lhs] => rewrite H
  end.

Ltac run :=
  unfold bind, contains, getitem, setitem, lift, print, sleep, os_makedirs, write_file,
    emit, ret, raise, url_of, requests_get, requests_post, request, response_json;
  simpl; repeat (first [use_hyp | progress unfold dict_has]; simpl).

(** C7. When the node is not in the graph, or it is and the field is not
    among its inputs, [update_node_input] returns the graph it was given,
    prints one warning, raises nothing and leaves every object of the
    store as it was. *)
Theorem update_node_input_no_target (w : world) (workflow : pyval)
    (nodes : list (string * pyval)) (node_id input_name : string) (new_value : pyval) :
  dict_at (heap w) workflow nodes ->
  (dict_get node_id nodes = None ->
     update_node_input workflow node_id input_name new_value w
     = (Ret workflow, log (EPrint (MsgNoNode node_id)) w))
  /\ (forall node ins,
        dict_get node_id nodes = Some node ->
        inputs_at (heap w) node ins ->
        dict_get input_name ins = None ->
        update_node_input workflow node_id input_name new_value w
        = (Ret workflow, log (EPrint (MsgNoInput node_id input_name)) w)).
Proof.
  intros (l & -> & Hl). split.
  - intros Hn. unfold update_node_input. run. reflexivity.
  - intros node ins Hn (fields & inputs & (ln & -> & Hln) & Hin & (li & -> & Hli)) Hf.
    unfold update_node_input. run. reflexivity.
Qed.

Lemma update_node_input_no_target_witness :
  let g := fst (loaded (JDict flux_graph)) in
  let w := snd (loaded (JDict flux_graph)) in
  update_node_input g "99" "text" (PStr "a small star") w
  = (Ret g, log (EPrint (MsgNoNode "99")) w)
  /\ update_node_input g "32" "prompt" (PStr "a small star") w
     = (Ret g, log (EPrint (MsgNoInput "32" "prompt")) w).
Proof.
  intros g w.
  assert (Hg : dict_at (heap w) g [("6", PRef 2); ("32", PRef 5)])
    by (exists 6%nat; split; reflexivity).
  split.
  - exact (proj1 (update_node_input_no_target w g _ "99" "text" (PStr "a small star") Hg)
             eq_refl).
  - refine (proj2 (update_node_input_no_target w g _ "32" "prompt" (PStr "a small star") Hg)
              (PRef 5) [("clip", PRef 3); ("text", PStr "a photo")] eq_refl _ eq_refl).
    exists [("class_type", PStr "CLIPTextEncode"); ("inputs", PRef 4)], (PRef 4).
    split; [exists 5%nat; split; reflexivity |].
    split; [reflexivity | exists 4%nat; split; reflexivity].
Defined.

(** C10 (as amended).  Let the node be in the graph.  If its record is a
    dict without the key "inputs", the call raises KeyError; if "inputs"
    is None, a bool or a number, it raises TypeError.  If "inputs" is a
    list, the call raises TypeError when the field name is an element of
    the list and otherwise prints the warning and returns the graph, the
    store unchanged; likewise for a str and its substrings. *)
Theorem update_node_input_without_inputs_dict (w : world) (workflow node : pyval)
    (nodes fields : list (string * pyval)) (node_id input_name : string)
    (new_value : pyval) :
  dict_at (heap w) workflow nodes ->
  dict_get node_id nodes = Some node ->
  dict_at (heap w) node fields ->
  let result := update_node_input workflow node_id input_name new_value w in
  let warned := (Ret workflow, log (EPrint (MsgNoInput node_id input_name)) w) in
  (dict_get "inputs" fields = None -> result = (Raise (KeyError "inputs"), w))
  /\ (forall inputs,
        dict_get "inputs" fields = Some inputs -> scalar inputs ->
        result = (Raise TypeError, w))
  /\ (forall l items,
        dict_get "inputs" fields = Some (PRef l) ->
        heap w !! l = Some (PList items) ->
        result = if existsb (pystr_eq input_name) items
                 then (Raise TypeError, w) else warned)
  /\ (forall s,
        dict_get "inputs" fields = Some (PStr s) ->
        result = if is_substring input_name s
                 then (Raise TypeError, w) else warned).
Proof.
  intros (l & -> & Hl) Hn (ln & -> & Hln). simpl. repeat split.
  - intros Hin. unfold update_node_input. run. reflexivity.
  - intros inputs Hin Hs. unfold update_node_input. run.
    destruct inputs; simpl in Hs; try contradiction; reflexivity.
  - intros li items Hin Hli. unfold update_node_input. run.
    destruct (existsb (pystr_eq input_name) items); run; reflexivity.
  - intros s Hin. unfold update_node_input. run.
    destruct (is_substring input_name s); run; reflexivity.
Qed.

Lemma update_node_input_without_inputs_dict_witness :
  let d := JDict [("32", JDict [("inputs", JList [JStr "text"])]);
                  ("7", JDict [("class_type", JStr "KSampler")])] in
  let g := fst (loaded d) in
  let w := snd (loaded d) in
  update_node_input g "32" "text" (PStr "a cat") w = (Raise TypeError, w)
  /\ update_node_input g "32" "seed" (PStr "a cat") w
     = (Ret g, log (EPrint (MsgNoInput "32" "seed")) w)
  /\ update_node_input g "7" "text" (PStr "a cat") w = (Raise (KeyError "inputs"), w).
Proof.
  intros d g w.
  assert (Hg : dict_at (heap w) g [("32", PRef 1); ("7", PRef 2)])
    by (exists 3%nat; split; reflexivity).
  assert (H32 : dict_at (heap w) (PRef 1) [("inputs", PRef 0)])
    by (exists 1%nat; split; reflexivity).
  assert (H7 : dict_at (heap w) (PRef 2) [("class_type", PStr "KSampler")])
    by (exists 2%nat; split; reflexivity).
  split; [| split].
  - exact (proj1 (proj2 (proj2
      (update_node_input_without_inputs_dict w g (PRef 1) _ _ "32" "text" (PStr "a cat")
         Hg eq_refl H32))) 0%nat [PStr "text"] eq_refl eq_refl).
  - exact (proj1 (proj2 (proj2
      (update_node_input_without_inputs_dict w g (PRef 1) _ _ "32" "seed" (PStr "a cat")
         Hg eq_refl H32))) 0%nat [PStr "text"] eq_refl eq_refl).
  - exact (proj1
      (update_node_input_without_inputs_dict w g (PRef 2) _ _ "7" "text" (PStr "a cat")
         Hg eq_refl H7) eq_refl).
Defined.

(** C10, counterexample.  The record of node "32" has a list under
    "inputs", not a dict, and the call does not raise: it prints the
    warning and returns the graph. *)
Lemma update_node_input_list_inputs_no_exception :
  ~ (forall (w : world) (workflow node : pyval) (nodes : list (string * pyval))
       (node_id input_name : string) (new_value : pyval),
        dict_at (heap w) workflow nodes ->
        dict_get node_id nodes = Some node ->
        (forall ins, ~ inputs_at (heap w) node ins) ->
        exists e w', update_node_input workflow node_id input_name new_value w
                     = (Raise e, w')).
Proof.
  intros H.
  pose (d := JDict [("32", JDict [("inputs", JList [JStr "x"])])]).
  destruct (H (snd (loaded d)) (PRef 2) (PRef 1) [("32", PRef 1)] "32" "text" (PStr "b"))
    as (e & w' & He).
  - exists 2%nat. split; reflexivity.
  - reflexivity.
  - intros ins (fields & inputs & (ln & [= <-] & Hln) & Hin & (li & -> & Hli)).
    vm_compute in Hln. injection Hln as <-.
    vm_compute in Hin. injection Hin as <-.
    vm_compute in Hli. discriminate.
  - vm_compute in He. discriminate.
Qed.

(** ** Loading and reading back *)

Lemma load_at_list base items :
  load_at base (JList items)
  = let '(vs, ext) := load_list base items in
    (PRef (base + length ext), ext ++ [PList vs]).
Proof.
  simpl.
  replace ((fix go (base0 : nat) (l : list json) {struct l} : list pyval * list pyobj :=
              match l with
              | [] => ([], [])
              | x :: l' =>
                  let '(v, e1) := load_at base0 x in
                  let '(vs, e2) := go (base0 + length e1)%nat l' in (v :: vs, e1 ++ e2)
              end) base items)
    with (load_list base items); [reflexivity |].
  revert base. induction items as [| x items IH]; intros base; simpl; [reflexivity |].
  destruct (load_at base x) as [v e1]. now rewrite IH.
Qed.

Lemma load_at_dict base fields :
  load_at base (JDict fields)
  = let '(kvs, ext) := load_fields base fields in
    (PRef (base + length ext), ext ++ [PDict kvs]).
Proof.
  simpl.
  replace ((fix go (base0 : nat) (l : list (string * json)) {struct l}
              : list (string * pyval) * list pyobj :=
              match l with
              | [] => ([], [])
              | (k, x) :: l' =>
                  let '(v, e1) := load_at base0 x in
                  let '(kvs, e2) := go (base0 + length e1)%nat l' in
                  ((k, v) :: kvs, e1 ++ e2)
              end) base fields)
    with (load_fields base fields); [reflexivity |].
  revert base. induction fields as [| [k x] fields IH]; intros base; simpl; [reflexivity |].
  destruct (load_at base x) as [v e1]. now rewrite IH.
Qed.

Lemma denotes_list_eq h items l :
  denotes h (JList items) (PRef l)
  = match h !! l with
    | Some (PList vs) => denotes_list h items vs
    | _ => false
    end.
Proof.
  simpl. destruct (h !! l) as [[vs | kvs] |]; try reflexivity.
  revert vs. induction items as [| x items IH]; intros [| v vs]; simpl; try reflexivity.
  now rewrite IH.
Qed.

Lemma denotes_dict_eq h fields l :
  denotes h (JDict fields) (PRef l)
  = match h !! l with
    | Some (PDict kvs) => denotes_fields h fields kvs
    | _ => false
    end.
Proof.
  simpl. destruct (h !! l) as [[vs | kvs] |]; try reflexivity.
  revert kvs. induction fields as [| [k x] fields IH]; intros [| [k' v] kvs]; simpl;
    try reflexivity.
  now rewrite IH.
Qed.

Lemma agrees_app h base e1 e2 :
  agrees h base (e1 ++ e2) <-> agrees h base e1 /\ agrees h (base + length e1) e2.
Proof.
  unfold agrees. split.
  - intros H. split.
    + intros i o Hi. apply H. now apply lookup_app_l_Some.
    + intros i o Hi. rewrite <- Nat.add_assoc. apply H.
      rewrite lookup_app_r by lia. now replace (length e1 + i - length e1)%nat with i by lia.
  - intros [H1 H2] i o Hi. apply lookup_app_Some in Hi as [Hi | [Hl Hi]].
    + now apply H1.
    + replace (base + i)%nat with (base + length e1 + (i - length e1))%nat by lia.
      now apply H2.
Qed.

Lemma agrees_one h base o : agrees h base [o] <-> h !! base = Some o.
Proof.
  unfold agrees. split.
  - intros H. specialize (H 0%nat o eq_refl). now rewrite Nat.add_0_r in H.
  - intros H [| i] o' Hi; [| discriminate].
    injection Hi as <-. now rewrite Nat.add_0_r.
Qed.

Lemma agrees_self pre ext post : agrees (pre ++ ext ++ post) (length pre) ext.
Proof.
  unfold agrees. intros i o Hi. rewrite lookup_app_r by lia.
  replace (length pre + i - length pre)%nat with i by lia.
  now apply lookup_app_l_Some.
Qed.

Lemma agrees_end pre ext : agrees (pre ++ ext) (length pre) ext.
Proof.
  unfold agrees. intros i o Hi. rewrite lookup_app_r by lia.
  now replace (length pre + i - length pre)%nat with i by lia.
Qed.

(** An update outside a segment does not touch it. *)
Lemma agrees_insert h base ext l o :
  agrees h base ext -> (l < base \/ base + length ext <= l)%nat ->
  agrees (<[l := o]> h) base ext.
Proof.
  unfold agrees. intros H Hl i o' Hi. rewrite list_lookup_insert_ne.
  - now apply H.
  - apply lookup_lt_Some in Hi. lia.
Qed.

(** What [load_at] builds reads back as the document it was built from,
    in every store that has the new objects in their places. *)
Lemma load_at_denotes j : forall base v ext h,
  load_at base j = (v, ext) -> agrees h base ext -> denotes h j v = true.
Proof.
  induction j as [| b | z | s | items IH | fields IH] using json_ind';
    intros base v ext h Hload Hag.
  - injection Hload as <- <-. reflexivity.
  - injection Hload as <- <-. simpl. now destruct b.
  - injection Hload as <- <-. simpl. apply Z.eqb_refl.
  - injection Hload as <- <-. simpl. apply String.eqb_refl.
  - rewrite load_at_list in Hload.
    destruct (load_list base items) as [vs e] eqn:Hl. injection Hload as <- <-.
    apply agrees_app in Hag as [Hag Hobj]. apply agrees_one in Hobj.
    rewrite denotes_list_eq, Hobj. clear Hobj.
    revert base vs e Hl Hag. induction IH as [| x items Hx _ IHitems];
      intros base vs e Hl Hag; simpl in Hl.
    + now injection Hl as <- <-.
    + destruct (load_at base x) as [v e1] eqn:Hv.
      destruct (load_list (base + length e1) items) as [vs' e2] eqn:Hvs.
      injection Hl as <- <-. apply agrees_app in Hag as [H1 H2]. simpl.
      rewrite (Hx _ _ _ _ Hv H1). simpl. exact (IHitems _ _ _ Hvs H2).
  - rewrite load_at_dict in Hload.
    destruct (load_fields base fields) as [kvs e] eqn:Hl. injection Hload as <- <-.
    apply agrees_app in Hag as [Hag Hobj]. apply agrees_one in Hobj.
    rewrite denotes_dict_eq, Hobj. clear Hobj.
    revert base kvs e Hl Hag. induction IH as [| [k x] fields Hx _ IHfields];
      intros base kvs e Hl Hag; simpl in Hl.
    + now injection Hl as <- <-.
    + destruct (load_at base x) as [v e1] eqn:Hv.
      destruct (load_fields (base + length e1) fields) as [kvs' e2] eqn:Hkvs.
      injection Hl as <- <-. apply agrees_app in Hag as [H1 H2]. simpl.
      rewrite String.eqb_refl. simpl in Hx.
      rewrite (Hx _ _ _ _ Hv H1). simpl. exact (IHfields _ _ _ Hkvs H2).
Qed.

Lemma load_fields_denotes fields : forall base kvs ext h,
  load_fields base fields = (kvs, ext) -> agrees h base ext ->
  denotes_fields h fields kvs = true.
Proof.
  induction fields as [| [k x] fields IH]; intros base kvs ext h Hl Hag; simpl in Hl.
  - now injection Hl as <- <-.
  - destruct (load_at base x) as [v e1] eqn:Hv.
    destruct (load_fields (base + length e1) fields) as [kvs' e2] eqn:Hkvs.
    injection Hl as <- <-. apply agrees_app in Hag as [H1 H2]. simpl.
    rewrite String.eqb_refl, (load_at_denotes _ _ _ _ _ Hv H1). simpl.
    exact (IH _ _ _ _ Hkvs H2).
Qed.

Lemma load_fields_has fields : forall base kvs ext k,
  load_fields base fields = (kvs, ext) -> dict_has k kvs = dict_has k fields.
Proof.
  unfold dict_has.
  induction fields as [| [k0 x] fields IH]; intros base kvs ext k Hl; simpl in Hl.
  - now injection Hl as <- <-.
  - destruct (load_at base x) as [v e1].
    destruct (load_fields (base + length e1) fields) as [kvs' e2] eqn:Hkvs.
    injection Hl as <- <-. simpl.
    destruct (String.eqb k k0); [reflexivity | exact (IH _ _ _ k Hkvs)].
Qed.

(** The part of a loaded dict under the key [k]: where its objects are,
    and that the dict reads back with another document under [k] as soon
    as the value under [k] reads back as that document and the objects of
    the other parts are in their places. *)
Lemma load_fields_child fields : forall base kvs ext k j,
  load_fields base fields = (kvs, ext) ->
  dict_get k fields = Some j ->
  exists pre v e post,
    ext = pre ++ e ++ post
    /\ load_at (base + length pre) j = (v, e)
    /\ dict_get k kvs = Some v
    /\ forall h j',
         agrees h base pre ->
         agrees h (base + length pre + length e) post ->
         denotes h j' v = true ->
         denotes_fields h (dict_set k j' fields) kvs = true.
Proof.
  induction fields as [| [k0 x] fields IH]; intros base kvs ext k j Hl Hk;
    simpl in Hl, Hk; [discriminate |].
  destruct (load_at base x) as [v0 e1] eqn:Hv.
  destruct (load_fields (base + length e1) fields) as [kvs' e2] eqn:Hkvs.
  injection Hl as <- <-.
  destruct (String.eqb k k0) eqn:E.
  - injection Hk as <-. exists [], v0, e1, e2. simpl. rewrite Nat.add_0_r, E.
    repeat split; try assumption.
    intros h j' _ H2 Hj. simpl. rewrite ?E. simpl.
    rewrite String.eqb_refl, Hj. simpl.
    exact (load_fields_denotes _ _ _ _ _ Hkvs H2).
  - destruct (IH _ _ _ k j Hkvs Hk) as (pre & v & e & post & -> & Hload & Hget & Hrepl).
    exists (e1 ++ pre), v, e, post. rewrite length_app, Nat.add_assoc. simpl. rewrite E.
    repeat split; try assumption.
    + now rewrite <- app_assoc.
    + intros h j' H1 H2 Hj. apply agrees_app in H1 as [H1 H1']. simpl. rewrite ?E. simpl.
      rewrite String.eqb_refl, (load_at_denotes _ _ _ _ _ Hv H1). simpl.
      now apply Hrepl.
Qed.

(** A loaded dict whose objects are in their places reads back, after
    [d[k] = v], as the document with [k] set. *)
Lemma load_fields_set fields : forall base kvs ext h k j v,
  load_fields base fields = (kvs, ext) ->
  agrees h base ext ->
  denotes h j v = true ->
  denotes_fields h (dict_set k j fields) (dict_set k v kvs) = true.
Proof.
  induction fields as [| [k0 x] fields IH]; intros base kvs ext h k j v Hl Hag Hj;
    simpl in Hl.
  - injection Hl as <- <-. simpl. now rewrite String.eqb_refl, Hj.
  - destruct (load_at base x) as [v0 e1] eqn:Hv.
    destruct (load_fields (base + length e1) fields) as [kvs' e2] eqn:Hkvs.
    injection Hl as <- <-. apply agrees_app in Hag as [H1 H2]. simpl.
    destruct (String.eqb k k0) eqn:E; simpl; rewrite String.eqb_refl.
    + rewrite Hj. simpl. exact (load_fields_denotes _ _ _ _ _ Hkvs H2).
    + rewrite (load_at_denotes _ _ _ _ _ Hv H1). simpl. now apply (IH _ _ _ _ _ _ _ Hkvs).
Qed.

(** [update_node_input] on the store, when the node and the field are
    there: the dict of the inputs is updated at the field, where it is,
    and no other object changes. *)
Lemma update_node_input_present w workflow nodes node fields li ins
    node_id input_name new_value :
  dict_at (heap w) workflow nodes ->
  dict_get node_id nodes = Some node ->
  dict_at (heap w) node fields ->
  dict_get "inputs" fields = Some (PRef li) ->
  heap w !! li = Some (PDict ins) ->
  dict_has input_name ins = true ->
  update_node_input workflow node_id input_name new_value w
  = (Ret workflow,
     log (EPrint (MsgUpdated node_id input_name))
       (set_heap (<[li := PDict (dict_set input_name new_value ins)]> (heap w)) w)).
Proof.
  intros (l & -> & Hl) Hn (ln & -> & Hln) Hin Hli Hf. unfold dict_has in Hf.
  destruct (dict_get input_name ins) as [old |] eqn:Hold; [clear Hf | discriminate].
  unfold update_node_input. run. unfold store_setitem. run. reflexivity.
Qed.

(** [set_field] changes that field and nothing else: the three dicts on
    the way keep their keys in order and every other entry. *)
Lemma set_field_reads nodes fields ins node_id input_name value :
  dict_get node_id nodes = Some (JDict fields) ->
  dict_get "inputs" fields = Some (JDict ins) ->
  dict_has input_name ins = true ->
  exists nodes' fields' ins',
    set_field nodes fields ins node_id input_name value = JDict nodes'
    /\ map fst nodes' = map fst nodes
    /\ (forall n, n <> node_id -> dict_get n nodes' = dict_get n nodes)
    /\ dict_get node_id nodes' = Some (JDict fields')
    /\ map fst fields' = map fst fields
    /\ (forall k, k <> "inputs" -> dict_get k fields' = dict_get k fields)
    /\ dict_get "inputs" fields' = Some (JDict ins')
    /\ map fst ins' = map fst ins
    /\ (forall f, f <> input_name -> dict_get f ins' = dict_get f ins)
    /\ dict_get input_name ins' = Some value.
Proof.
  intros Hn Hi Hf. eexists _, _, _. split; [reflexivity |].
  assert (Hhas : forall (A : Type) k (d : list (string * A)) x,
             dict_get k d = Some x -> dict_has k d = true)
    by (intros A k d x H; unfold dict_has; now rewrite H).
  split; [apply dict_set_keys; eauto |].
  split; [intros n Hne; now apply dict_get_set_other |].
  split; [apply dict_get_set_same |].
  split; [apply dict_set_keys; eauto |].
  split; [intros k Hne; now apply dict_get_set_other |].
  split; [apply dict_get_set_same |].
  split; [now apply dict_set_keys |].
  split; [intros f Hne; now apply dict_get_set_other |].
  apply dict_get_set_same.
Qed.

(** A loaded graph with the node and the field: where the dict of the
    inputs is, and that after the update of that dict at the field the
    graph reads as the document with the field set. *)
Lemma loaded_graph_update base nodes fields ins node_id input_name g ext :
  dict_get node_id nodes = Some (JDict fields) ->
  dict_get "inputs" fields = Some (JDict ins) ->
  dict_has input_name ins = true ->
  load_at base (JDict nodes) = (g, ext) ->
  exists lw nodevals node fieldvals li insvals,
    g = PRef lw
    /\ (base <= lw < base + length ext)%nat
    /\ (base <= li < base + length ext)%nat
    /\ dict_get node_id nodevals = Some node
    /\ dict_get "inputs" fieldvals = Some (PRef li)
    /\ dict_has input_name insvals = true
    /\ forall h,
         agrees h base ext ->
         h !! lw = Some (PDict nodevals)
         /\ dict_at h node fieldvals
         /\ h !! li = Some (PDict insvals)
         /\ forall value v,
              let h' := <[li := PDict (dict_set input_name v insvals)]> h in
              denotes h' value v = true ->
              denotes h' (set_field nodes fields ins node_id input_name value) g = true.
Proof.
  intros Hnode Hin Hfield HG.
  rewrite load_at_dict in HG.
  destruct (load_fields base nodes) as [nodevals extN] eqn:HN.
  injection HG as <- <-.
  destruct (load_fields_child nodes _ _ _ node_id _ HN Hnode)
    as (preN & vn & en & postN & -> & Hvn & Hgn & HreplN).
  rewrite load_at_dict in Hvn.
  destruct (load_fields (base + length preN) fields) as [fieldvals extF] eqn:HF.
  injection Hvn as <- <-.
  destruct (load_fields_child fields _ _ _ "inputs" _ HF Hin)
    as (preF & vi & ei & postF & -> & Hvi & Hgi & HreplF).
  rewrite load_at_dict in Hvi.
  destruct (load_fields (base + length preN + length preF) ins) as [insvals extI] eqn:HI.
  injection Hvi as <- <-.
  set (li := (base + length preN + length preF + length extI)%nat) in *.
  eexists _, nodevals, (PRef (base + length preN
                             + length (preF ++ (extI ++ [PDict insvals]) ++ postF))),
    fieldvals, li, insvals.
  split; [reflexivity |].
  split; [rewrite !length_app; simpl; lia |].
  split; [subst li; rewrite !length_app; simpl; lia |].
  split; [exact Hgn |]. split; [exact Hgi |].
  split; [now rewrite (load_fields_has _ _ _ _ input_name HI) |].
  intros h Hag.
  apply agrees_app in Hag as [Hag Hw]. apply agrees_one in Hw.
  apply agrees_app in Hag as [HpreN Hag].
  apply agrees_app in Hag as [Hag HpostN].
  apply agrees_app in Hag as [Hag Hn]. apply agrees_one in Hn.
  apply agrees_app in Hag as [HpreF Hag].
  apply agrees_app in Hag as [Hag HpostF].
  apply agrees_app in Hag as [HextI Hi]. apply agrees_one in Hi.
  split; [exact Hw |].
  split; [eexists; split; [reflexivity | exact Hn] |].
  split; [exact Hi |].
  intros value v h' Hv. subst h'. unfold set_field.
  assert (Hout : forall b seg,
             agrees h b seg -> (li < b \/ b + length seg <= li)%nat ->
             agrees (<[li := PDict (dict_set input_name v insvals)]> h) b seg)
    by (intros; now apply agrees_insert).
  rewrite denotes_dict_eq.
  rewrite list_lookup_insert_ne by (subst li; rewrite !length_app; simpl; lia).
  rewrite Hw.
  apply HreplN.
  - apply Hout; [assumption | subst li; lia].
  - apply Hout; [assumption | subst li; rewrite !length_app; simpl; lia].
  - rewrite denotes_dict_eq.
    rewrite list_lookup_insert_ne by (subst li; rewrite !length_app; simpl; lia).
    rewrite Hn.
    apply HreplF.
    + apply Hout; [assumption | subst li; lia].
    + apply Hout; [assumption | subst li; rewrite !length_app; simpl; lia].
    + rewrite denotes_dict_eq.
      rewrite list_lookup_insert_eq by (apply lookup_lt_Some in Hi; exact Hi).
      apply (load_fields_set _ _ _ _ _ _ _ _ HI); [| exact Hv].
      apply Hout; [assumption | subst li; lia].
Qed.

(** C6.  Let the graph [nodes] be loaded, the node be in it and the field
    be among the node's inputs.  [update_node_input] returns the graph it
    was given, and the graph now reads as the document it was loaded from
    with that one field of that one node set to the value: all other
    nodes, the other entries of the node and the other inputs are as they
    were ([set_field_reads]). *)
Theorem update_node_input_sets_field (w : world)
    (nodes fields ins : list (string * json)) (node_id input_name : string)
    (value : json) :
  dict_get node_id nodes = Some (JDict fields) ->
  dict_get "inputs" fields = Some (JDict ins) ->
  dict_has input_name ins = true ->
  exists workflow w',
    (workflow <- json_load (JDict nodes) ;;
     new_value <- json_load value ;;
     updated <- update_node_input workflow node_id input_name new_value ;;
     ret (workflow, updated)) w
    = (Ret (workflow, workflow), w')
    /\ denotes (heap w') (set_field nodes fields ins node_id input_name value) workflow
       = true
    /\ trace w' = trace w ++ [EPrint (MsgUpdated node_id input_name)].
Proof.
  intros Hnode Hin Hfield.
  unfold bind at 1, json_load at 1.
  destruct (load_at (length (heap w)) (JDict nodes)) as [g extG] eqn:HG.
  unfold bind at 1, json_load at 1. cbn [heap set_heap].
  destruct (load_at (length (heap w ++ extG)) value) as [v extV] eqn:HV.
  destruct (loaded_graph_update _ _ _ _ _ _ _ _ Hnode Hin Hfield HG)
    as (lw & nodevals & node & fieldvals & li & insvals
        & -> & Hlw & Hli & Hgn & Hgi & Hhas & Hstore).
  set (h2 := (heap w ++ extG) ++ extV).
  assert (Hag : agrees h2 (length (heap w)) extG).
  { subst h2. rewrite <- app_assoc. apply agrees_self. }
  destruct (Hstore h2 Hag) as (Hw & Hn & Hi & Hden).
  match goal with |- context [set_heap h2 ?x] => set (w2 := set_heap h2 x) end.
  unfold bind.
  rewrite (update_node_input_present w2 (PRef lw) nodevals node fieldvals li insvals
             node_id input_name v (ex_intro _ lw (conj eq_refl Hw)) Hgn Hn Hgi Hi Hhas).
  eexists. eexists. split; [reflexivity |]. split; [| reflexivity].
  subst w2. cbn [heap log set_heap]. apply Hden.
  apply (load_at_denotes _ _ _ _ _ HV), agrees_insert.
  - subst h2. apply agrees_end.
  - left. rewrite length_app. lia.
Qed.

Lemma update_node_input_sets_field_witness :
  exists workflow w',
    (workflow <- json_load (JDict flux_graph) ;;
     new_value <- json_load (JStr "a small star") ;;
     updated <- update_node_input workflow "32" "text" new_value ;;
     ret (workflow, updated)) (init_world "http://127.0.0.1:8188" [])
    = (Ret (workflow, workflow), w')
    /\ denotes (heap w')
         (JDict
            [("6", JDict [("class_type", JStr "KSampler");
                          ("inputs", JDict [("seed", JInt 42);
                                            ("positive", JList [JStr "32"; JInt 0])])]);
             ("32", JDict [("class_type", JStr "CLIPTextEncode");
                           ("inputs", JDict [("clip", JList [JStr "4"; JInt 1]);
                                             ("text", JStr "a small star")])])])
         workflow = true
    /\ trace w' = [EPrint (MsgUpdated "32" "text")].
Proof.
  exact (update_node_input_sets_field (init_world "http://127.0.0.1:8188" [])
           flux_graph _ _ "32" "text" (JStr "a small star") eq_refl eq_refl eq_refl).
Defined.

(** C1, what the program does.  The copy that starts a job is a new dict
    with the node records of the loaded graph, not copies of them: when
    the node and the field are there, the update made through the copy is
    an update of the loaded graph, which from then on reads with the
    field set to the value of the job. *)
Theorem copy_and_update_changes_original (w : world)
    (nodes fields ins : list (string * json)) (node_id input_name : string)
    (value : json) :
  dict_get node_id nodes = Some (JDict fields) ->
  dict_get "inputs" fields = Some (JDict ins) ->
  dict_has input_name ins = true ->
  exists workflow current_workflow w',
    (workflow <- json_load (JDict nodes) ;;
     new_value <- json_load value ;;
     current_workflow <- copy_and_update workflow node_id input_name new_value ;;
     ret (workflow, current_workflow)) w
    = (Ret (workflow, current_workflow), w')
    /\ current_workflow <> workflow
    /\ denotes (heap w') (set_field nodes fields ins node_id input_name value) workflow
       = true.
Proof.
  intros Hnode Hin Hfield.
  unfold bind at 1, json_load at 1.
  destruct (load_at (length (heap w)) (JDict nodes)) as [g extG] eqn:HG.
  unfold bind at 1, json_load at 1. cbn [heap set_heap].
  destruct (load_at (length (heap w ++ extG)) value) as [v extV] eqn:HV.
  destruct (loaded_graph_update _ _ _ _ _ _ _ _ Hnode Hin Hfield HG)
    as (lw & nodevals & node & fieldvals & li & insvals
        & -> & Hlw & Hli & Hgn & Hgi & Hhas & Hstore).
  set (h2 := (heap w ++ extG) ++ extV).
  set (h3 := h2 ++ [PDict nodevals]).
  assert (Hag : agrees h3 (length (heap w)) extG).
  { subst h3 h2. rewrite <- !app_assoc. apply agrees_self. }
  destruct (Hstore h3 Hag) as (Hw & Hn & Hi & Hden).
  assert (Hw2 : h2 !! lw = Some (PDict nodevals)).
  { subst h3. rewrite lookup_app_l in Hw; [exact Hw |].
    subst h2. rewrite !length_app. lia. }
  match goal with |- context [set_heap h2 ?x] => set (w2 := set_heap h2 x) end.
  unfold bind at 1, copy_and_update, bind at 1, py_copy.
  change (heap w2) with h2. rewrite Hw2.
  fold h3. set (w3 := set_heap h3 w2).
  assert (Hcopy : dict_at (heap w3) (PRef (length h2)) nodevals).
  { exists (length h2). split; [reflexivity |]. apply list_lookup_middle. reflexivity. }
  rewrite (update_node_input_present w3 _ nodevals node fieldvals li insvals
             node_id input_name v Hcopy Hgn Hn Hgi Hi Hhas).
  eexists. eexists. eexists. split; [reflexivity |]. split.
  - apply lookup_lt_Some in Hw2. intros [= E]. lia.
  - subst w3 w2. cbn [heap log set_heap]. apply Hden.
    apply (load_at_denotes _ _ _ _ _ HV), agrees_insert.
    + subst h3 h2. rewrite <- app_assoc. apply agrees_self.
    + left. rewrite length_app. lia.
Qed.

Lemma copy_and_update_changes_original_witness :
  exists workflow current_workflow w',
    (workflow <- json_load (JDict [("32", JDict [("inputs", JDict [("text", JStr "a")])])]) ;;
     new_value <- json_load (JStr "b") ;;
     current_workflow <- copy_and_update workflow "32" "text" new_value ;;
     ret (workflow, current_workflow)) (init_world "http://127.0.0.1:8188" [])
    = (Ret (workflow, current_workflow), w')
    /\ current_workflow <> workflow
    /\ denotes (heap w') (JDict [("32", JDict [("inputs", JDict [("text", JStr "b")])])])
         workflow = true.
Proof.
  exact (copy_and_update_changes_original (init_world "http://127.0.0.1:8188" [])
           [("32", JDict [("inputs", JDict [("text", JStr "a")])])] _ _
           "32" "text" (JStr "b") eq_refl eq_refl eq_refl).
Defined.

(** The same run, computed: after the first job the loaded graph no
    longer reads as the document it was loaded from. *)
Example copy_and_update_base_graph_lost :
  let base_graph := JDict [("32", JDict [("inputs", JDict [("text", JStr "a")])])] in
  match (workflow <- json_load base_graph ;;
         current_workflow <- copy_and_update workflow "32" "text" (PStr "b") ;;
         ret workflow) (init_world "http://127.0.0.1:8188" []) with
  | (Ret workflow, w') =>
      denotes (heap w') base_graph workflow = false
      /\ denotes (heap w') (JDict [("32", JDict [("inputs", JDict [("text", JStr "b")])])])
           workflow = true
  | _ => False
  end.
Proof. vm_compute. split; reflexivity. Qed.

(** ** [run_workflow] *)

Lemma client_id_or_empty (client_id : option string) :
  match client_id with
  | Some c => if String.eqb c "" then "" else c
  | None => ""
  end = match client_id with Some c => c | None => "" end.
Proof.
  destruct client_id as [c |]; [| reflexivity].
  destruct (String.eqb c "") eqn:E; [| reflexivity].
  apply String.eqb_eq in E. now subst.
Qed.

(** *** Python's [in] on strs and lists *)

Lemma prefix_occurs s : forall t, String.prefix s t = true <-> exists b, t = s +:+ b.
Proof.
  induction s as [| c s IH]; intros t.
  - split; [intros _; now exists t | intros _; now destruct t].
  - destruct t as [| c' t].
    + split; [discriminate | intros (b & H); discriminate H].
    + unfold String.prefix; fold String.prefix.
      destruct (ascii_dec c c') as [<- | Hne].
      * rewrite IH. split.
        -- intros (b & ->). now exists b.
        -- intros (b & H). change (String c s +:+ b) with (String c (s +:+ b)) in H.
           injection H as ->. now exists b.
      * split; [discriminate |].
        intros (b & H). change (String c s +:+ b) with (String c (s +:+ b)) in H.
        injection H as E _. congruence.
Qed.

Lemma is_substring_occurs s : forall t, is_substring s t = true <-> occurs_in s t.
Proof.
  induction t as [| c t IH].
  - unfold is_substring. rewrite orb_false_r, prefix_occurs. split.
    + intros (b & H). now exists "", b.
    + intros (a & b & H). destruct a as [| x a]; [now exists b | discriminate H].
  - unfold is_substring; fold is_substring. rewrite orb_true_iff, prefix_occurs, IH.
    split.
    + intros [(b & H) | (a & b & ->)]; [now exists "", b |].
      now exists (String c a), b.
    + intros (a & b & H). destruct a as [| x a]; [left; now exists b |].
      right. change (String x a +:+ s +:+ b) with (String x (a +:+ s +:+ b)) in H.
      injection H as _ ->. now exists a, b.
Qed.

Lemma append_assoc (a b c : string) : (a +:+ b) +:+ c = a +:+ (b +:+ c).
Proof.
  induction a as [| x a IH]; [reflexivity |].
  change (String x ((a +:+ b) +:+ c) = String x (a +:+ (b +:+ c))).
  now rewrite IH.
Qed.

Lemma append_empty (a : string) : a +:+ "" = a.
Proof.
  induction a as [| x a IH]; [reflexivity |].
  change (String x (a +:+ "") = String x a). now rewrite IH.
Qed.

Lemma occurs_in_longer s t u : occurs_in s t -> occurs_in t u -> occurs_in s u.
Proof.
  intros (a & b & ->) (a' & b' & ->). exists (a' +:+ a), (b +:+ b').
  now rewrite !append_assoc.
Qed.

Lemma existsb_str_eq pid ids : existsb (str_eq pid) ids = true <-> In (JStr pid) ids.
Proof.
  rewrite existsb_exists. split.
  - intros (x & Hx & E). destruct x; try discriminate.
    simpl in E. apply String.eqb_eq in E. now subst.
  - intros H. exists (JStr pid). split; [assumption |]. simpl. apply String.eqb_refl.
Qed.

Lemma existsb_str_eq_false pid ids :
  existsb (str_eq pid) ids = false <-> ~ In (JStr pid) ids.
Proof.
  rewrite <- existsb_str_eq. destruct (existsb (str_eq pid) ids); split; auto;
    try discriminate. intros H. now destruct H.
Qed.

(** How a call of [run_workflow] that got an answer ends. *)
Lemma run_workflow_shape w workflow client_id r rest :
  script w = r :: rest ->
  let posted := set_script rest (log (prompt_request w workflow client_id) w) in
  (status_code r <> 200
   /\ run_workflow workflow client_id w
      = (Raise (SubmitFailed (status_code r) (content r)), posted))
  \/ (status_code r = 200 /\ json_body r = None
      /\ run_workflow workflow client_id w = (Raise JSONDecodeError, posted))
  \/ (exists result e,
        status_code r = 200 /\ json_body r = Some result
        /\ (e = TypeError \/ e = PromptIdNotFound result)
        /\ run_workflow workflow client_id w
           = (Raise e, log (EPrint (MsgResponse result)) posted))
  \/ (exists result v,
        status_code r = 200 /\ json_body r = Some result
        /\ truthy v = true /\ identifier_in result v
        /\ run_workflow workflow client_id w
           = (Ret v, log (EPrint (MsgStarted v)) (log (EPrint (MsgResponse result)) posted))).
Proof.
  intros Hs posted. subst posted.
  destruct (Z.eq_dec (status_code r) 200) as [Hst | Hst].
  2:{ left. split; [assumption |]. apply Z.eqb_neq in Hst.
      unfold run_workflow. rewrite client_id_or_empty. run. reflexivity. }
  right. pose proof Hst as Hst'. apply Z.eqb_eq in Hst'.
  destruct (json_body r) as [result |] eqn:Hj.
  2:{ left. repeat split; try assumption.
      unfold run_workflow. rewrite client_id_or_empty. run. reflexivity. }
  right.
  assert (Hgoal :
    (exists v, truthy v = true /\ identifier_in result v
               /\ run_workflow workflow client_id w
                  = (Ret v, log (EPrint (MsgStarted v))
                              (log (EPrint (MsgResponse result))
                                 (set_script rest
                                    (log (prompt_request w workflow client_id) w)))))
    \/ (exists e, (e = TypeError \/ e = PromptIdNotFound result)
                  /\ run_workflow workflow client_id w
                     = (Raise e, log (EPrint (MsgResponse result))
                                   (set_script rest
                                      (log (prompt_request w workflow client_id) w))))).
  { unfold run_workflow. rewrite client_id_or_empty. run.
    destruct result as [| b | z | s | [| first items] | fields]; simpl;
      try (right; eexists; split; [| reflexivity]; auto; fail).
    - destruct (is_substring "prompt_id" s); simpl;
        [right; eexists; split; [| reflexivity]; auto |].
      destruct (is_substring "id" s); simpl;
        right; eexists; (split; [| reflexivity]); auto.
    - destruct (str_eq "prompt_id" first || existsb (str_eq "prompt_id") items); simpl;
        [right; eexists; split; [| reflexivity]; auto |].
      destruct (str_eq "id" first || existsb (str_eq "id") items); simpl;
        [right; eexists; split; [| reflexivity]; auto |].
      destruct (negb (py_str first =? "")%string) eqn:E; simpl.
      + left. eexists. split; [| split; [| reflexivity]];
          [exact E | right; exists first, items; split; reflexivity].
      + right. eexists. split; [| reflexivity]. auto.
    - unfold dict_has.
      destruct (dict_get "prompt_id" fields) as [v |] eqn:Hp; simpl.
      + destruct (truthy v) eqn:E; simpl.
        * left. eexists. split; [| split; [| reflexivity]];
            [exact E | left; exists fields; split; [reflexivity | now left]].
        * right. eexists. split; [| reflexivity]. auto.
      + destruct (dict_get "id" fields) as [v |] eqn:Hi; simpl.
        * destruct (truthy v) eqn:E; simpl.
          -- left. eexists. split; [| split; [| reflexivity]];
               [exact E | left; exists fields; split; [reflexivity | now right]].
          -- right. eexists. split; [| reflexivity]. auto.
        * right. eexists. split; [| reflexivity]. auto. }
  destruct Hgoal as [(v & Hv & Hin & E) | (e & He & E)].
  - right. exists result, v. repeat split; assumption.
  - left. exists result, e. repeat split; assumption.
Qed.

(** C2 (as amended).  [run_workflow] raises the exception that carries the
    status code and the body exactly when the status of the response to
    the POST is not 200, and then nothing else has been done.  On a 200 it
    never raises it and goes on: it parses the body, which raises
    JSONDecodeError when the body is not JSON, prints the document, and
    extracts the identifier: it returns a value that is not empty and
    that the document has in one of the three shapes, or it raises the
    missing-identifier exception or a TypeError. *)
Theorem run_workflow_status (w : world) (workflow : json) (client_id : option string)
    (r : response) (rest : list response) :
  script w = r :: rest ->
  let posted := set_script rest (log (prompt_request w workflow client_id) w) in
  (status_code r <> 200 ->
     run_workflow workflow client_id w
     = (Raise (SubmitFailed (status_code r) (content r)), posted))
  /\ (status_code r = 200 ->
      (forall status text,
         fst (run_workflow workflow client_id w) <> Raise (SubmitFailed status text))
      /\ (json_body r = None ->
          run_workflow workflow client_id w = (Raise JSONDecodeError, posted))
      /\ (forall result,
            json_body r = Some result ->
            (exists v,
               truthy v = true /\ identifier_in result v
               /\ run_workflow workflow client_id w
                  = (Ret v, log (EPrint (MsgStarted v))
                              (log (EPrint (MsgResponse result)) posted)))
            \/ (exists e,
                  (e = PromptIdNotFound result \/ e = TypeError)
                  /\ run_workflow workflow client_id w
                     = (Raise e, log (EPrint (MsgResponse result)) posted)))).
Proof.
  intros Hs posted.
  destruct (run_workflow_shape w workflow client_id r rest Hs)
    as [(Hst & E) | [(Hst & Hj & E) | [(result & e & Hst & Hj & He & E)
                                      | (result & v & Hst & Hj & Hv & Hin & E)]]];
    fold posted in E; (split; [intros Hne; try contradiction; exact E |]);
    intros H200; try contradiction; rewrite E.
  - split; [intros; discriminate |]. split; [reflexivity |].
    intros result Hj'. rewrite Hj in Hj'. discriminate.
  - split; [destruct He as [-> | ->]; intros; discriminate |].
    split; [intros Hj'; rewrite Hj in Hj'; discriminate |].
    intros result' Hj'. rewrite Hj in Hj'. injection Hj' as <-.
    right. exists e. split; [tauto | reflexivity].
  - split; [intros; discriminate |].
    split; [intros Hj'; rewrite Hj in Hj'; discriminate |].
    intros result' Hj'. rewrite Hj in Hj'. injection Hj' as <-.
    left. exists v. repeat split; assumption.
Qed.

Lemma run_workflow_status_witness :
  let failed := {| status_code := 500; content := "Internal Server Error";
                   json_body := None |} in
  let w := init_world "http://127.0.0.1:8188" [failed] in
  let w' := init_world "http://127.0.0.1:8188" [ok_response (JDict [("id", JStr "xyz")])] in
  fst (run_workflow (JDict []) None w) = Raise (SubmitFailed 500 "Internal Server Error")
  /\ fst (run_workflow (JDict []) None w') <> Raise (SubmitFailed 200 "(json)")
  /\ (exists v,
        truthy v = true /\ identifier_in (JDict [("id", JStr "xyz")]) v
        /\ fst (run_workflow (JDict []) None w') = Ret v).
Proof.
  intros failed w w'. split; [| split].
  - rewrite (proj1 (run_workflow_status w (JDict []) None failed [] eq_refl)).
    + reflexivity.
    + discriminate.
  - apply (proj1 (proj2 (run_workflow_status w' (JDict []) None _ [] eq_refl) eq_refl)).
  - destruct (proj2 (proj2 (proj2 (run_workflow_status w' (JDict []) None _ [] eq_refl)
                                eq_refl)) _ eq_refl)
      as [(v & Hv & Hin & E) | (e & He & E)].
    + exists v. rewrite E. auto.
    + exfalso. vm_compute in E. discriminate E.
Defined.

(** C2, counterexample.  The answer 201 is in the 2xx range and its body
    names the job, yet [run_workflow] raises: it goes on for 200 only. *)
Lemma run_workflow_201_raises :
  let created := {| status_code := 201; content := "Created";
                    json_body := Some (JDict [("prompt_id", JStr "abc")]) |} in
  (200 <= status_code created < 300)
  /\ fst (run_workflow (JDict []) None (init_world "http://127.0.0.1:8188" [created]))
     = Raise (SubmitFailed 201 "Created").
Proof. split; [simpl; lia | reflexivity]. Qed.

(** C3, counterexample.  With an empty "prompt_id" and an "id", the first
    non-empty candidate is the "id", but [run_workflow] has chosen the
    "prompt_id" branch and raises. *)
Lemma run_workflow_empty_prompt_id_raises :
  let result := JDict [("prompt_id", JStr ""); ("id", JStr "xyz")] in
  first_non_empty_identifier result = Some (JStr "xyz")
  /\ fst (run_workflow (JDict []) None
            (init_world "http://127.0.0.1:8188" [ok_response result]))
     = Raise (PromptIdNotFound result).
Proof. split; reflexivity. Qed.

(** C3 (as amended).  On a 200 whose body is the document [result], the
    identifier is taken from the first shape that applies and no other is
    tried: for an object, the value under "prompt_id" if it has that key,
    else the value under "id" if it has that key; for a sequence with
    neither str among its elements, its first element as a str.
    [run_workflow] returns that value when it is not empty, and raises
    the missing-identifier exception when it is empty or when no shape
    applies: an object with neither key, an empty sequence, a str in which
    "id" does not occur.  Every other document ends in a TypeError: a
    sequence with the str "prompt_id" or "id" among its elements, a str
    in which "id" occurs, null, a boolean, a number. *)
Theorem run_workflow_identifier (w : world) (workflow : json)
    (client_id : option string) (r : response) (rest : list response) (result : json) :
  script w = r :: rest ->
  status_code r = 200 ->
  json_body r = Some result ->
  let returned := fst (run_workflow workflow client_id w) in
  let missing := Raise (PromptIdNotFound result) in
  let checked v := if truthy v then Ret v else missing in
  (forall fields,
     result = JDict fields ->
     returned = match dict_get "prompt_id" fields, dict_get "id" fields with
                | Some v, _ => checked v
                | None, Some v => checked v
                | None, None => missing
                end)
  /\ (forall items,
        result = JList items ->
        (In (JStr "prompt_id") items \/ In (JStr "id") items -> returned = Raise TypeError)
        /\ (~ In (JStr "prompt_id") items ->
            ~ In (JStr "id") items ->
            returned = match items with
                       | first :: _ => checked (JStr (py_str first))
                       | [] => missing
                       end))
  /\ (forall s,
        result = JStr s ->
        (occurs_in "id" s -> returned = Raise TypeError)
        /\ (~ occurs_in "id" s -> returned = missing))
  /\ (json_scalar result -> returned = Raise TypeError).
Proof.
  intros Hs Hst Hj. apply Z.eqb_eq in Hst. simpl. split; [| split; [| split]].
  - intros fields ->. unfold run_workflow. run.
    destruct (dict_get "prompt_id" fields) as [v |]; simpl.
    + destruct (truthy v); reflexivity.
    + destruct (dict_get "id" fields) as [v |]; simpl; [| reflexivity].
      destruct (truthy v); reflexivity.
  - intros items ->. split.
    + intros Hin. unfold run_workflow. run.
      destruct (existsb (str_eq "prompt_id") items) eqn:Hp; simpl; [reflexivity |].
      destruct Hin as [Hin | Hin]; apply existsb_str_eq in Hin.
      * rewrite Hin in Hp. discriminate.
      * rewrite Hin. reflexivity.
    + intros Hp Hi. apply existsb_str_eq_false in Hp, Hi.
      unfold run_workflow. run.
      destruct items as [| first items]; simpl; [reflexivity |].
      destruct (negb (py_str first =? "")%string); reflexivity.
  - intros s ->. split.
    + intros Hin. unfold run_workflow. run.
      destruct (is_substring "prompt_id" s); simpl; [reflexivity |].
      apply is_substring_occurs in Hin. rewrite Hin. reflexivity.
    + intros Hno.
      assert (Hi : is_substring "id" s = false).
      { destruct (is_substring "id" s) eqn:E; [| reflexivity].
        apply is_substring_occurs in E. contradiction. }
      assert (Hp : is_substring "prompt_id" s = false).
      { destruct (is_substring "prompt_id" s) eqn:E; [| reflexivity].
        apply is_substring_occurs in E. exfalso. apply Hno.
        apply (occurs_in_longer "id" "prompt_id" s); [| assumption].
        now exists "prompt_", "". }
      unfold run_workflow. run. reflexivity.
  - intros Hsc. unfold run_workflow. run.
    destruct result; simpl in Hsc; try contradiction; reflexivity.
Qed.

Lemma run_workflow_identifier_witness :
  let submit result :=
    fst (run_workflow (JDict []) None
           (init_world "http://127.0.0.1:8188" [ok_response result])) in
  submit (JDict [("prompt_id", JStr "abc")]) = Ret (JStr "abc")
  /\ submit (JDict [("id", JStr "xyz")]) = Ret (JStr "xyz")
  /\ submit (JList [JStr "q1"]) = Ret (JStr "q1")
  /\ submit (JDict []) = Raise (PromptIdNotFound (JDict []))
  /\ submit (JList [JStr "q1"; JStr "id"]) = Raise TypeError
  /\ submit (JStr "my id") = Raise TypeError
  /\ submit (JInt 7) = Raise TypeError.
Proof.
  intros submit.
  pose (w result := init_world "http://127.0.0.1:8188" [ok_response result]).
  pose (thm result :=
          run_workflow_identifier (w result) (JDict []) None (ok_response result) []
            result eq_refl eq_refl eq_refl).
  split; [| split; [| split; [| split; [| split; [| split]]]]].
  - exact (proj1 (thm (JDict [("prompt_id", JStr "abc")])) _ eq_refl).
  - exact (proj1 (thm (JDict [("id", JStr "xyz")])) _ eq_refl).
  - apply (proj2 (proj1 (proj2 (thm (JList [JStr "q1"]))) _ eq_refl)).
    + intros [H | []]. discriminate H.
    + intros [H | []]. discriminate H.
  - exact (proj1 (thm (JDict [])) _ eq_refl).
  - apply (proj1 (proj1 (proj2 (thm (JList [JStr "q1"; JStr "id"]))) _ eq_refl)).
    right. right. left. reflexivity.
  - apply (proj1 (proj1 (proj2 (proj2 (thm (JStr "my id")))) _ eq_refl)).
    now exists "my ", "".
  - exact (proj2 (proj2 (proj2 (thm (JInt 7)))) I).
Defined.

(** ** [get_history] *)

(** C9.  When the history request is answered 200 with a collection that
    has no entry for the job, [get_history] returns the empty record; it
    prints a warning and raises nothing. *)
Theorem get_history_unknown_job (w : world) (prompt_id : string) (r : response)
    (rest : list response) (history : list (string * json)) :
  script w = r :: rest ->
  status_code r = 200 ->
  json_body r = Some (JDict history) ->
  dict_get prompt_id history = None ->
  get_history prompt_id w
  = (Ret (JDict []),
     log (EPrint (MsgNoHistory prompt_id))
       (set_history_data (JDict history)
          (set_script rest (log (EGet (server_address w +:+ "/history")) w)))).
Proof.
  intros Hs Hst Hj Hk. apply Z.eqb_eq in Hst.
  unfold get_history. run. reflexivity.
Qed.

Lemma get_history_unknown_job_witness :
  let r := ok_response (JDict [("p41", JDict [("outputs", JDict [])])]) in
  fst (get_history "p42" (init_world "http://127.0.0.1:8188" [r])) = Ret (JDict []).
Proof.
  intros r.
  rewrite (get_history_unknown_job (init_world "http://127.0.0.1:8188" [r]) "p42" r []
             [("p41", JDict [("outputs", JDict [])])] eq_refl eq_refl eq_refl eq_refl).
  reflexivity.
Defined.

(** ** [wait_for_completion] *)

Lemma can_sleep_refusal w d : can_sleep w d <-> sleep_refusal w d = None.
Proof.
  unfold can_sleep, sleep_refusal. rewrite <- Qle_bool_iff.
  destruct (Qle_bool 0 d); split; try tauto; try discriminate.
  intros [H _]. discriminate H.
Qed.

Lemma sleep_refusal_negative w d : (d < 0)%Q -> sleep_refusal w d = Some ValueError.
Proof.
  intros Hd. unfold sleep_refusal. destruct (Qle_bool 0 d) eqn:E; [| reflexivity].
  apply Qle_bool_iff in E. exfalso. exact (Qlt_not_le _ _ Hd E).
Qed.

Lemma sleep_cases w d : can_sleep w d \/ exists e, sleep_refusal w d = Some e.
Proof.
  rewrite can_sleep_refusal. destruct (sleep_refusal w d) as [e |]; eauto.
Qed.

Lemma can_sleep_same w w' d :
  sleep_error w' = sleep_error w -> can_sleep w d -> can_sleep w' d.
Proof. unfold can_sleep. intros ->. auto. Qed.

(** A sleep that is taken, and a sleep that is refused. *)
Lemma sleep_taken w d : can_sleep w d -> sleep d w = (Ret tt, log (ESleep d) w).
Proof.
  intros (Hd & Hse). apply Qle_bool_iff in Hd. unfold sleep. now rewrite Hd, Hse.
Qed.

Lemma sleep_not_taken w d e : sleep_refusal w d = Some e -> sleep d w = (Raise e, w).
Proof.
  unfold sleep_refusal, sleep. destruct (Qle_bool 0 d); [intros -> | intros [= <-]];
    reflexivity.
Qed.

Lemma poll_once_blocked pid d w :
  script w = [] ->
  poll_once pid d w = (Blocked, log (EGet (server_address w +:+ "/queue")) w).
Proof. intros Hs. unfold poll_once. run. reflexivity. Qed.

Lemma poll_once_failed pid d w r rest :
  can_sleep w d -> script w = r :: rest -> status_code r <> 200 ->
  poll_once pid d w = (Ret None, after_failed_poll d r rest w).
Proof.
  intros (Hd & Hse) Hs Hne. apply Qle_bool_iff in Hd. apply Z.eqb_neq in Hne.
  unfold poll_once. run. reflexivity.
Qed.

Lemma poll_once_failed_refused pid d w r rest e :
  sleep_refusal w d = Some e -> script w = r :: rest -> status_code r <> 200 ->
  poll_once pid d w
  = (Raise e,
     log (EPrint (MsgQueueFailed (status_code r)))
       (set_script rest (log (EGet (server_address w +:+ "/queue")) w))).
Proof.
  intros H Hs Hne. apply Z.eqb_neq in Hne. unfold sleep_refusal in H.
  destruct (Qle_bool 0 d) eqn:Hd; [| injection H as <-];
    unfold poll_once; run; reflexivity.
Qed.

Lemma queue_lists_parsed r lists :
  queue_lists r = Some lists ->
  (status_code r =? 200) = true
  /\ exists queue_data,
       json_body r = Some queue_data
       /\ queue_ids queue_data "queue_running" = inr (fst lists)
       /\ queue_ids queue_data "queue_pending" = inr (snd lists).
Proof.
  unfold queue_lists. intros Hq.
  destruct (status_code r =? 200); [| discriminate].
  destruct (json_body r) as [qd |]; [| discriminate].
  destruct (queue_ids qd "queue_running") as [| running] eqn:Hr; [discriminate |].
  destruct (queue_ids qd "queue_pending") as [| pending] eqn:Hp; [discriminate |].
  injection Hq as <-. split; [reflexivity |]. exists qd. auto.
Qed.

Lemma poll_once_done pid d w r rest lists :
  script w = r :: rest -> queue_lists r = Some lists -> job_done pid lists = true ->
  poll_once pid d w = (Ret (Some true), after_last_poll lists rest w).
Proof.
  intros Hs Hq Hd. destruct (queue_lists_parsed r lists Hq) as (Hst & qd & Hj & Hr & Hp).
  unfold job_done in Hd. unfold poll_once. run. reflexivity.
Qed.

Lemma poll_once_busy pid d w r rest lists :
  can_sleep w d ->
  script w = r :: rest -> queue_lists r = Some lists -> job_done pid lists = false ->
  poll_once pid d w = (Ret None, after_busy_poll d lists rest w).
Proof.
  intros (H0 & Hse) Hs Hq Hd. apply Qle_bool_iff in H0.
  destruct (queue_lists_parsed r lists Hq) as (Hst & qd & Hj & Hr & Hp).
  unfold job_done in Hd. unfold poll_once. run. reflexivity.
Qed.

Lemma poll_once_busy_refused pid d w r rest lists e :
  sleep_refusal w d = Some e ->
  script w = r :: rest -> queue_lists r = Some lists -> job_done pid lists = false ->
  poll_once pid d w
  = (Raise e,
     log (EPrint (MsgPending (snd lists)))
       (log (EPrint (MsgRunning (fst lists)))
          (set_script rest (log (EGet (server_address w +:+ "/queue")) w)))).
Proof.
  intros H Hs Hq Hd.
  destruct (queue_lists_parsed r lists Hq) as (Hst & qd & Hj & Hr & Hp).
  unfold job_done in Hd. unfold sleep_refusal in H.
  destruct (Qle_bool 0 d) eqn:H0; [| injection H as <-];
    unfold poll_once; run; reflexivity.
Qed.

(** The parsing of the queue goes through every object; on anything else
    it raises TypeError if it raises. *)
Lemma queue_ids_object fields key : exists ids, queue_ids (JDict fields) key = inr ids.
Proof.
  unfold queue_ids. simpl. unfold dict_has.
  destruct (dict_get key fields) as [x |]; [| eauto].
  destruct x; eauto.
Qed.

Lemma queue_ids_error queue_data key e :
  queue_ids queue_data key = inl e -> e = TypeError.
Proof.
  unfold queue_ids.
  destruct queue_data as [| b | z | s | items | fields]; simpl;
    try (intros [= <-]; reflexivity).
  - destruct (is_substring key s); [intros [= <-]; reflexivity | discriminate].
  - destruct (existsb (str_eq key) items); [intros [= <-]; reflexivity | discriminate].
  - intros H. destruct (queue_ids_object fields key) as [ids Hids].
    unfold queue_ids in Hids. simpl in Hids. rewrite Hids in H. discriminate.
Qed.

(** The round that gets an answer 200 it cannot read: the exception
    comes right after the request. *)
Lemma poll_once_unreadable pid d w r rest :
  script w = r :: rest -> status_code r = 200 -> queue_lists r = None ->
  exists e,
    poll_once pid d w
    = (Raise e, set_script rest (log (EGet (server_address w +:+ "/queue")) w))
    /\ (e = JSONDecodeError \/ e = TypeError).
Proof.
  intros Hs Hst Hq. unfold queue_lists in Hq. apply Z.eqb_eq in Hst. rewrite Hst in Hq.
  unfold poll_once. run.
  destruct (json_body r) as [qd |]; simpl; [| eauto].
  destruct (queue_ids qd "queue_running") as [e | running] eqn:Hr; simpl.
  { exists e. split; [reflexivity |]. right. exact (queue_ids_error _ _ _ Hr). }
  destruct (queue_ids qd "queue_pending") as [e | pending] eqn:Hp; simpl;
    [| discriminate].
  exists e. split; [reflexivity |]. right. exact (queue_ids_error _ _ _ Hp).
Qed.

(** The four kinds of answer to a poll. *)
Lemma response_cases pid r :
  status_code r <> 200
  \/ (exists lists, queue_lists r = Some lists /\ job_done pid lists = true)
  \/ (exists lists, queue_lists r = Some lists /\ job_done pid lists = false)
  \/ (status_code r = 200 /\ queue_lists r = None).
Proof.
  destruct (Z.eq_dec (status_code r) 200) as [Hst | Hst]; [| auto].
  destruct (queue_lists r) as [lists |] eqn:Hq; [| auto].
  destruct (job_done pid lists) eqn:Hd; eauto 6.
Qed.

Lemma polls_log e w :
  polls (trace (log e w))
  = (polls (trace w) + match e with EGet _ => 1 | _ => 0 end)%nat.
Proof.
  unfold polls. simpl. rewrite List.filter_app, length_app.
  destruct e; reflexivity.
Qed.

Lemma sleeps_log e w :
  sleeps (trace (log e w))
  = sleeps (trace w) ++ match e with ESleep s => [s] | _ => [] end.
Proof.
  unfold sleeps. simpl. rewrite flat_map_app. simpl.
  destruct e; simpl; now rewrite ?app_nil_r.
Qed.

Lemma after_failed_poll_counts d r rest w :
  script (after_failed_poll d r rest w) = rest
  /\ polls (trace (after_failed_poll d r rest w)) = S (polls (trace w))
  /\ sleeps (trace (after_failed_poll d r rest w)) = sleeps (trace w) ++ [d].
Proof.
  unfold after_failed_poll. repeat split.
  - rewrite !polls_log. change (trace (set_script rest ?x)) with (trace x).
    rewrite polls_log. lia.
  - rewrite !sleeps_log. change (trace (set_script rest ?x)) with (trace x).
    rewrite sleeps_log. now rewrite !app_nil_r.
Qed.

Lemma after_busy_poll_counts d lists rest w :
  script (after_busy_poll d lists rest w) = rest
  /\ polls (trace (after_busy_poll d lists rest w)) = S (polls (trace w))
  /\ sleeps (trace (after_busy_poll d lists rest w)) = sleeps (trace w) ++ [d].
Proof.
  unfold after_busy_poll. repeat split.
  - rewrite !polls_log. change (trace (set_script rest ?x)) with (trace x).
    rewrite polls_log. lia.
  - rewrite !sleeps_log. change (trace (set_script rest ?x)) with (trace x).
    rewrite sleeps_log. now rewrite !app_nil_r.
Qed.

Lemma after_last_poll_counts lists rest w :
  script (after_last_poll lists rest w) = rest
  /\ polls (trace (after_last_poll lists rest w)) = S (polls (trace w))
  /\ sleeps (trace (after_last_poll lists rest w)) = sleeps (trace w).
Proof.
  unfold after_last_poll. repeat split.
  - rewrite !polls_log. change (trace (set_script rest ?x)) with (trace x).
    rewrite polls_log. lia.
  - rewrite !sleeps_log. change (trace (set_script rest ?x)) with (trace x).
    rewrite sleeps_log. now rewrite !app_nil_r.
Qed.

(** Every round answers one request: whatever the interval, a round that
    got an answer leaves the rest of the script. *)
Lemma poll_once_script pid d w r rest :
  script w = r :: rest -> script (snd (poll_once pid d w)) = rest.
Proof.
  intros Hs.
  destruct (response_cases pid r)
    as [Hst | [(l & Hq & Hd) | [(l & Hq & Hd) | (Hst & Hq)]]].
  - destruct (sleep_cases w d) as [H0 | (e0 & H0)].
    + now rewrite (poll_once_failed pid d w r rest H0 Hs Hst).
    + now rewrite (poll_once_failed_refused pid d w r rest e0 H0 Hs Hst).
  - now rewrite (poll_once_done pid d w r rest l Hs Hq Hd).
  - destruct (sleep_cases w d) as [H0 | (e0 & H0)].
    + now rewrite (poll_once_busy pid d w r rest l H0 Hs Hq Hd).
    + now rewrite (poll_once_busy_refused pid d w r rest l e0 H0 Hs Hq Hd).
  - destruct (poll_once_unreadable pid d w r rest Hs Hst Hq) as (e & -> & _).
    reflexivity.
Qed.

(** The loop, unrolled once: the number of rounds that [polling] starts
    with never runs out before the script does. *)
Lemma polling_unfold pid d w :
  polling pid d w
  = (r <- poll_once pid d ;;
     match r with Some a => ret a | None => polling pid d end) w.
Proof.
  unfold polling at 1. destruct (script w) as [| r rest] eqn:Hs.
  - simpl. unfold bind. rewrite (poll_once_blocked pid d w Hs). reflexivity.
  - cbn [length iterate]. unfold bind.
    pose proof (poll_once_script pid d w r rest Hs) as Hrest.
    destruct (poll_once pid d w) as [[[a |] | e |] w1]; try reflexivity.
    simpl in Hrest. unfold polling. now rewrite Hrest.
Qed.

(** A retried poll leaves the loop where it was, one response further. *)
Lemma polling_retried pid d w r rest :
  can_sleep w d ->
  script w = r :: rest -> retried pid r = true ->
  exists w1,
    polling pid d w = polling pid d w1
    /\ can_sleep w1 d
    /\ script w1 = rest
    /\ polls (trace w1) = S (polls (trace w))
    /\ sleeps (trace w1) = sleeps (trace w) ++ [d].
Proof.
  intros H0 Hs Hr. unfold retried, observes_busy in Hr.
  rewrite polling_unfold. unfold bind.
  destruct (status_code r =? 200) eqn:Hst; simpl in Hr.
  - destruct (queue_lists r) as [lists |] eqn:Hq; [| discriminate].
    apply negb_true_iff in Hr.
    rewrite (poll_once_busy pid d w r rest lists H0 Hs Hq Hr).
    exists (after_busy_poll d lists rest w).
    split; [reflexivity | split; [exact H0 | apply after_busy_poll_counts]].
  - apply Z.eqb_neq in Hst. rewrite (poll_once_failed pid d w r rest H0 Hs Hst).
    exists (after_failed_poll d r rest w).
    split; [reflexivity | split; [exact H0 | apply after_failed_poll_counts]].
Qed.

(** With an interval that is refused the first retried poll ends the
    loop. *)
Lemma polling_refused pid d w r rest e :
  sleep_refusal w d = Some e ->
  script w = r :: rest -> retried pid r = true ->
  exists w1,
    polling pid d w = (Raise e, w1)
    /\ script w1 = rest
    /\ polls (trace w1) = S (polls (trace w))
    /\ sleeps (trace w1) = sleeps (trace w).
Proof.
  intros H0 Hs Hr. unfold retried, observes_busy in Hr.
  rewrite polling_unfold. unfold bind.
  destruct (status_code r =? 200) eqn:Hst; simpl in Hr.
  - destruct (queue_lists r) as [lists |] eqn:Hq; [| discriminate].
    apply negb_true_iff in Hr.
    rewrite (poll_once_busy_refused pid d w r rest lists e H0 Hs Hq Hr).
    eexists. split; [reflexivity |]. split; [reflexivity |].
    rewrite !polls_log, !sleeps_log. change (trace (set_script rest ?x)) with (trace x).
    rewrite polls_log, sleeps_log. simpl. rewrite !app_nil_r. split; [lia | reflexivity].
  - apply Z.eqb_neq in Hst. rewrite (poll_once_failed_refused pid d w r rest e H0 Hs Hst).
    eexists. split; [reflexivity |]. split; [reflexivity |].
    rewrite !polls_log, !sleeps_log. change (trace (set_script rest ?x)) with (trace x).
    rewrite polls_log, sleeps_log. simpl. rewrite !app_nil_r. split; [lia | reflexivity].
Qed.

Lemma polling_done pid d w r rest :
  script w = r :: rest -> observes_done pid r = true ->
  exists w1,
    polling pid d w = (Ret true, w1)
    /\ script w1 = rest
    /\ polls (trace w1) = S (polls (trace w))
    /\ sleeps (trace w1) = sleeps (trace w).
Proof.
  intros Hs Hr. unfold observes_done in Hr.
  destruct (queue_lists r) as [lists |] eqn:Hq; [| discriminate].
  rewrite polling_unfold. unfold bind.
  rewrite (poll_once_done pid d w r rest lists Hs Hq Hr).
  exists (after_last_poll lists rest w).
  split; [reflexivity | apply after_last_poll_counts].
Qed.

(** More rounds than the script has responses change nothing. *)
Lemma polling_rounds pid d : forall n w,
  (length (script w) < n)%nat -> iterate n (poll_once pid d) w = polling pid d w.
Proof.
  induction n as [| n IH]; intros w Hn; [lia |].
  rewrite polling_unfold. cbn [iterate]. unfold bind.
  destruct (script w) as [| r rest] eqn:Hs.
  - now rewrite (poll_once_blocked pid d w Hs).
  - simpl in Hn. pose proof (poll_once_script pid d w r rest Hs) as Hrest.
    destruct (poll_once pid d w) as [[[a |] | e |] w1]; try reflexivity.
    simpl in Hrest. apply IH. rewrite Hrest. lia.
Qed.



Lemma polling_all_retried pid d : forall s w,
  can_sleep w d ->
  script w = s ->
  forallb (retried pid) s = true ->
  exists w',
    polling pid d w = (Blocked, w')
    /\ polls (trace w') = (polls (trace w) + length s + 1)%nat
    /\ sleeps (trace w') = sleeps (trace w) ++ repeat d (length s).
Proof.
  induction s as [| r rest IH]; intros w H0 Hs Hall.
  - rewrite polling_unfold. unfold bind. rewrite (poll_once_blocked pid d w Hs).
    eexists. split; [reflexivity |]. rewrite polls_log, sleeps_log. simpl.
    rewrite !app_nil_r. split; [lia | reflexivity].
  - simpl in Hall. apply andb_true_iff in Hall as [Hr Hrest].
    destruct (polling_retried pid d w r rest H0 Hs Hr) as (w1 & -> & H0' & H1 & H2 & H3).
    destruct (IH w1 H0' H1 Hrest) as (w' & -> & H4 & H5).
    exists w'. split; [reflexivity |]. rewrite H4, H5, H2, H3. simpl.
    split; [lia | now rewrite <- app_assoc].
Qed.

(** *** Snapshots of the data model and what the parsing makes of them *)

Lemma entry_ids entries : flat_map entry_id (map entry_doc entries) = map entry_ident entries.
Proof.
  induction entries as [| [id others | id others] entries IH]; simpl; now rewrite ?IH.
Qed.

Lemma queue_ids_under fields key entries :
  entries_under fields key entries ->
  queue_ids (JDict fields) key = inr (map entry_ident entries).
Proof.
  unfold queue_ids. simpl. unfold dict_has. intros [H | [H ->]]; rewrite H.
  - now rewrite entry_ids.
  - reflexivity.
Qed.

Lemma shows_lists r running pending :
  shows r running pending ->
  queue_lists r = Some (map entry_ident running, map entry_ident pending).
Proof.
  intros (Hst & fields & Hj & Hr & Hp). unfold queue_lists.
  apply Z.eqb_eq in Hst. rewrite Hst, Hj.
  now rewrite (queue_ids_under _ _ _ Hr), (queue_ids_under _ _ _ Hp).
Qed.


Lemma goes_on_retried pid r : goes_on pid r -> retried pid r = true.
Proof.
  unfold retried, observes_busy, job_done.
  intros [Hst | (running & pending & Hshows & Hbusy)].
  - apply Z.eqb_neq in Hst. now rewrite Hst.
  - rewrite (shows_lists _ _ _ Hshows). simpl. apply orb_true_iff. right.
    apply negb_true_iff. destruct Hbusy as [Hrun | Hpend].
    + destruct running; [contradiction | simpl; apply andb_false_r].
    + apply existsb_str_eq in Hpend. rewrite Hpend. simpl.
      now rewrite andb_false_r.
Qed.




Lemma polling_unreadable pid d r rest :
  status_code r = 200 ->
  queue_lists r = None ->
  forall earlier w,
    can_sleep w d ->
    script w = earlier ++ r :: rest ->
    forallb (retried pid) earlier = true ->
    exists e w',
      polling pid d w = (Raise e, w')
      /\ (e = JSONDecodeError \/ e = TypeError)
      /\ script w' = rest
      /\ polls (trace w') = (polls (trace w) + length earlier + 1)%nat
      /\ sleeps (trace w') = sleeps (trace w) ++ repeat d (length earlier).
Proof.
  intros Hst Hq. induction earlier as [| x earlier IH]; intros w H0 Hs He.
  - simpl in Hs.
    destruct (poll_once_unreadable pid d w r rest Hs Hst Hq) as (e & E & Hexn).
    exists e. eexists. rewrite polling_unfold. unfold bind. rewrite E.
    split; [reflexivity |]. split; [assumption |]. split; [reflexivity |].
    change (trace (set_script rest ?x)) with (trace x).
    rewrite polls_log, sleeps_log. simpl. rewrite !app_nil_r. split; [lia | reflexivity].
  - simpl in He. apply andb_true_iff in He as [He1 He2].
    destruct (polling_retried pid d w x (earlier ++ r :: rest) H0 Hs He1)
      as (w1 & -> & H0' & H1 & H2 & H3).
    destruct (IH w1 H0' H1 He2) as (e & w' & -> & Hexn & H4 & H5 & H6).
    exists e, w'. repeat split; try assumption.
    + rewrite H5, H2. simpl. lia.
    + rewrite H6, H3. simpl. now rewrite <- app_assoc.
Qed.





Lemma polling_all_failed pid d : forall s w,
  can_sleep w d ->
  script w = s ->
  Forall (fun r => ~ status_2xx r) s ->
  exists w',
    polling pid d w = (Blocked, w')
    /\ polls (trace w') = (polls (trace w) + length s + 1)%nat
    /\ sleeps (trace w') = sleeps (trace w) ++ repeat d (length s).
Proof.
  intros s w H0 Hs Hall. apply (polling_all_retried pid d s w H0 Hs).
  apply forallb_forall. intros r Hr. rewrite Forall_forall in Hall.
  apply list_elem_of_In, Hall in Hr. unfold retried.
  assert (Hst : status_code r <> 200) by (unfold status_2xx in Hr; lia).
  apply Z.eqb_neq in Hst. now rewrite Hst.
Qed.

(** C8.  Let the interval be one that [time.sleep] takes: it is not
    negative and not beyond what the platform sleeps.  A poll answered
    with a status outside 200-299 is logged and followed by one sleep of
    the interval, and the loop goes on as before: however many such
    answers come, the call has not failed, it has slept the same interval
    after each and is still polling. *)
Theorem wait_for_completion_retries_failed_poll (prompt_id : string)
    (check_interval : Q) (w : world) :
  can_sleep w check_interval ->
  (forall r rest,
     script w = r :: rest ->
     ~ status_2xx r ->
     poll_once prompt_id check_interval w
     = (Ret None, after_failed_poll check_interval r rest w)
     /\ polling prompt_id check_interval w
        = polling prompt_id check_interval (after_failed_poll check_interval r rest w)
     /\ trace (after_failed_poll check_interval r rest w)
        = trace w ++ [EGet (server_address w +:+ "/queue");
                      EPrint (MsgQueueFailed (status_code r));
                      ESleep check_interval])
  /\ (Forall (fun r => ~ status_2xx r) (script w) ->
      exists w',
        wait_for_completion prompt_id check_interval w = (Blocked, w')
        /\ polls (trace w') = (polls (trace w) + length (script w) + 1)%nat
        /\ sleeps (trace w')
           = sleeps (trace w) ++ repeat check_interval (length (script w))).
Proof.
  intros H0. split.
  - intros r rest Hs Hr.
    assert (Hst : status_code r <> 200) by (unfold status_2xx in Hr; lia).
    pose proof (poll_once_failed prompt_id check_interval w r rest H0 Hs Hst) as E.
    split; [exact E | split].
    + rewrite polling_unfold. unfold bind. now rewrite E.
    + simpl. now rewrite <- !app_assoc.
  - intros Hall.
    destruct (polling_all_failed prompt_id check_interval (script w)
                (log (EPrint MsgWaiting) w) H0 eq_refl Hall) as (w' & E & H1 & H2).
    exists w'. unfold wait_for_completion, bind, print, emit. rewrite E.
    rewrite polls_log, sleeps_log, app_nil_r in *.
    split; [reflexivity | split; [lia | assumption]].
Qed.

Lemma wait_for_completion_retries_failed_poll_witness :
  let unavailable := {| status_code := 503; content := "Service Unavailable";
                        json_body := None |} in
  exists w',
    wait_for_completion "job1" 1 (init_world "http://127.0.0.1:8188"
                                    [unavailable; unavailable; unavailable])
    = (Blocked, w')
    /\ polls (trace w') = 4%nat
    /\ sleeps (trace w') = [1%Q; 1%Q; 1%Q].
Proof.
  intros unavailable.
  refine (proj2 (wait_for_completion_retries_failed_poll "job1" 1
                   (init_world "http://127.0.0.1:8188"
                      [unavailable; unavailable; unavailable]) _) _).
  - split; [unfold Qle; simpl; lia | reflexivity].
  - repeat constructor; unfold status_2xx; simpl; lia.
Defined.

(** ** [download_images] *)

Lemma fetched_nil out w : fetched out [] (script w) w = w.
Proof. destruct w. unfold fetched. simpl. now rewrite app_nil_r. Qed.

Lemma fetched_app out p1 p2 mid rest w :
  fetched out p2 rest (fetched out p1 mid w) = fetched out (p1 ++ p2) rest w.
Proof. unfold fetched. simpl. now rewrite flat_map_app, app_assoc. Qed.

Lemma saved_app out p1 p2 : saved out (p1 ++ p2) = saved out p1 ++ saved out p2.
Proof. unfold saved. now rewrite List.filter_app, map_app. Qed.

Lemma combine_app_same {A B} (a1 a2 : list A) (b1 b2 : list B) :
  length a1 = length b1 ->
  combine (a1 ++ a2) (b1 ++ b2) = combine a1 b1 ++ combine a2 b2.
Proof.
  revert b1. induction a1 as [| x a1 IH]; intros [| y b1] H; simpl in *;
    try discriminate; [reflexivity |].
  f_equal. apply IH. now injection H.
Qed.

Lemma fetches_nil out : fetches out (fun acc => ret acc) [].
Proof.
  intros acc w [| r responses] rest Hs Hl _; [| discriminate].
  simpl in *. unfold ret, saved. simpl. rewrite app_nil_r, <- Hs.
  now rewrite fetched_nil.
Qed.

Lemma fetches_seq out m1 m2 n1 n2 :
  fetches out m1 n1 -> fetches out m2 n2 ->
  fetches out (fun acc => acc' <- m1 acc ;; m2 acc') (n1 ++ n2).
Proof.
  intros H1 H2 acc w responses rest Hs Hl Ho.
  rewrite length_app in Hl.
  pose (r1 := firstn (length n1) responses).
  pose (r2 := skipn (length n1) responses).
  assert (Hr : responses = r1 ++ r2) by (symmetry; apply firstn_skipn).
  assert (Hl1 : length r1 = length n1) by (subst r1; rewrite length_firstn; lia).
  assert (Hl2 : length r2 = length n2) by (subst r2; rewrite length_skipn; lia).
  rewrite Hr in *. rewrite <- app_assoc in Hs.
  rewrite combine_app_same in * by now symmetry.
  rewrite saved_app in *. unfold opens in Ho. apply Forall_app in Ho as [Ho1 Ho2].
  unfold bind. rewrite (H1 acc w r1 (r2 ++ rest) Hs Hl1 Ho1).
  rewrite (H2 _ (fetched out (combine n1 r1) (r2 ++ rest) w) r2 rest eq_refl Hl2 Ho2).
  now rewrite fetched_app, app_assoc.
Qed.

Lemma fetches_ext out m1 m2 names :
  (forall acc w, m1 acc w = m2 acc w) -> fetches out m1 names -> fetches out m2 names.
Proof. intros E H acc w responses rest Hs Hl Ho. rewrite <- E. now apply H. Qed.

Lemma fetches_foldM {A} out (f : list string -> A -> M (list string))
    (names : A -> list string) (l : list A) :
  Forall (fun x => fetches out (fun acc => f acc x) (names x)) l ->
  fetches out (foldM f l) (flat_map names l).
Proof.
  induction 1 as [| x l Hx Hl IH]; simpl.
  - apply fetches_nil.
  - apply (fetches_seq out _ _ _ _ Hx IH).
Qed.

Lemma fetches_descriptor out image_data :
  descriptor_ok image_data = true ->
  fetches out (fun acc => download_image out acc image_data) (descriptor_names image_data).
Proof.
  intros Hok. destruct image_data as [| | | | | fields]; try discriminate.
  unfold descriptor_ok in Hok. unfold descriptor_names.
  destruct (dict_get "filename" fields) as [filename |] eqn:Hf.
  - destruct filename as [| | | s | |]; try discriminate.
    destruct (String.eqb s "") eqn:Hs.
    + eapply fetches_ext; [| apply fetches_nil].
      intros acc w. unfold download_image. run. reflexivity.
    + intros acc w [| r [| r' responses]] rest Hscr Hl Ho; try discriminate.
      simpl in Hscr. unfold saved, fetched_ok, local_path in Ho. simpl in Ho.
      unfold download_image. run.
      unfold saved, fetched, fetch_events, fetched_ok, local_path. simpl.
      destruct (status_code r =? 200); simpl.
      * inversion Ho as [| ? ? Hopen _]; subst. rewrite Hopen.
        unfold log, set_script; simpl. rewrite <- ?app_assoc, ?app_nil_r. reflexivity.
      * unfold log, set_script; simpl. rewrite <- ?app_assoc, ?app_nil_r. reflexivity.
  - eapply fetches_ext; [| apply fetches_nil].
    intros acc w. unfold download_image. run. reflexivity.
Qed.

Lemma fetches_output out entry :
  output_ok entry = true ->
  fetches out (fun acc => download_output out acc entry) (output_names entry).
Proof.
  destruct entry as [kind data]. unfold output_ok, output_names, download_output. simpl.
  destruct (String.eqb kind "images"); [| intros _; apply fetches_nil].
  destruct data as [| | | | descriptors |]; try discriminate.
  intros Hok. eapply fetches_ext; [| apply (fetches_foldM out (download_image out))].
  - intros acc w. reflexivity.
  - apply Forall_forall. intros d Hd. apply fetches_descriptor.
    rewrite forallb_forall in Hok. apply Hok. now apply list_elem_of_In.
Qed.

Lemma fetches_node out entry :
  node_ok entry = true ->
  fetches out (fun acc => download_node out acc entry) (node_names entry).
Proof.
  destruct entry as [node_id node_output]. unfold node_ok, node_names, download_node. simpl.
  destruct node_output as [| | | | | kinds]; try discriminate.
  intros Hok. eapply fetches_ext; [| apply (fetches_foldM out (download_output out))].
  - intros acc w. reflexivity.
  - apply Forall_forall. intros d Hd. apply fetches_output.
    rewrite forallb_forall in Hok. apply Hok. now apply list_elem_of_In.
Qed.

Lemma get_history_known w pid r rest history record :
  script w = r :: rest ->
  status_code r = 200 ->
  json_body r = Some (JDict history) ->
  dict_get pid history = Some record ->
  get_history pid w
  = (Ret record,
     set_history_data (JDict history)
       (set_script rest (log (EGet (server_address w +:+ "/history")) w))).
Proof.
  intros Hs Hst Hj Hk. apply Z.eqb_eq in Hst.
  unfold get_history. run. reflexivity.
Qed.

Lemma get_history_missing w pid r rest history :
  script w = r :: rest ->
  status_code r = 200 ->
  json_body r = Some (JDict history) ->
  dict_get pid history = None ->
  get_history pid w
  = (Ret (JDict []),
     log (EPrint (MsgNoHistory pid))
       (set_history_data (JDict history)
          (set_script rest (log (EGet (server_address w +:+ "/history")) w)))).
Proof.
  intros Hs Hst Hj Hk. apply Z.eqb_eq in Hst.
  unfold get_history. run. reflexivity.
Qed.

Lemma writes_app t1 t2 : writes (t1 ++ t2) = writes t1 ++ writes t2.
Proof. unfold writes. apply flat_map_app. Qed.

Lemma writes_fetch_events address out pairs :
  writes (flat_map (fetch_events address out) pairs) = saved_files out pairs.
Proof.
  unfold saved_files. induction pairs as [| p pairs IH]; [reflexivity |].
  simpl. rewrite writes_app, IH. unfold fetch_events.
  destruct (fetched_ok p); reflexivity.
Qed.

(** C5 (as amended).  Let the history request be answered 200 with a
    collection.  For a record with outputs, [download_images] requests
    the files with a non-empty name under "images" in the order of the
    record; where the file system makes the directory and opens the
    files, it writes the body of every answer with status 200 to
    [os.path.join(output_dir, basename(filename))], passes over every
    other answer, and returns the paths written, in that order.  For a
    record without "outputs", and for a job the history does not have, it
    prints a warning and returns the empty list. *)
Theorem download_images_saves (w : world) (prompt_id output_dir : string)
    (r : response) (others : list response) (history : list (string * json)) :
  script w = r :: others ->
  status_code r = 200 ->
  json_body r = Some (JDict history) ->
  (forall record responses rest,
     dict_get prompt_id history = Some record ->
     record_ok record = true ->
     others = responses ++ rest ->
     length responses = length (image_names record) ->
     let pairs := combine (image_names record) responses in
     makedirs_error w output_dir = None ->
     opens w (saved output_dir pairs) ->
     exists w',
       download_images prompt_id output_dir w = (Ret (saved output_dir pairs), w')
       /\ script w' = rest
       /\ writes (trace w') = writes (trace w) ++ saved_files output_dir pairs)
  /\ (forall fields,
        dict_get prompt_id history = Some (JDict fields) ->
        dict_get "outputs" fields = None ->
        exists w',
          download_images prompt_id output_dir w = (Ret [], w')
          /\ script w' = others
          /\ trace w' = trace w ++ [EGet (server_address w +:+ "/history");
                                    EPrint (MsgNoOutputs prompt_id)])
  /\ (dict_get prompt_id history = None ->
      exists w',
        download_images prompt_id output_dir w = (Ret [], w')
        /\ script w' = others
        /\ trace w' = trace w ++ [EGet (server_address w +:+ "/history");
                                  EPrint (MsgNoHistory prompt_id);
                                  EPrint (MsgNoOutputs prompt_id)]).
Proof.
  intros Hs Hst Hj. split; [| split].
  - intros record responses rest Hk Hok -> Hl pairs Hmk Hopen.
    unfold download_images, bind at 1.
    rewrite (get_history_known w prompt_id r _ history record Hs Hst Hj Hk).
    destruct record as [| | | | | fields]; try discriminate.
    unfold record_ok in Hok. subst pairs. unfold image_names in *.
    destruct (dict_get "outputs" fields) as [outputs |] eqn:Ho; [| discriminate].
    destruct outputs as [| | | | | nodes]; try discriminate.
    assert (Ht : truthy (JDict fields) = true)
      by (destruct fields; [discriminate Ho | reflexivity]).
    simpl in Ht.
    set (w1 := set_history_data _ _).
    assert (Hmk1 : makedirs_error w1 output_dir = None) by exact Hmk.
    assert (Hf : fetches output_dir (foldM (download_node output_dir) nodes)
                   (flat_map node_names nodes)).
    { apply fetches_foldM, Forall_forall. intros d Hd. apply fetches_node.
      rewrite forallb_forall in Hok. apply Hok. now apply list_elem_of_In. }
    specialize (Hf [] (log (EMakedirs output_dir) w1) responses rest eq_refl Hl Hopen).
    simpl in Hf.
    eexists. split; [| split].
    + run. reflexivity.
    + reflexivity.
    + simpl. rewrite !writes_app, writes_fetch_events. simpl.
      now rewrite !app_nil_r.
  - intros fields Hk Ho.
    unfold download_images, bind at 1.
    rewrite (get_history_known w prompt_id r _ history _ Hs Hst Hj Hk).
    eexists. split; [| split].
    + destruct fields as [| field fields]; [reflexivity |].
      remember (field :: fields) as fs eqn:Hfs.
      assert (Ht : truthy (JDict fs) = true) by now subst.
      simpl in Ht. clear Hfs. run. reflexivity.
    + reflexivity.
    + simpl. now rewrite <- app_assoc.
  - intros Hk.
    unfold download_images, bind at 1.
    rewrite (get_history_missing w prompt_id r _ history Hs Hst Hj Hk).
    eexists. split; [| split].
    + run. reflexivity.
    + reflexivity.
    + simpl. now rewrite <- !app_assoc.
Qed.

Lemma download_images_saves_witness :
  exists w',
    download_images "p42" "output/test"
      (init_world "http://127.0.0.1:8188"
         [ok_response (JDict p42_history); png "PNG 1"; png "PNG 2"])
    = (Ret ["output/test/img_0001_.png"; "output/test/img_0002_.png"], w')
    /\ script w' = []
    /\ writes (trace w') = [("output/test/img_0001_.png", "PNG 1");
                            ("output/test/img_0002_.png", "PNG 2")].
Proof.
  apply (proj1 (download_images_saves
                  (init_world "http://127.0.0.1:8188"
                     [ok_response (JDict p42_history); png "PNG 1"; png "PNG 2"])
                  "p42" "output/test" (ok_response (JDict p42_history))
                  [png "PNG 1"; png "PNG 2"] p42_history eq_refl eq_refl eq_refl)
           _ [png "PNG 1"; png "PNG 2"] [] eq_refl eq_refl eq_refl eq_refl eq_refl).
  repeat constructor.
Defined.

(** C5, counterexample.  The request for the one image of the record is
    answered 203, a status of the 2xx range, with the bytes of the image;
    no file is written and the list returned is empty. *)
Lemma download_images_203_not_saved :
  let view := {| status_code := 203; content := "PNG 1"; json_body := None |} in
  let history :=
    [("p42", JDict [("outputs",
                     JDict [("9", JDict [("images",
                                          JList [JDict [("filename",
                                                         JStr "img_0001_.png")]])])])])] in
  let result :=
    download_images "p42" "output/test"
      (init_world "http://127.0.0.1:8188" [ok_response (JDict history); view]) in
  status_2xx view
  /\ fst result = Ret []
  /\ writes (trace (snd result)) = [].
Proof. unfold status_2xx. simpl. split; [lia | split; reflexivity]. Qed.

(** ** More on [update_node_input] *)

(** The three ways a call of [update_node_input] ends: an exception
    before anything is changed, a warning, or the update of one dict at a
    key it has. *)
Lemma update_node_input_cases w workflow node_id input_name new_value :
  (exists e, update_node_input workflow node_id input_name new_value w = (Raise e, w))
  \/ (update_node_input workflow node_id input_name new_value w
      = (Ret workflow, log (EPrint (MsgNoNode node_id)) w))
  \/ (update_node_input workflow node_id input_name new_value w
      = (Ret workflow, log (EPrint (MsgNoInput node_id input_name)) w))
  \/ (exists node li ins,
        store_getitem (heap w) workflow node_id = inr node
        /\ store_getitem (heap w) node "inputs" = inr (PRef li)
        /\ heap w !! li = Some (PDict ins)
        /\ dict_has input_name ins = true
        /\ update_node_input workflow node_id input_name new_value w
           = (Ret workflow,
              log (EPrint (MsgUpdated node_id input_name))
                (set_heap (<[li := PDict (dict_set input_name new_value ins)]> (heap w)) w))).
Proof.
  destruct (store_contains (heap w) node_id workflow) as [e | [|]] eqn:Hc;
    [left; exists e; unfold update_node_input; run; reflexivity
    | | right; left; unfold update_node_input; run; reflexivity].
  destruct (store_getitem (heap w) workflow node_id) as [e | node] eqn:Hn;
    [left; exists e; unfold update_node_input; run; reflexivity |].
  destruct (store_getitem (heap w) node "inputs") as [e | inputs] eqn:Hi;
    [left; exists e; unfold update_node_input; run; reflexivity |].
  destruct (store_contains (heap w) input_name inputs) as [e | [|]] eqn:Hf;
    [left; exists e; unfold update_node_input; run; reflexivity
    | | right; right; left; unfold update_node_input; run; reflexivity].
  destruct (store_setitem (heap w) inputs input_name new_value) as [e | h'] eqn:Hset;
    [left; exists e; unfold update_node_input; run; reflexivity |].
  right. right. right.
  destruct inputs as [| | | | li]; try discriminate.
  simpl in Hf, Hset.
  destruct (heap w !! li) as [[items | ins] |] eqn:Hli; try discriminate.
  injection Hf as Hf. injection Hset as <-.
  exists node, li, ins. repeat split; try assumption.
  unfold update_node_input. run. unfold store_setitem. run. reflexivity.
Qed.

Lemma dict_set_set {V : Type} (k : string) (v1 v2 : V) (d : list (string * V)) :
  dict_set k v2 (dict_set k v1 d) = dict_set k v2 d.
Proof.
  induction d as [| [k' v'] d IH]; simpl.
  - now rewrite String.eqb_refl.
  - destruct (String.eqb k k') eqn:E; simpl; rewrite E; [reflexivity | now rewrite IH].
Qed.

Lemma dict_set_swap {V : Type} (k1 k2 : string) (v1 v2 : V) (d : list (string * V)) :
  k1 <> k2 -> dict_has k1 d = true -> dict_has k2 d = true ->
  dict_set k1 v1 (dict_set k2 v2 d) = dict_set k2 v2 (dict_set k1 v1 d).
Proof.
  intros Hne. unfold dict_has.
  induction d as [| [k v] d IH]; simpl; [discriminate |].
  destruct (String.eqb k1 k) eqn:E1, (String.eqb k2 k) eqn:E2; simpl;
    rewrite ?E1, ?E2; intros H1 H2; try reflexivity.
  - apply String.eqb_eq in E1, E2. congruence.
  - now rewrite IH.
Qed.

Lemma dict_has_set_other {V : Type} (k k' : string) (v : V) (d : list (string * V)) :
  k' <> k -> dict_has k' (dict_set k v d) = dict_has k' d.
Proof. intros H. unfold dict_has. now rewrite dict_get_set_other. Qed.

Lemma dict_has_set_same {V : Type} (k : string) (v : V) (d : list (string * V)) :
  dict_has k (dict_set k v d) = true.
Proof. unfold dict_has. now rewrite dict_get_set_same. Qed.

(** X1.  [update_node_input] changes all or nothing: when it raises, the
    world is exactly as before the call; when it returns, it returns the
    very graph object it was given, and the store has the same number of
    objects, the script and the history cache being untouched. *)
Theorem update_node_input_all_or_nothing (w : world) (workflow : pyval)
    (node_id input_name : string) (new_value : pyval) :
  match update_node_input workflow node_id input_name new_value w with
  | (Ret g, w') =>
      g = workflow
      /\ length (heap w') = length (heap w)
      /\ script w' = script w
      /\ history_data w' = history_data w
  | (Raise e, w') => w' = w
  | (Blocked, _) => False
  end.
Proof.
  destruct (update_node_input_cases w workflow node_id input_name new_value)
    as [(e & ->) | [-> | [-> | (node & li & ins & _ & _ & _ & _ & ->)]]];
    try (repeat split; reflexivity).
  simpl. rewrite length_insert. repeat split.
Qed.

(** X2.  [update_node_input] never adds a node or a field and never
    removes one: after the call every place of the store holds the same
    list, or a dict with the same keys in the same order, as before. *)
Theorem update_node_input_keeps_keys (w : world) (workflow : pyval)
    (node_id input_name : string) (new_value : pyval) (l : nat) :
  same_shape (heap w !! l)
    (heap (snd (update_node_input workflow node_id input_name new_value w)) !! l).
Proof.
  assert (Hrefl : forall o, same_shape o o) by (intros [[a | d] |]; reflexivity).
  destruct (update_node_input_cases w workflow node_id input_name new_value)
    as [(e & ->) | [-> | [-> | (node & li & ins & _ & _ & Hli & Hhas & ->)]]];
    try apply Hrefl.
  simpl. destruct (decide (li = l)) as [<- | Hne].
  - rewrite list_lookup_insert_eq by (apply lookup_lt_Some in Hli; exact Hli).
    rewrite Hli. simpl. symmetry. now apply dict_set_keys.
  - rewrite list_lookup_insert_ne by assumption. apply Hrefl.
Qed.

(** The update, when the node and the field are there, for any store. *)
Lemma update_node_input_at w workflow node node_id input_name new_value li ins :
  store_getitem (heap w) workflow node_id = inr node ->
  store_getitem (heap w) node "inputs" = inr (PRef li) ->
  heap w !! li = Some (PDict ins) ->
  dict_has input_name ins = true ->
  update_node_input workflow node_id input_name new_value w
  = (Ret workflow,
     log (EPrint (MsgUpdated node_id input_name))
       (set_heap (<[li := PDict (dict_set input_name new_value ins)]> (heap w)) w)).
Proof.
  intros Hn Hi Hli Hhas.
  assert (Hc : store_contains (heap w) node_id workflow = inr true).
  { destruct workflow as [| | | | lw]; try discriminate. simpl in *.
    destruct (heap w !! lw) as [[a | d] |]; try discriminate.
    unfold dict_has. destruct (dict_get node_id d); [reflexivity | discriminate]. }
  assert (Hf : store_contains (heap w) input_name (PRef li) = inr true)
    by (simpl; now rewrite Hli, Hhas).
  assert (Hset : store_setitem (heap w) (PRef li) input_name new_value
                 = inr (<[li := PDict (dict_set input_name new_value ins)]> (heap w)))
    by (simpl; now rewrite Hli).
  unfold update_node_input. run. reflexivity.
Qed.

(** Reading through a reference other than the one updated. *)
Lemma store_getitem_insert_ne h x k li o :
  x <> PRef li -> store_getitem (<[li := o]> h) x k = store_getitem h x k.
Proof.
  intros Hx. destruct x as [| | | | l]; try reflexivity.
  simpl. rewrite list_lookup_insert_ne by congruence. reflexivity.
Qed.

(** X3.  When the node and the field are there, exactly one object of the
    store changes, the dict of the node's inputs, and only at the field:
    the new value is read back through every reference to that dict, the
    other fields of the dict and all other objects are as before, also
    when objects of the graph are shared. *)
Theorem update_node_input_one_object (w : world) (workflow node : pyval)
    (node_id input_name : string) (new_value : pyval) (li : nat)
    (ins : list (string * pyval)) :
  store_getitem (heap w) workflow node_id = inr node ->
  store_getitem (heap w) node "inputs" = inr (PRef li) ->
  heap w !! li = Some (PDict ins) ->
  dict_has input_name ins = true ->
  exists w' ins',
    update_node_input workflow node_id input_name new_value w = (Ret workflow, w')
    /\ heap w' !! li = Some (PDict ins')
    /\ getitem (PRef li) input_name w' = (Ret new_value, w')
    /\ (forall k, k <> input_name -> dict_get k ins' = dict_get k ins)
    /\ (forall l, l <> li -> heap w' !! l = heap w !! l).
Proof.
  intros Hn Hi Hli Hhas.
  assert (Hlt : (li < length (heap w))%nat) by (apply lookup_lt_Some in Hli; exact Hli).
  eexists _, _. split.
  { exact (update_node_input_at w workflow node node_id input_name new_value li ins
             Hn Hi Hli Hhas). }
  simpl. split; [now apply list_lookup_insert_eq |].
  split.
  - unfold getitem. simpl. rewrite list_lookup_insert_eq by assumption.
    now rewrite dict_get_set_same.
  - split.
    + intros k Hk. now apply dict_get_set_other.
    + intros l Hl. now apply list_lookup_insert_ne.
Qed.

Lemma update_node_input_one_object_witness :
  let g := fst (loaded (JDict flux_graph)) in
  let w := snd (loaded (JDict flux_graph)) in
  exists w' ins',
    update_node_input g "32" "text" (PStr "a small star") w = (Ret g, w')
    /\ heap w' !! 4%nat = Some (PDict ins')
    /\ getitem (PRef 4) "text" w' = (Ret (PStr "a small star"), w')
    /\ (forall k, k <> "text"
                  -> dict_get k ins' = dict_get k [("clip", PRef 3); ("text", PStr "a photo")])
    /\ (forall l, l <> 4%nat -> heap w' !! l = heap w !! l).
Proof.
  intros g w.
  exact (update_node_input_one_object w g (PRef 5) "32" "text" (PStr "a small star") 4
           [("clip", PRef 3); ("text", PStr "a photo")] eq_refl eq_refl eq_refl eq_refl).
Defined.

(** X4.  The last write wins: two calls for the same field, one after the
    other, leave the store as the second call alone would (the dict of
    the inputs being neither the graph nor the node record). *)
Theorem update_node_input_twice (w : world) (workflow node : pyval)
    (node_id input_name : string) (first second : pyval) (li : nat)
    (ins : list (string * pyval)) :
  store_getitem (heap w) workflow node_id = inr node ->
  store_getitem (heap w) node "inputs" = inr (PRef li) ->
  heap w !! li = Some (PDict ins) ->
  dict_has input_name ins = true ->
  workflow <> PRef li ->
  node <> PRef li ->
  exists w2,
    (g <- update_node_input workflow node_id input_name first ;;
     update_node_input g node_id input_name second) w = (Ret workflow, w2)
    /\ heap w2 = heap (snd (update_node_input workflow node_id input_name second w)).
Proof.
  intros Hn Hi Hli Hhas Hw Hnode.
  assert (Hlt : (li < length (heap w))%nat) by (apply lookup_lt_Some in Hli; exact Hli).
  unfold bind.
  rewrite (update_node_input_at w workflow node node_id input_name first li ins
             Hn Hi Hli Hhas).
  rewrite (update_node_input_at w workflow node node_id input_name second li ins
             Hn Hi Hli Hhas).
  set (w1 := log _ (set_heap _ w)).
  assert (E := update_node_input_at w1 workflow node node_id input_name second li
                 (dict_set input_name first ins)).
  simpl in E. rewrite !store_getitem_insert_ne in E by assumption.
  rewrite list_lookup_insert_eq in E by assumption.
  rewrite dict_has_set_same in E. specialize (E Hn Hi eq_refl eq_refl).
  rewrite E. eexists. split; [reflexivity |]. simpl.
  now rewrite list_insert_insert_eq, dict_set_set.
Qed.

Lemma update_node_input_twice_witness :
  let g := fst (loaded (JDict flux_graph)) in
  let w := snd (loaded (JDict flux_graph)) in
  exists w2,
    (g' <- update_node_input g "32" "text" (PStr "a brave rabbit") ;;
     update_node_input g' "32" "text" (PStr "a small star")) w = (Ret g, w2)
    /\ heap w2 = heap (snd (update_node_input g "32" "text" (PStr "a small star") w)).
Proof.
  intros g w.
  apply (update_node_input_twice w g (PRef 5) "32" "text" (PStr "a brave rabbit")
           (PStr "a small star") 4 [("clip", PRef 3); ("text", PStr "a photo")]);
    try reflexivity; discriminate.
Defined.

(** X5.  Updates of two different fields of one node commute: the store
    after the two calls does not depend on their order. *)
Theorem update_node_input_commute (w : world) (workflow node : pyval)
    (node_id field1 field2 : string) (value1 value2 : pyval) (li : nat)
    (ins : list (string * pyval)) :
  store_getitem (heap w) workflow node_id = inr node ->
  store_getitem (heap w) node "inputs" = inr (PRef li) ->
  heap w !! li = Some (PDict ins) ->
  dict_has field1 ins = true ->
  dict_has field2 ins = true ->
  field1 <> field2 ->
  workflow <> PRef li ->
  node <> PRef li ->
  exists w12 w21,
    (g <- update_node_input workflow node_id field1 value1 ;;
     update_node_input g node_id field2 value2) w = (Ret workflow, w12)
    /\ (g <- update_node_input workflow node_id field2 value2 ;;
        update_node_input g node_id field1 value1) w = (Ret workflow, w21)
    /\ heap w12 = heap w21.
Proof.
  intros Hn Hi Hli H1 H2 Hne Hw Hnode.
  assert (Hlt : (li < length (heap w))%nat) by (apply lookup_lt_Some in Hli; exact Hli).
  assert (Hstep : forall fa fb va vb,
             dict_has fa ins = true -> dict_has fb ins = true -> fa <> fb ->
             (g <- update_node_input workflow node_id fa va ;;
              update_node_input g node_id fb vb) w
             = (Ret workflow,
                log (EPrint (MsgUpdated node_id fb))
                  (set_heap (<[li := PDict (dict_set fb vb (dict_set fa va ins))]> (heap w))
                     (log (EPrint (MsgUpdated node_id fa)) w)))).
  { intros fa fb va vb Ha Hb Hab. unfold bind.
    rewrite (update_node_input_at w workflow node node_id fa va li ins Hn Hi Hli Ha).
    set (w1 := log _ (set_heap _ w)).
    assert (E := update_node_input_at w1 workflow node node_id fb vb li
                   (dict_set fa va ins)).
    simpl in E. rewrite !store_getitem_insert_ne in E by assumption.
    rewrite list_lookup_insert_eq in E by assumption.
    rewrite dict_has_set_other in E by congruence.
    specialize (E Hn Hi eq_refl Hb). rewrite E. simpl.
    now rewrite list_insert_insert_eq. }
  eexists _, _. split; [apply (Hstep field1 field2); assumption |].
  split; [apply (Hstep field2 field1); congruence |].
  simpl. f_equal. f_equal. now apply dict_set_swap.
Qed.

Lemma update_node_input_commute_witness :
  let g := fst (loaded (JDict flux_graph)) in
  let w := snd (loaded (JDict flux_graph)) in
  exists w12 w21,
    (g' <- update_node_input g "6" "seed" (PInt 7) ;;
     update_node_input g' "6" "positive" PNone) w = (Ret g, w12)
    /\ (g' <- update_node_input g "6" "positive" PNone ;;
        update_node_input g' "6" "seed" (PInt 7)) w = (Ret g, w21)
    /\ heap w12 = heap w21.
Proof.
  intros g w.
  apply (update_node_input_commute w g (PRef 2) "6" "seed" "positive" (PInt 7) PNone 1
           [("seed", PInt 42); ("positive", PRef 0)]);
    try reflexivity; discriminate.
Defined.

(** ** More on the copies of the main program *)

(** Where the objects on the way to a field of a loaded graph are: the
    dict of the inputs before the node record, the node record before
    the graph. *)
Lemma loaded_graph_places base nodes fields ins node_id g ext :
  dict_get node_id nodes = Some (JDict fields) ->
  dict_get "inputs" fields = Some (JDict ins) ->
  load_at base (JDict nodes) = (g, ext) ->
  exists lw nodevals ln fieldvals li,
    g = PRef lw
    /\ (base <= li < ln)%nat /\ (ln < lw < base + length ext)%nat
    /\ dict_get node_id nodevals = Some (PRef ln)
    /\ dict_get "inputs" fieldvals = Some (PRef li)
    /\ forall h,
         agrees h base ext ->
         h !! lw = Some (PDict nodevals) /\ h !! ln = Some (PDict fieldvals).
Proof.
  intros Hnode Hin HG.
  rewrite load_at_dict in HG.
  destruct (load_fields base nodes) as [nodevals extN] eqn:HN.
  injection HG as <- <-.
  destruct (load_fields_child nodes _ _ _ node_id _ HN Hnode)
    as (preN & vn & en & postN & -> & Hvn & Hgn & _).
  rewrite load_at_dict in Hvn.
  destruct (load_fields (base + length preN) fields) as [fieldvals extF] eqn:HF.
  injection Hvn as <- <-.
  destruct (load_fields_child fields _ _ _ "inputs" _ HF Hin)
    as (preF & vi & ei & postF & -> & Hvi & Hgi & _).
  rewrite load_at_dict in Hvi.
  destruct (load_fields (base + length preN + length preF) ins) as [insvals extI] eqn:HI.
  injection Hvi as <- <-.
  eexists _, nodevals,
    (base + length preN + length (preF ++ (extI ++ [PDict insvals]) ++ postF))%nat,
    fieldvals, (base + length preN + length preF + length extI)%nat.
  split; [reflexivity |].
  split; [rewrite !length_app; simpl; lia |].
  split; [rewrite !length_app; simpl; lia |].
  split; [exact Hgn |]. split; [exact Hgi |].
  intros h Hag.
  apply agrees_app in Hag as [Hag Hw]. apply agrees_one in Hw.
  apply agrees_app in Hag as [_ Hag].
  apply agrees_app in Hag as [Hag _].
  apply agrees_app in Hag as [_ Hn]. apply agrees_one in Hn.
  split; assumption.
Qed.

(** The facts of [loaded_graph_update] and [loaded_graph_places] about
    one loaded graph, together. *)
Lemma loaded_graph_target base nodes fields ins node_id input_name g ext :
  dict_get node_id nodes = Some (JDict fields) ->
  dict_get "inputs" fields = Some (JDict ins) ->
  dict_has input_name ins = true ->
  load_at base (JDict nodes) = (g, ext) ->
  exists lw nodevals ln fieldvals li insvals,
    g = PRef lw
    /\ (base <= li < ln)%nat /\ (ln < lw < base + length ext)%nat
    /\ dict_get node_id nodevals = Some (PRef ln)
    /\ dict_get "inputs" fieldvals = Some (PRef li)
    /\ dict_has input_name insvals = true
    /\ forall h,
         agrees h base ext ->
         h !! lw = Some (PDict nodevals)
         /\ h !! ln = Some (PDict fieldvals)
         /\ h !! li = Some (PDict insvals)
         /\ forall value v,
              let h' := <[li := PDict (dict_set input_name v insvals)]> h in
              denotes h' value v = true ->
              denotes h' (set_field nodes fields ins node_id input_name value) g = true.
Proof.
  intros Hnode Hin Hfield HG.
  destruct (loaded_graph_places _ _ _ _ _ _ _ Hnode Hin HG)
    as (lw & nodevals & ln & fieldvals & li & -> & Hli & Hln & Hgn & Hgi & Hplaces).
  destruct (loaded_graph_update _ _ _ _ _ _ _ _ Hnode Hin Hfield HG)
    as (lw' & nodevals' & node' & fieldvals' & li' & insvals
        & [= <-] & _ & _ & Hgn' & Hgi' & Hhas & Hstore).
  pose (h0 := repeat (PList []) base ++ ext).
  assert (H0 : agrees h0 base ext).
  { subst h0. rewrite <- (app_nil_r ext) at 1.
    replace base with (length (repeat (PList []) base)) at 2 by apply repeat_length.
    apply agrees_self. }
  destruct (Hplaces h0 H0) as (Hw0 & Hn0).
  destruct (Hstore h0 H0) as (Hw0' & (ln' & -> & Hn0') & _).
  rewrite Hw0 in Hw0'. injection Hw0' as <-.
  rewrite Hgn in Hgn'. injection Hgn' as <-.
  rewrite Hn0 in Hn0'. injection Hn0' as <-.
  rewrite Hgi in Hgi'. injection Hgi' as <-.
  exists lw, nodevals, ln, fieldvals, li, insvals.
  repeat (split; [assumption || reflexivity |]).
  intros h Hag.
  destruct (Hplaces h Hag) as (Hw & Hn).
  destruct (Hstore h Hag) as (_ & _ & Hi & Hden).
  repeat (split; [assumption |]). exact Hden.
Qed.

(** X6.  Two jobs on one loaded graph, as the main program runs them:
    each job gets a new top-level dict, and the graph of the second job
    reads as the loaded document with the field set to the value of the
    second job, the value of the first job having been overwritten.  The
    graph of the first job and the loaded graph read the same, for the
    three share the node records. *)
Theorem second_job_has_its_own_value (w : world)
    (nodes fields ins : list (string * json)) (node_id input_name : string)
    (value1 value2 : json) :
  dict_get node_id nodes = Some (JDict fields) ->
  dict_get "inputs" fields = Some (JDict ins) ->
  dict_has input_name ins = true ->
  exists workflow job1 job2 w',
    (workflow <- json_load (JDict nodes) ;;
     description1 <- json_load value1 ;;
     description2 <- json_load value2 ;;
     job1 <- copy_and_update workflow node_id input_name description1 ;;
     job2 <- copy_and_update workflow node_id input_name description2 ;;
     ret (workflow, job1, job2)) w
    = (Ret (workflow, job1, job2), w')
    /\ job1 <> workflow /\ job2 <> workflow /\ job2 <> job1
    /\ denotes (heap w') (set_field nodes fields ins node_id input_name value2) job2 = true
    /\ denotes (heap w') (set_field nodes fields ins node_id input_name value2) job1 = true
    /\ denotes (heap w') (set_field nodes fields ins node_id input_name value2) workflow
       = true.
Proof.
  intros Hnode Hin Hfield.
  unfold bind at 1, json_load at 1.
  destruct (load_at (length (heap w)) (JDict nodes)) as [g extG] eqn:HG.
  unfold bind at 1, json_load at 1. cbn [heap set_heap].
  destruct (load_at (length (heap w ++ extG)) value1) as [v1 extV1] eqn:HV1.
  unfold bind at 1, json_load at 1. cbn [heap set_heap].
  destruct (load_at (length ((heap w ++ extG) ++ extV1)) value2) as [v2 extV2] eqn:HV2.
  destruct (loaded_graph_target _ _ _ _ _ _ _ _ Hnode Hin Hfield HG)
    as (lw & nodevals & ln & fieldvals & li & insvals
        & -> & Hli & Hln & Hgn & Hgi & Hhas & Hstore).
  set (h2 := ((heap w ++ extG) ++ extV1) ++ extV2).
  set (N := PDict nodevals).
  assert (Hlen : (length (heap w) + length extG <= length h2)%nat)
    by (subst h2; rewrite !length_app; lia).
  assert (Hag2 : agrees h2 (length (heap w)) extG).
  { subst h2. rewrite <- !app_assoc. apply agrees_self. }
  assert (Hag3 : agrees (h2 ++ [N]) (length (heap w)) extG).
  { subst h2. rewrite <- !app_assoc. apply agrees_self. }
  assert (Hag4 : agrees ((h2 ++ [N]) ++ [N]) (length (heap w)) extG).
  { subst h2. rewrite <- !app_assoc. apply agrees_self. }
  destruct (Hstore h2 Hag2) as (Hw2 & _ & _ & _).
  destruct (Hstore (h2 ++ [N]) Hag3) as (Hw3 & Hn3 & Hi3 & _).
  destruct (Hstore ((h2 ++ [N]) ++ [N]) Hag4) as (Hw4 & Hn4 & Hi4 & Hden).
  (* the first job *)
  match goal with |- context [set_heap h2 ?x] => set (w2 := set_heap h2 x) end.
  unfold bind at 1, copy_and_update at 1, bind at 1, py_copy at 1.
  change (heap w2) with h2. rewrite Hw2. fold N.
  set (w3 := set_heap (h2 ++ [N]) w2).
  assert (E1 := update_node_input_at w3 (PRef (length h2)) (PRef ln) node_id input_name
                  v1 li insvals).
  simpl in E1. rewrite list_lookup_middle in E1 by reflexivity.
  unfold N in E1 at 1. simpl in E1.
  rewrite Hgn, Hn3, Hgi, Hi3 in E1. specialize (E1 eq_refl eq_refl eq_refl Hhas).
  rewrite E1. clear E1.
  set (D1 := PDict (dict_set input_name v1 insvals)).
  (* the second job *)
  set (w4 := log _ (set_heap (<[li := D1]> (h2 ++ [N])) w3)).
  unfold bind at 1, copy_and_update at 1, bind at 1, py_copy at 1.
  change (heap w4) with (<[li := D1]> (h2 ++ [N])).
  rewrite list_lookup_insert_ne by lia. rewrite Hw3.
  rewrite length_insert. fold N.
  set (w5 := set_heap (<[li := D1]> (h2 ++ [N]) ++ [N]) w4).
  assert (Hrewrite : <[li := D1]> (h2 ++ [N]) ++ [N] = <[li := D1]> ((h2 ++ [N]) ++ [N])).
  { symmetry. apply insert_app_l. rewrite length_app. simpl. lia. }
  assert (Hlt : (li < length ((h2 ++ [N]) ++ [N]))%nat)
    by (rewrite !length_app; simpl; lia).
  assert (E2 := update_node_input_at w5 (PRef (length (h2 ++ [N]))) (PRef ln)
                  node_id input_name v2 li (dict_set input_name v1 insvals)).
  simpl in E2. rewrite Hrewrite in E2.
  rewrite !list_lookup_insert_ne in E2 by (rewrite ?length_app; simpl; lia).
  rewrite list_lookup_insert_eq in E2 by assumption.
  rewrite list_lookup_middle in E2 by reflexivity.
  unfold N in E2 at 1. simpl in E2.
  rewrite Hgn, Hn4, Hgi, dict_has_set_same in E2.
  specialize (E2 eq_refl eq_refl eq_refl eq_refl).
  rewrite list_insert_insert_eq, dict_set_set in E2.
  unfold bind. rewrite E2. clear E2.
  eexists _, _, _, _. split; [reflexivity |].
  split; [intros [= E]; lia |].
  split; [intros [= E]; rewrite length_app in E; simpl in E; lia |].
  split; [intros [= E]; rewrite length_app in E; simpl in E; lia |].
  cbn [heap log set_heap].
  set (h5 := <[li := PDict (dict_set input_name v2 insvals)]> ((h2 ++ [N]) ++ [N])).
  assert (Hbase : denotes h5 (set_field nodes fields ins node_id input_name value2)
                    (PRef lw) = true).
  { apply Hden. apply (load_at_denotes _ _ _ _ _ HV2), agrees_insert.
    - subst h2. rewrite <- (app_assoc _ [N] [N]), <- (app_assoc _ extV2).
      apply agrees_self.
    - left. rewrite !length_app. lia. }
  unfold set_field in *. rewrite denotes_dict_eq in Hbase.
  subst h5. rewrite list_lookup_insert_ne in Hbase by lia. rewrite Hw4 in Hbase.
  rewrite !denotes_dict_eq.
  rewrite !list_lookup_insert_ne by (rewrite ?length_app; simpl; lia).
  rewrite Hw4, list_lookup_middle by reflexivity.
  rewrite lookup_app_l by (rewrite !length_app; simpl; lia).
  rewrite list_lookup_middle by reflexivity.
  repeat split; exact Hbase.
Qed.

Lemma second_job_has_its_own_value_witness :
  let nodes := [("32", JDict [("inputs", JDict [("text", JStr "a photo")])])] in
  exists workflow job1 job2 w',
    (workflow <- json_load (JDict nodes) ;;
     description1 <- json_load (JStr "a brave rabbit") ;;
     description2 <- json_load (JStr "a small star") ;;
     job1 <- copy_and_update workflow "32" "text" description1 ;;
     job2 <- copy_and_update workflow "32" "text" description2 ;;
     ret (workflow, job1, job2)) (init_world "http://127.0.0.1:8188" [])
    = (Ret (workflow, job1, job2), w')
    /\ job1 <> workflow /\ job2 <> workflow /\ job2 <> job1
    /\ denotes (heap w')
         (JDict [("32", JDict [("inputs", JDict [("text", JStr "a small star")])])]) job2
       = true
    /\ denotes (heap w')
         (JDict [("32", JDict [("inputs", JDict [("text", JStr "a small star")])])]) job1
       = true
    /\ denotes (heap w')
         (JDict [("32", JDict [("inputs", JDict [("text", JStr "a small star")])])])
         workflow = true.
Proof.
  intros nodes.
  exact (second_job_has_its_own_value (init_world "http://127.0.0.1:8188" []) nodes _ _
           "32" "text" (JStr "a brave rabbit") (JStr "a small star")
           eq_refl eq_refl eq_refl).
Defined.

(** X7.  A graph loaded a second time shares nothing with the first: an
    update of the one leaves the other reading as the document that was
    loaded. *)
Theorem loaded_again_is_independent (w : world)
    (nodes fields ins : list (string * json)) (node_id input_name : string)
    (value : json) :
  dict_get node_id nodes = Some (JDict fields) ->
  dict_get "inputs" fields = Some (JDict ins) ->
  dict_has input_name ins = true ->
  exists first second w',
    (first <- json_load (JDict nodes) ;;
     second <- json_load (JDict nodes) ;;
     new_value <- json_load value ;;
     update_node_input first node_id input_name new_value ;;
     ret (first, second)) w
    = (Ret (first, second), w')
    /\ denotes (heap w') (set_field nodes fields ins node_id input_name value) first = true
    /\ denotes (heap w') (JDict nodes) second = true.
Proof.
  intros Hnode Hin Hfield.
  unfold bind at 1, json_load at 1.
  destruct (load_at (length (heap w)) (JDict nodes)) as [g1 ext1] eqn:HG1.
  unfold bind at 1, json_load at 1. cbn [heap set_heap].
  destruct (load_at (length (heap w ++ ext1)) (JDict nodes)) as [g2 ext2] eqn:HG2.
  unfold bind at 1, json_load at 1. cbn [heap set_heap].
  destruct (load_at (length ((heap w ++ ext1) ++ ext2)) value) as [v extV] eqn:HV.
  destruct (loaded_graph_target _ _ _ _ _ _ _ _ Hnode Hin Hfield HG1)
    as (lw & nodevals & ln & fieldvals & li & insvals
        & -> & Hli & Hln & Hgn & Hgi & Hhas & Hstore).
  set (h := ((heap w ++ ext1) ++ ext2) ++ extV).
  assert (Hag : agrees h (length (heap w)) ext1).
  { subst h. rewrite <- !app_assoc. apply agrees_self. }
  destruct (Hstore h Hag) as (Hw & Hn & Hi & Hden).
  match goal with |- context [set_heap h ?x] => set (w3 := set_heap h x) end.
  assert (E := update_node_input_at w3 (PRef lw) (PRef ln) node_id input_name v li insvals).
  simpl in E. rewrite Hw, Hgn, Hn, Hgi, Hi in E.
  specialize (E eq_refl eq_refl eq_refl Hhas).
  unfold bind. rewrite E. clear E.
  eexists _, _, _. split; [reflexivity |]. cbn [heap log set_heap]. split.
  - apply Hden. apply (load_at_denotes _ _ _ _ _ HV), agrees_insert.
    + subst h. apply agrees_end.
    + left. rewrite !length_app. lia.
  - apply (load_at_denotes _ _ _ _ _ HG2), agrees_insert.
    + subst h. rewrite <- (app_assoc _ ext2 extV). apply agrees_self.
    + left. rewrite length_app. lia.
Qed.

Lemma loaded_again_is_independent_witness :
  let nodes := [("32", JDict [("inputs", JDict [("text", JStr "a photo")])])] in
  exists first second w',
    (first <- json_load (JDict nodes) ;;
     second <- json_load (JDict nodes) ;;
     new_value <- json_load (JStr "a small star") ;;
     update_node_input first "32" "text" new_value ;;
     ret (first, second)) (init_world "http://127.0.0.1:8188" [])
    = (Ret (first, second), w')
    /\ denotes (heap w')
         (JDict [("32", JDict [("inputs", JDict [("text", JStr "a small star")])])]) first
       = true
    /\ denotes (heap w') (JDict nodes) second = true.
Proof.
  intros nodes.
  exact (loaded_again_is_independent (init_world "http://127.0.0.1:8188" []) nodes _ _
           "32" "text" (JStr "a small star") eq_refl eq_refl eq_refl).
Defined.

(** ** More on [run_workflow] *)

(** X8.  Whatever the answer, [run_workflow] sends one request, the POST
    of the graph and the client id to "/prompt", and takes one answer;
    what follows in the trace are prints only, and the store and the
    history cache are not touched. *)
Theorem run_workflow_one_request (w : world) (workflow : json) (client_id : option string) :
  let w' := snd (run_workflow workflow client_id w) in
  script w' = tail (script w)
  /\ heap w' = heap w
  /\ history_data w' = history_data w
  /\ exists prints,
       trace w' = trace w ++ prompt_request w workflow client_id :: map EPrint prints.
Proof.
  destruct (script w) as [| r rest] eqn:Hs.
  - assert (E : run_workflow workflow client_id w
                = (Blocked, log (prompt_request w workflow client_id) w))
      by (unfold run_workflow; rewrite client_id_or_empty; run; reflexivity).
    rewrite E. simpl. rewrite Hs. repeat split. now exists [].
  - destruct (run_workflow_shape w workflow client_id r rest Hs)
      as [(_ & ->) | [(_ & _ & ->) | [(result & e & _ & _ & _ & ->)
                                     | (result & v & _ & _ & _ & _ & ->)]]];
      simpl; repeat split.
    + now exists [].
    + now exists [].
    + exists [MsgResponse result]. now rewrite <- app_assoc.
    + exists [MsgResponse result; MsgStarted v]. now rewrite <- !app_assoc.
Qed.

(** X9.  [run_workflow] never returns an empty identifier: a value it
    returns is true in Python's sense and comes from an answer 200.  The
    exceptions it raises are the two of its own, JSONDecodeError for a
    body that is not JSON and TypeError for a document it cannot look
    into. *)
Theorem run_workflow_outcomes (w : world) (workflow : json) (client_id : option string) :
  match run_workflow workflow client_id w with
  | (Ret v, _) =>
      truthy v = true /\ exists r, head (script w) = Some r /\ status_code r = 200
  | (Raise e, _) =>
      (exists r, head (script w) = Some r /\ status_code r <> 200
                 /\ e = SubmitFailed (status_code r) (content r))
      \/ e = JSONDecodeError
      \/ e = TypeError
      \/ (exists result, e = PromptIdNotFound result)
  | (Blocked, _) => script w = []
  end.
Proof.
  destruct (script w) as [| r rest] eqn:Hs.
  - assert (E : run_workflow workflow client_id w
                = (Blocked, log (prompt_request w workflow client_id) w))
      by (unfold run_workflow; rewrite client_id_or_empty; run; reflexivity).
    now rewrite E.
  - destruct (run_workflow_shape w workflow client_id r rest Hs)
      as [(Hst & ->) | [(_ & _ & ->) | [(result & e & _ & _ & [-> | ->] & ->)
                                       | (result & v & Hst & _ & Hv & _ & ->)]]]; simpl.
    + left. exists r. auto.
    + auto.
    + auto.
    + right. right. right. eauto.
    + split; [assumption | eauto].
Qed.

(** X10.  Answers 200 that [run_workflow] cannot read.  A body that is
    not JSON raises JSONDecodeError.  A document that is null, a boolean
    or a number raises TypeError, and so does a list that has the string
    "prompt_id" or "id" among its elements: the test for the key finds the
    element, and the list is then indexed by it. *)
Theorem run_workflow_unreadable_answer (w : world) (workflow : json)
    (client_id : option string) (r : response) (rest : list response) :
  script w = r :: rest ->
  status_code r = 200 ->
  let raised := fst (run_workflow workflow client_id w) in
  (json_body r = None -> raised = Raise JSONDecodeError)
  /\ (forall result,
        json_body r = Some result -> json_scalar result -> raised = Raise TypeError)
  /\ (forall items,
        json_body r = Some (JList items) ->
        existsb (str_eq "prompt_id") items || existsb (str_eq "id") items = true ->
        raised = Raise TypeError).
Proof.
  intros Hs Hst. apply Z.eqb_eq in Hst. simpl. repeat split.
  - intros Hj. unfold run_workflow. run. reflexivity.
  - intros result Hj Hsc. unfold run_workflow. run.
    destruct result; simpl in Hsc; try contradiction; reflexivity.
  - intros items Hj Hin. unfold run_workflow. run.
    destruct (existsb (str_eq "prompt_id") items); simpl; [reflexivity |].
    simpl in Hin. rewrite Hin. reflexivity.
Qed.

Lemma run_workflow_unreadable_answer_witness :
  let submit r :=
    fst (run_workflow (JDict []) None (init_world "http://127.0.0.1:8188" [r])) in
  submit {| status_code := 200; content := "<html>"; json_body := None |}
  = Raise JSONDecodeError
  /\ submit (ok_response JNull) = Raise TypeError
  /\ submit (ok_response (JList [JStr "q1"; JStr "prompt_id"])) = Raise TypeError.
Proof.
  intros submit.
  pose (thm r := run_workflow_unreadable_answer
                   (init_world "http://127.0.0.1:8188" [r]) (JDict []) None r []
                   eq_refl).
  split; [| split].
  - exact (proj1 (thm {| status_code := 200; content := "<html>"; json_body := None |}
                    eq_refl) eq_refl).
  - exact (proj1 (proj2 (thm (ok_response JNull) eq_refl)) JNull eq_refl I).
  - exact (proj2 (proj2 (thm (ok_response (JList [JStr "q1"; JStr "prompt_id"])) eq_refl))
             _ eq_refl eq_refl).
Defined.

(** ** More on [wait_for_completion] *)

(** One round of the loop in full: what it leaves alone and what it adds
    to the trace. *)
Lemma poll_once_frame pid d w :
  let w' := snd (poll_once pid d w) in
  same_objects w w'
  /\ script w' = tail (script w)
  /\ (exists new, trace w' = trace w ++ new
                  /\ Forall (polling_event (server_address w) d) new)
  /\ sleep_error w' = sleep_error w
  /\ (forall e, fst (poll_once pid d w) = Raise e ->
                e = JSONDecodeError \/ e = TypeError \/ sleep_refusal w d = Some e).
Proof.
  assert (Hget : polling_event (server_address w) d (EGet (server_address w +:+ "/queue")))
    by (left; reflexivity).
  assert (Hsleep : polling_event (server_address w) d (ESleep d))
    by (right; left; reflexivity).
  assert (Hprint : forall m, polling_event (server_address w) d (EPrint m))
    by (intros m; right; right; eauto).
  destruct (script w) as [| r rest] eqn:Hs.
  { rewrite (poll_once_blocked pid d w Hs). simpl. rewrite Hs.
    repeat split; [eexists; split; [reflexivity | auto] | discriminate]. }
  destruct (response_cases pid r)
    as [Hst | [(l & Hq & Hd) | [(l & Hq & Hd) | (Hst & Hq)]]].
  - destruct (sleep_cases w d) as [H0 | (e0 & H0)].
    + rewrite (poll_once_failed pid d w r rest H0 Hs Hst).
      simpl. repeat split; [| discriminate].
      eexists. split; [now rewrite <- !app_assoc | simpl; auto].
    + rewrite (poll_once_failed_refused pid d w r rest e0 H0 Hs Hst).
      simpl. repeat split.
      * eexists. split; [now rewrite <- !app_assoc | simpl; auto].
      * intros e [= <-]. auto.
  - rewrite (poll_once_done pid d w r rest l Hs Hq Hd).
    simpl. repeat split; [| discriminate].
    eexists. split; [now rewrite <- !app_assoc | simpl; auto 10].
  - destruct (sleep_cases w d) as [H0 | (e0 & H0)].
    + rewrite (poll_once_busy pid d w r rest l H0 Hs Hq Hd).
      simpl. repeat split; [| discriminate].
      eexists. split; [now rewrite <- !app_assoc | simpl; auto 10].
    + rewrite (poll_once_busy_refused pid d w r rest l e0 H0 Hs Hq Hd).
      simpl. repeat split.
      * eexists. split; [now rewrite <- !app_assoc | simpl; auto 10].
      * intros e [= <-]. auto.
  - destruct (poll_once_unreadable pid d w r rest Hs Hst Hq) as (e & -> & He).
    simpl. repeat split.
    + eexists. split; [reflexivity | auto].
    + intros e' [= <-]. tauto.
Qed.

Lemma same_objects_trans w1 w2 w3 :
  same_objects w1 w2 -> same_objects w2 w3 -> same_objects w1 w3.
Proof. unfold same_objects. intros (-> & -> & ->) (-> & -> & ->). auto. Qed.

Lemma polling_frame pid d : forall s w,
  script w = s ->
  let w' := snd (polling pid d w) in
  same_objects w w'
  /\ (exists new, trace w' = trace w ++ new
                  /\ Forall (polling_event (server_address w) d) new)
  /\ (forall e, fst (polling pid d w) = Raise e ->
                e = JSONDecodeError \/ e = TypeError \/ sleep_refusal w d = Some e).
Proof.
  induction s as [| r rest IH]; intros w Hs; simpl;
    destruct (poll_once_frame pid d w)
      as (Hsame & Hscr & (new & Hnew & Hall) & Hse & Hexn);
    rewrite polling_unfold; unfold bind;
    destruct (poll_once pid d w) as [[[[|] |] | e |] w1] eqn:E; simpl in *;
    try (split; [assumption |]; split; [eauto | ]; try discriminate;
         intros e' [= <-]; auto; fail).
  - rewrite (poll_once_blocked pid d w Hs) in E. discriminate.
  - rewrite Hs in Hscr. simpl in Hscr.
    destruct (IH w1 Hscr) as (Hsame' & (new' & Hnew' & Hall') & Hexn').
    destruct Hsame as (H1 & H2 & H3).
    split; [exact (same_objects_trans _ _ _ (conj H1 (conj H2 H3)) Hsame') |].
    split.
    + exists (new ++ new'). rewrite Hnew', Hnew, app_assoc. split; [reflexivity |].
      apply Forall_app. split; [assumption |]. now rewrite H3 in Hall'.
    + intros e He. destruct (Hexn' e He) as [-> | [-> | Hr]]; auto.
      right. right. unfold sleep_refusal in *. now rewrite <- Hse.
Qed.

(** X11.  A wait only polls: it does not touch the store, the history
    cache or the address of the server, and all it does besides printing
    is to request "/queue" and to sleep the interval it was given.  If it
    ends in an exception, that is JSONDecodeError or TypeError, from an
    answer 200 it could not read, or the exception with which
    [time.sleep] refuses the interval: ValueError for a negative one. *)
Theorem wait_for_completion_only_polls (prompt_id : string) (check_interval : Q)
    (w : world) :
  let w' := snd (wait_for_completion prompt_id check_interval w) in
  same_objects w w'
  /\ (exists new,
        trace w' = trace w ++ new
        /\ Forall (polling_event (server_address w) check_interval) new)
  /\ match fst (wait_for_completion prompt_id check_interval w) with
     | Raise e =>
         e = JSONDecodeError \/ e = TypeError
         \/ sleep_refusal w check_interval = Some e
     | _ => True
     end.
Proof.
  unfold wait_for_completion, bind, print, emit.
  destruct (polling_frame prompt_id check_interval (script w)
              (log (EPrint MsgWaiting) w) eq_refl)
    as ((H1 & H2 & H3) & (new & Hnew & Hall) & Hexn).
  simpl in *. split; [repeat split; assumption |]. split.
  - exists (EPrint MsgWaiting :: new). rewrite Hnew, <- app_assoc.
    split; [reflexivity |]. constructor; [right; right; eauto | assumption].
  - destruct (fst (polling prompt_id check_interval (log (EPrint MsgWaiting) w)));
      auto.
Qed.

(** X12.  The wait is for an idle server, not for the job alone: as long
    as every poll sees something running, whether the job or another
    one, the call does not return; it sleeps the interval, one that
    [time.sleep] takes, after each poll and goes on polling. *)
Theorem wait_for_completion_while_running (prompt_id : string) (check_interval : Q)
    (w : world) :
  can_sleep w check_interval ->
  forallb sees_running (script w) = true ->
  exists w',
    wait_for_completion prompt_id check_interval w = (Blocked, w')
    /\ polls (trace w') = (polls (trace w) + length (script w) + 1)%nat
    /\ sleeps (trace w')
       = sleeps (trace w) ++ repeat check_interval (length (script w)).
Proof.
  intros H0 Hall.
  assert (Hret : forallb (retried prompt_id) (script w) = true).
  { rewrite forallb_forall in *. intros r Hr. specialize (Hall r Hr).
    unfold sees_running in Hall. unfold retried, observes_busy, job_done.
    destruct (queue_lists r) as [[[| x running] pending] |]; try discriminate.
    simpl. rewrite !andb_false_r. apply orb_true_r. }
  destruct (polling_all_retried prompt_id check_interval (script w)
              (log (EPrint MsgWaiting) w) H0 eq_refl Hret) as (w' & E & H1 & H2).
  exists w'. unfold wait_for_completion, bind, print, emit. rewrite E.
  rewrite polls_log, sleeps_log, app_nil_r in *.
  split; [reflexivity | split; [lia | assumption]].
Qed.

Lemma wait_for_completion_while_running_witness :
  let other := ok_response (JDict [("queue_running",
                                    JList [JList [JInt 3; JStr "job7"]]);
                                   ("queue_pending", JList [])]) in
  exists w',
    wait_for_completion "job1" 1 (init_world "http://127.0.0.1:8188" [other; other])
    = (Blocked, w')
    /\ polls (trace w') = 3%nat
    /\ sleeps (trace w') = [1%Q; 1%Q].
Proof.
  intros other.
  apply (wait_for_completion_while_running "job1" 1
           (init_world "http://127.0.0.1:8188" [other; other])).
  - split; [unfold Qle; simpl; lia | reflexivity].
  - reflexivity.
Defined.

(** X13.  An answer 200 whose document is an object with neither
    "queue_running" nor "queue_pending" ends the wait: both lists are
    taken to be empty and the call returns True at that poll, without a
    sleep. *)
Theorem wait_for_completion_without_queue_keys (prompt_id : string)
    (check_interval : Q) (w : world) (r : response) (rest : list response)
    (fields : list (string * json)) :
  script w = r :: rest ->
  status_code r = 200 ->
  json_body r = Some (JDict fields) ->
  dict_get "queue_running" fields = None ->
  dict_get "queue_pending" fields = None ->
  exists w',
    wait_for_completion prompt_id check_interval w = (Ret true, w')
    /\ script w' = rest
    /\ polls (trace w') = S (polls (trace w))
    /\ sleeps (trace w') = sleeps (trace w).
Proof.
  intros Hs Hst Hj Hr Hp.
  assert (Hdone : observes_done prompt_id r = true).
  { unfold observes_done, queue_lists, queue_ids. apply Z.eqb_eq in Hst.
    rewrite Hst, Hj. simpl. unfold dict_has. now rewrite Hr, Hp. }
  destruct (polling_done prompt_id check_interval (log (EPrint MsgWaiting) w) r rest
              Hs Hdone) as (w' & E & H1 & H2 & H3).
  exists w'. unfold wait_for_completion, bind, print, emit. rewrite E.
  rewrite polls_log, sleeps_log, app_nil_r in *. simpl in H2.
  repeat split; try assumption. lia.
Qed.

Lemma wait_for_completion_without_queue_keys_witness :
  exists w',
    wait_for_completion "job1" 1
      (init_world "http://127.0.0.1:8188" [ok_response (JDict [("error", JStr "busy")])])
    = (Ret true, w')
    /\ script w' = []
    /\ polls (trace w') = 1%nat
    /\ sleeps (trace w') = [].
Proof.
  exact (wait_for_completion_without_queue_keys "job1" 1
           (init_world "http://127.0.0.1:8188" [ok_response (JDict [("error", JStr "busy")])])
           (ok_response (JDict [("error", JStr "busy")])) [] [("error", JStr "busy")]
           eq_refl eq_refl eq_refl eq_refl eq_refl).
Defined.

(** X14.  An answer 200 that cannot be read ends the wait with an
    exception, unlike an answer with another status: with an interval
    that [time.sleep] takes and after any number of retried polls, a body
    that is not JSON, or a document that is not an object and that the
    parsing cannot go through, raises JSONDecodeError or TypeError; the
    answers that follow are not asked for. *)
Theorem wait_for_completion_unreadable_answer (prompt_id : string)
    (check_interval : Q) (w : world) (earlier : list response) (r : response)
    (rest : list response) :
  can_sleep w check_interval ->
  script w = earlier ++ r :: rest ->
  forallb (retried prompt_id) earlier = true ->
  status_code r = 200 ->
  queue_lists r = None ->
  exists e w',
    wait_for_completion prompt_id check_interval w = (Raise e, w')
    /\ (e = JSONDecodeError \/ e = TypeError)
    /\ script w' = rest
    /\ polls (trace w') = (polls (trace w) + length earlier + 1)%nat
    /\ sleeps (trace w') = sleeps (trace w) ++ repeat check_interval (length earlier).
Proof.
  intros H0 Hs He Hst Hq.
  destruct (polling_unreadable prompt_id check_interval r rest Hst Hq earlier
              (log (EPrint MsgWaiting) w) H0 Hs He)
    as (e & w' & E & Hexn & H1 & H2 & H3).
  exists e, w'. unfold wait_for_completion, bind, print, emit. rewrite E.
  rewrite polls_log, sleeps_log, app_nil_r in *.
  repeat split; try assumption. lia.
Qed.

Lemma wait_for_completion_unreadable_answer_witness :
  let unavailable := {| status_code := 503; content := "Service Unavailable";
                        json_body := None |} in
  let page := {| status_code := 200; content := "<html>"; json_body := None |} in
  exists e w',
    wait_for_completion "job1" 1
      (init_world "http://127.0.0.1:8188" [unavailable; page; ok_response (JDict [])])
    = (Raise e, w')
    /\ (e = JSONDecodeError \/ e = TypeError)
    /\ script w' = [ok_response (JDict [])]
    /\ polls (trace w') = 2%nat
    /\ sleeps (trace w') = [1%Q].
Proof.
  intros unavailable page.
  apply (wait_for_completion_unreadable_answer "job1" 1
           (init_world "http://127.0.0.1:8188" [unavailable; page; ok_response (JDict [])])
           [unavailable] page [ok_response (JDict [])]); try reflexivity.
  split; [unfold Qle; simpl; lia | reflexivity].
Defined.

(** X15.  The parsing of a queue list takes both encodings of an entry,
    mixed in any way, and keeps the order: from a list of entries, each
    an object with the id under "prompt_id" or a sequence with the id in
    front, it makes the list of their ids.  On an object it never
    raises; a missing key, or a value under the key that is not a list,
    gives the empty list. *)
Theorem queue_ids_of_entries (fields : list (string * json)) (key : string) :
  (dict_get key fields = None -> queue_ids (JDict fields) key = inr [])
  /\ (forall x,
        dict_get key fields = Some x ->
        (forall items, x <> JList items) ->
        queue_ids (JDict fields) key = inr [])
  /\ (forall entries,
        dict_get key fields = Some (JList (map entry_doc entries)) ->
        queue_ids (JDict fields) key = inr (map entry_ident entries)).
Proof.
  unfold queue_ids. simpl. unfold dict_has. repeat split.
  - now intros ->.
  - intros x -> Hx. destruct x; try reflexivity. now destruct (Hx items).
  - intros entries ->. f_equal.
    induction entries as [| [id others | id others] entries IH]; simpl;
      now rewrite ?IH.
Qed.

Lemma queue_ids_of_entries_witness :
  queue_ids
    (JDict [("queue_running",
             JList [JList [JInt 3; JStr "job7"]; JDict [("prompt_id", JStr "job1")]])])
    "queue_running"
  = inr [JInt 3; JStr "job1"].
Proof.
  exact (proj2 (proj2 (queue_ids_of_entries
                         [("queue_running",
                           JList [JList [JInt 3; JStr "job7"];
                                  JDict [("prompt_id", JStr "job1")]])]
                         "queue_running"))
           [ByPosition (JInt 3) [JStr "job7"]; ByKey (JStr "job1") []] eq_refl).
Defined.

(** X24.  A negative interval is refused by the first sleep: when the
    first poll is answered with a status other than 200, or with a
    snapshot that has something running or the job pending, the wait
    ends with the ValueError of [time.sleep], after that one poll and
    without having slept. *)
Theorem wait_for_completion_negative_interval (prompt_id : string)
    (check_interval : Q) (w : world) (r : response) (rest : list response) :
  (check_interval < 0)%Q ->
  script w = r :: rest ->
  goes_on prompt_id r ->
  exists w',
    wait_for_completion prompt_id check_interval w = (Raise ValueError, w')
    /\ script w' = rest
    /\ polls (trace w') = S (polls (trace w))
    /\ sleeps (trace w') = sleeps (trace w).
Proof.
  intros H0 Hs Hr.
  destruct (polling_refused prompt_id check_interval (log (EPrint MsgWaiting) w) r rest
              ValueError (sleep_refusal_negative _ _ H0) Hs (goes_on_retried _ _ Hr))
    as (w' & E & H1 & H2 & H3).
  exists w'. unfold wait_for_completion, bind, print, emit. rewrite E.
  rewrite polls_log, sleeps_log, app_nil_r in *. simpl in H2.
  repeat split; try assumption. lia.
Qed.

Lemma wait_for_completion_negative_interval_witness :
  let unavailable := {| status_code := 503; content := "Service Unavailable";
                        json_body := None |} in
  exists w',
    wait_for_completion "job1" (-1)
      (init_world "http://127.0.0.1:8188" [unavailable; unavailable])
    = (Raise ValueError, w')
    /\ script w' = [unavailable]
    /\ polls (trace w') = 1%nat
    /\ sleeps (trace w') = [].
Proof.
  intros unavailable.
  apply (wait_for_completion_negative_interval "job1" (-1)
           (init_world "http://127.0.0.1:8188" [unavailable; unavailable])
           unavailable [unavailable]).
  - reflexivity.
  - reflexivity.
  - left. discriminate.
Defined.

(** ** More on [get_history] *)

(** X16.  The history cache of the client.  An answer with a status
    other than 200 raises the exception that carries the status, and a
    body that is not JSON raises JSONDecodeError: in both cases the cache
    keeps what it had.  After an answer 200 with a JSON body the cache
    holds the whole document, whether the job is in it or not and
    whatever the lookup of the job then does.  A job that the collection
    has is answered with its record, nothing being printed. *)
Theorem get_history_cache (w : world) (prompt_id : string) (r : response)
    (rest : list response) :
  script w = r :: rest ->
  let asked := set_script rest (log (EGet (server_address w +:+ "/history")) w) in
  (status_code r <> 200 ->
     get_history prompt_id w = (Raise (HistoryFailed (status_code r)), asked))
  /\ (status_code r = 200 -> json_body r = None ->
      get_history prompt_id w = (Raise JSONDecodeError, asked))
  /\ (forall history,
        status_code r = 200 -> json_body r = Some history ->
        history_data (snd (get_history prompt_id w)) = history)
  /\ (forall history record,
        status_code r = 200 -> json_body r = Some (JDict history) ->
        dict_get prompt_id history = Some record ->
        get_history prompt_id w = (Ret record, set_history_data (JDict history) asked)).
Proof.
  intros Hs asked. subst asked. repeat split.
  - intros Hst. apply Z.eqb_neq in Hst. unfold get_history. run. reflexivity.
  - intros Hst Hj. apply Z.eqb_eq in Hst. unfold get_history. run. reflexivity.
  - intros history Hst Hj. apply Z.eqb_eq in Hst. unfold get_history. run.
    destruct (json_contains prompt_id history) as [e | [|]]; simpl; try reflexivity.
    destruct (json_getitem history prompt_id); reflexivity.
  - intros history record Hst Hj Hk. apply Z.eqb_eq in Hst.
    unfold get_history. run. reflexivity.
Qed.

Lemma get_history_cache_witness :
  let ask r := get_history "p42" (init_world "http://127.0.0.1:8188" [r]) in
  let missing := {| status_code := 404; content := "Not Found"; json_body := None |} in
  fst (ask missing) = Raise (HistoryFailed 404)
  /\ history_data (snd (ask missing)) = JDict []
  /\ history_data (snd (ask (ok_response (JList [JInt 1])))) = JList [JInt 1]
  /\ fst (ask (ok_response (JDict [("p42", JDict [("outputs", JDict [])])])))
     = Ret (JDict [("outputs", JDict [])]).
Proof.
  intros ask missing.
  pose (thm r := get_history_cache (init_world "http://127.0.0.1:8188" [r]) "p42" r []
                   eq_refl).
  assert (E : ask missing = _) by (apply (proj1 (thm missing)); discriminate).
  split; [now rewrite E |]. split; [now rewrite E |]. split.
  - exact (proj1 (proj2 (proj2 (thm (ok_response (JList [JInt 1]))))) _ eq_refl eq_refl).
  - unfold ask.
    now rewrite (proj2 (proj2 (proj2 (thm (ok_response
                  (JDict [("p42", JDict [("outputs", JDict [])])])))))
                   [("p42", JDict [("outputs", JDict [])])] _ eq_refl eq_refl eq_refl).
Defined.

(** ** More on [download_images] *)

Lemma has_char_app c a b : has_char c (a +:+ b) = has_char c a || has_char c b.
Proof.
  induction a as [| c' a IH]; simpl; [reflexivity |].
  rewrite IH. now rewrite orb_assoc.
Qed.

(** The base name of a path has no slash. *)
Lemma basename_from_no_slash p : forall current,
  has_char "/"%char current = false ->
  has_char "/"%char (basename_from current p) = false.
Proof.
  induction p as [| c p IH]; intros current Hc; simpl; [assumption |].
  destruct (Ascii.eqb c "/"%char) eqn:E.
  - now apply IH.
  - apply IH. rewrite has_char_app, Hc.
    unfold has_char. rewrite (Ascii.eqb_sym "/"%char c), E. reflexivity.
Qed.

Lemma basename_no_slash filename : has_char "/"%char (basename filename) = false.
Proof. apply basename_from_no_slash. reflexivity. Qed.

Lemma prefix_slash b : has_char "/"%char b = false -> String.prefix "/" b = false.
Proof.
  destruct b as [| c b]; intros H; [reflexivity |].
  unfold has_char in H; fold has_char in H.
  apply orb_false_iff in H as [H _]. apply Ascii.eqb_neq in H.
  unfold String.prefix.
  destruct (ascii_dec "/"%char c) as [E | _]; [contradiction | reflexivity].
Qed.

Lemma basename_from_plain name : forall current,
  has_char "/"%char name = false -> basename_from current name = current +:+ name.
Proof.
  induction name as [| c name IH]; intros current H.
  - simpl. now rewrite append_empty.
  - unfold has_char in H; fold has_char in H.
    apply orb_false_iff in H as [Hc H]. rewrite Ascii.eqb_sym in Hc.
    simpl. rewrite Hc, (IH _ H), append_assoc. reflexivity.
Qed.

Lemma basename_from_folder folder rest : forall current,
  basename_from current (folder +:+ String "/"%char rest) = basename_from "" rest.
Proof.
  induction folder as [| c folder IH]; intros current; simpl; [reflexivity |].
  destruct (Ascii.eqb c "/"%char); apply IH.
Qed.

(** [os.path.basename] drops the folders of a path. *)
Lemma basename_folder folder name :
  has_char "/"%char name = false -> basename (folder +:+ "/" +:+ name) = name.
Proof.
  intros H. unfold basename.
  change (folder +:+ "/" +:+ name) with (folder +:+ String "/"%char name).
  now rewrite basename_from_folder, (basename_from_plain _ _ H).
Qed.

(** A path ends in a slash when it is a path followed by a slash. *)
Lemma ends_with_slash_iff p : ends_with_slash p = true <-> exists d, p = d +:+ "/".
Proof.
  induction p as [| c p IH].
  - split; [discriminate |]. intros ([| x d] & H); discriminate H.
  - destruct p as [| c' p].
    + simpl. rewrite Ascii.eqb_eq. split.
      * intros ->. now exists "".
      * intros ([| x d] & H); [now injection H |].
        change (String x d +:+ "/") with (String x (d +:+ "/")) in H.
        injection H as _ H. destruct d; discriminate H.
    + change (ends_with_slash (String c (String c' p)))
        with (ends_with_slash (String c' p)).
      rewrite IH. split.
      * intros (d & ->). now exists (String c d).
      * intros ([| x d] & H); [discriminate H |].
        change (String x d +:+ "/") with (String x (d +:+ "/")) in H.
        injection H as _ ->. now exists d.
Qed.

(** The base name of the place of a file in the directory is the base
    name of the file. *)
Lemma basename_local_path output_dir filename :
  basename (local_path output_dir filename) = basename filename.
Proof.
  pose proof (basename_no_slash filename) as H.
  unfold local_path, os_path_join. rewrite (prefix_slash _ H).
  destruct (String.eqb output_dir "") eqn:E; simpl.
  - apply String.eqb_eq in E. subst. unfold basename at 1.
    now rewrite (basename_from_plain _ _ H).
  - destruct (ends_with_slash output_dir) eqn:Es.
    + apply ends_with_slash_iff in Es as (d & ->).
      rewrite append_assoc. now apply basename_folder.
    + now apply basename_folder.
Qed.

(** Where the file system opens no directory, the place of a file that
    was written is a file of the output directory. *)
Lemma written_to_directly_in w output_dir path :
  opens_no_directory w -> written_to w output_dir path -> directly_in output_dir path.
Proof.
  intros Hfs (Hopen & filename & ->).
  pose proof (basename_no_slash filename) as Hslash.
  assert (Hname : names_directory (local_path output_dir filename) = false).
  { destruct (names_directory (local_path output_dir filename)) eqn:E; [| reflexivity].
    now destruct (Hfs _ E). }
  unfold names_directory in Hname. rewrite basename_local_path in Hname.
  apply orb_false_iff in Hname as [Hname H2]. apply orb_false_iff in Hname as [H0 H1].
  apply String.eqb_neq in H0, H1, H2.
  exists (basename filename). split; [repeat split; assumption |].
  unfold local_path, os_path_join. rewrite (prefix_slash _ Hslash).
  destruct (String.eqb output_dir "") eqn:E; simpl.
  - left. apply String.eqb_eq in E. auto.
  - apply String.eqb_neq in E. destruct (ends_with_slash output_dir) eqn:Es.
    + left. apply ends_with_slash_iff in Es. auto.
    + right. split; [| reflexivity]. split; [assumption |].
      intros d Hd. assert (Ht : ends_with_slash output_dir = true)
        by (apply ends_with_slash_iff; eauto).
      rewrite Ht in Es. discriminate.
Qed.

Lemma saves_into_ret out : saves_into out (fun acc => ret acc).
Proof.
  intros acc w. exists []. simpl. rewrite !app_nil_r. repeat split. constructor.
Qed.

Lemma saves_into_ext out m1 m2 :
  (forall acc w, m1 acc w = m2 acc w) -> saves_into out m1 -> saves_into out m2.
Proof. intros E H acc w. rewrite <- E. apply H. Qed.

Lemma saves_into_seq out m1 m2 :
  saves_into out m1 -> saves_into out m2 ->
  saves_into out (fun acc => acc' <- m1 acc ;; m2 acc').
Proof.
  intros H1 H2 acc w. unfold bind.
  destruct (H1 acc w) as (new1 & Hw1 & Hin1 & Hfs1 & Hret1).
  destruct (m1 acc w) as [[acc' | e |] w1]; simpl in *.
  - destruct (H2 acc' w1) as (new2 & Hw2 & Hin2 & Hfs2 & Hret2).
    exists (new1 ++ new2). rewrite Hw2, Hw1, app_assoc. split; [reflexivity |].
    split; [| split; [congruence |]].
    + apply Forall_app. split; [assumption |].
      eapply Forall_impl; [exact Hin2 |]. intros f (Ho & Hp). split; [congruence | exact Hp].
    + destruct (fst (m2 acc' w1)); try exact I.
      now rewrite Hret2, Hret1, map_app, app_assoc.
  - exists new1. auto.
  - exists new1. auto.
Qed.

Lemma saves_into_lift {A} out (r : exn + A) (k : A -> list string -> M (list string)) :
  (forall x, saves_into out (k x)) ->
  saves_into out (fun acc => x <- lift r ;; k x acc).
Proof.
  intros H acc w. destruct r as [e | x]; simpl.
  - exists []. simpl. rewrite app_nil_r. repeat split. constructor.
  - apply H.
Qed.

Lemma saves_into_foldM {A} out (f : list string -> A -> M (list string)) (l : list A) :
  (forall x, saves_into out (fun acc => f acc x)) -> saves_into out (foldM f l).
Proof.
  intros H. induction l as [| x l IH]; simpl.
  - apply saves_into_ret.
  - apply (saves_into_seq out _ _ (H x) IH).
Qed.

Lemma writes_log e w :
  writes (trace (log e w))
  = writes (trace w) ++ match e with EWrite p data => [(p, data)] | _ => [] end.
Proof. simpl. rewrite writes_app. simpl. now rewrite app_nil_r. Qed.

Lemma saves_into_download_image out image_data :
  saves_into out (fun acc => download_image out acc image_data).
Proof.
  unfold download_image.
  apply (saves_into_lift out (json_get image_data "filename" (JStr ""))
           (fun filename acc => _)).
  intros filename acc w.
  destruct (truthy filename); [| apply saves_into_ret].
  unfold bind at 1, url_of.
  destruct (os_path_basename filename) as [e | name] eqn:Hname;
    cbn [lift bind raise ret fst snd].
  { exists []. rewrite !app_nil_r. repeat split. constructor. }
  unfold requests_get, request, bind. cbv beta.
  destruct (script w) as [| r rest]; cbn [fst snd].
  { exists []. rewrite writes_log, !app_nil_r. repeat split. constructor. }
  destruct (status_code r =? 200); unfold write_file, print, emit, ret; cbn [fst snd].
  - cbn [open_error set_script log].
    destruct (open_error w (os_path_join out name)) as [e |] eqn:Hopen; cbn [fst snd].
    + exists [].
      change (trace (set_script ?s ?w')) with (trace w').
      rewrite !writes_log, !app_nil_r. repeat split. constructor.
    + exists [(os_path_join out name, content r)].
      change (trace (log ?e (log ?e' (set_script ?s ?w'))))
        with (trace (log e (log e' w'))).
      rewrite !writes_log, !app_nil_r.
      split; [reflexivity |]. split; [| split; reflexivity].
      constructor; [| constructor]. simpl.
      destruct filename; try discriminate. injection Hname as <-.
      split; [exact Hopen | eexists; reflexivity].
  - exists [].
    change (trace (log ?e (set_script ?s ?w'))) with (trace (log e w')).
    rewrite !writes_log, !app_nil_r. repeat split. constructor.
Qed.

Lemma saves_into_download_output out entry :
  saves_into out (fun acc => download_output out acc entry).
Proof.
  destruct entry as [kind data]. unfold download_output.
  destruct (String.eqb kind "images"); [| apply saves_into_ret].
  apply (saves_into_lift out (json_iter data)
           (fun images acc => foldM (download_image out) images acc)).
  intros images. apply saves_into_foldM. apply saves_into_download_image.
Qed.

Lemma saves_into_download_node out entry :
  saves_into out (fun acc => download_node out acc entry).
Proof.
  destruct entry as [node_id node_output]. unfold download_node.
  apply (saves_into_lift out (json_items node_output)
           (fun kinds acc => foldM (download_output out) kinds acc)).
  intros kinds. apply saves_into_foldM. apply saves_into_download_output.
Qed.

(** [get_history] writes no file and leaves the file system as it is. *)
Lemma get_history_writes pid w :
  writes (trace (snd (get_history pid w))) = writes (trace w)
  /\ open_error (snd (get_history pid w)) = open_error w
  /\ makedirs_error (snd (get_history pid w)) = makedirs_error w.
Proof.
  unfold get_history. run.
  destruct (script w) as [| r rest]; simpl.
  { rewrite writes_app. simpl. now rewrite app_nil_r. }
  destruct (status_code r =? 200); simpl.
  2:{ rewrite writes_app. simpl. now rewrite app_nil_r. }
  destruct (json_body r) as [history |]; simpl.
  2:{ rewrite writes_app. simpl. now rewrite app_nil_r. }
  destruct (json_contains pid history) as [e | [|]]; simpl.
  - rewrite writes_app. simpl. now rewrite app_nil_r.
  - destruct (json_getitem history pid); simpl;
      rewrite writes_app; simpl; now rewrite app_nil_r.
  - rewrite !writes_app. simpl. now rewrite !app_nil_r.
Qed.

(** What [download_images] writes and returns, for every history. *)
Lemma download_images_saves_into pid out w :
  exists new,
    writes (trace (snd (download_images pid out w))) = writes (trace w) ++ new
    /\ Forall (fun f => written_to w out (fst f)) new
    /\ match fst (download_images pid out w) with
       | Ret l => l = map fst new
       | _ => True
       end.
Proof.
  pattern (download_images pid out w).
  match goal with |- ?Q _ => set (P := Q) end.
  assert (Hnone : forall r : outcome (list string) * world,
             writes (trace (snd r)) = writes (trace w) ->
             match fst r with Ret l => l = [] | _ => True end -> P r).
  { intros r Hw Ho. exists []. rewrite app_nil_r. repeat split; auto. }
  unfold download_images. unfold bind at 1.
  destruct (get_history_writes pid w) as (Hh & Hfs & _).
  destruct (get_history pid w) as [[history | e |] w1]; cbn [fst snd] in Hh, Hfs;
    [| apply Hnone; [exact Hh | exact I] | apply Hnone; [exact Hh | exact I]].
  destruct (negb (truthy history)) eqn:Ht.
  { apply Hnone; [| reflexivity].
    change (writes (trace (log (EPrint (MsgNoOutputs pid)) w1)) = writes (trace w)).
    now rewrite writes_log, app_nil_r. }
  unfold bind at 1, bind at 1.
  destruct (json_contains "outputs" history) as [e | [|]];
    cbn [lift raise ret fst snd negb];
    [apply Hnone; [exact Hh | exact I] | |].
  2:{ apply Hnone; [| reflexivity].
      change (writes (trace (log (EPrint (MsgNoOutputs pid)) w1)) = writes (trace w)).
      now rewrite writes_log, app_nil_r. }
  unfold bind at 1, os_makedirs.
  destruct (makedirs_error w1 out) as [e |]; [apply Hnone; [exact Hh | exact I] |].
  set (w2 := log (EMakedirs out) w1).
  assert (Hw2 : writes (trace w2) = writes (trace w)).
  { subst w2. now rewrite writes_log, app_nil_r. }
  change (emit (EMakedirs out) w1) with (Ret tt, w2).
  cbv iota beta. unfold bind at 1.
  destruct (json_get history "outputs" (JDict [])) as [e | outputs];
    cbn [lift raise ret];
    [apply Hnone; [exact Hw2 | exact I] |].
  unfold bind at 1.
  destruct (json_items outputs) as [e | nodes];
    cbn [lift raise ret];
    [apply Hnone; [exact Hw2 | exact I] |].
  destruct (saves_into_foldM out (download_node out) nodes
              (saves_into_download_node out) [] w2)
    as (new & Hnew & Hin & _ & Hret).
  exists new. rewrite Hnew, Hw2. split; [reflexivity |]. split; [| assumption].
  eapply Forall_impl; [exact Hin |]. intros f (Ho & Hp).
  split; [| exact Hp]. rewrite <- Hfs. exact Ho.
Qed.

(** X17.  Whatever the history holds, the list that [download_images]
    returns is the list of the paths of the files it has written during
    the call, in the order of writing: no path without its file, no file
    without its path. *)
Theorem download_images_returns_what_it_wrote (w : world) (prompt_id output_dir : string) :
  exists new,
    writes (trace (snd (download_images prompt_id output_dir w)))
    = writes (trace w) ++ new
    /\ match fst (download_images prompt_id output_dir w) with
       | Ret l => l = map fst new
       | _ => True
       end.
Proof.
  destruct (download_images_saves_into prompt_id output_dir w) as (new & H1 & _ & H2).
  exists new. split; assumption.
Qed.

(** X18.  [download_images] writes into the output directory only.  On a
    file system that opens no directory for writing, whatever file names
    the history gives, also names with folders or with "..", every file
    written is a file of the output directory itself: its path is the
    directory, a slash unless the directory is the empty path or ends in
    one, and a name that is not empty, not "." or ".." and has no slash.
    This holds also for a call that ends in an exception. *)
Theorem download_images_stays_in_output_dir (w : world) (prompt_id output_dir : string) :
  opens_no_directory w ->
  exists new,
    writes (trace (snd (download_images prompt_id output_dir w)))
    = writes (trace w) ++ new
    /\ Forall (fun f => directly_in output_dir (fst f)) new.
Proof.
  intros Hfs.
  destruct (download_images_saves_into prompt_id output_dir w) as (new & H1 & H2 & _).
  exists new. split; [assumption |].
  eapply Forall_impl; [exact H2 |]. intros f Hf.
  exact (written_to_directly_in w output_dir (fst f) Hfs Hf).
Qed.

Lemma download_images_stays_in_output_dir_witness :
  let history :=
    [("p42", JDict [("outputs",
                     JDict [("9", JDict [("images",
                                          JList [JDict [("filename", JStr "../../a.png")];
                                                 JDict [("filename", JStr "sub/")]])])])])] in
  exists new,
    writes (trace (snd (download_images "p42" "out"
                          (init_world "http://127.0.0.1:8188"
                             [ok_response (JDict history); png "A"; png "B"]))))
    = [] ++ new
    /\ Forall (fun f => directly_in "out" (fst f)) new.
Proof.
  intros history.
  apply (download_images_stays_in_output_dir
           (init_world "http://127.0.0.1:8188"
              [ok_response (JDict history); png "A"; png "B"]) "p42" "out").
  intros path Hpath. simpl. rewrite Hpath. discriminate.
Defined.

(** X19.  A history request that is not answered 200 ends
    [download_images] with the exception of [get_history]: nothing is
    printed, no directory is made, no file is requested or written. *)
Theorem download_images_history_failure (w : world) (prompt_id output_dir : string)
    (r : response) (rest : list response) :
  script w = r :: rest ->
  status_code r <> 200 ->
  download_images prompt_id output_dir w
  = (Raise (HistoryFailed (status_code r)),
     set_script rest (log (EGet (server_address w +:+ "/history")) w)).
Proof.
  intros Hs Hst. apply Z.eqb_neq in Hst.
  unfold download_images, get_history. run. reflexivity.
Qed.

Lemma download_images_history_failure_witness :
  let busy := {| status_code := 503; content := "busy"; json_body := None |} in
  let w := init_world "http://127.0.0.1:8188" [busy] in
  fst (download_images "p42" "output/test" w) = Raise (HistoryFailed 503)
  /\ trace (snd (download_images "p42" "output/test" w))
     = [EGet "http://127.0.0.1:8188/history"].
Proof.
  intros busy w.
  assert (E : download_images "p42" "output/test" w = _)
    by (apply (download_images_history_failure w "p42" "output/test" busy []);
        [reflexivity | discriminate]).
  split; now rewrite E.
Defined.

(** X20.  The folders of a file name of the history are used in the
    request and dropped on disk: where the file system opens the path,
    the file [folder/name] is requested under its whole name and written
    to [output_dir] under [name], so that two images of the same name in
    different folders are written to the same path. *)
Theorem download_image_drops_folders (w : world) (output_dir folder name : string)
    (downloaded_files : list string) (fields : list (string * json))
    (r : response) (rest : list response) :
  has_char "/"%char name = false ->
  dict_get "filename" fields = Some (JStr (folder +:+ "/" +:+ name)) ->
  script w = r :: rest ->
  status_code r = 200 ->
  let local_path := os_path_join output_dir name in
  open_error w local_path = None ->
  download_image output_dir downloaded_files (JDict fields) w
  = (Ret (downloaded_files ++ [local_path]),
     log (EPrint (MsgDownloaded local_path))
       (log (EWrite local_path (content r))
          (set_script rest
             (log (EGet (server_address w +:+ "/view?filename=" +:+ folder +:+ "/" +:+ name))
                w)))).
Proof.
  intros Hname Hf Hs Hst local_path Hopen. apply Z.eqb_eq in Hst.
  assert (Ht : truthy (JStr (folder +:+ "/" +:+ name)) = true).
  { destruct folder; reflexivity. }
  pose proof (basename_folder folder name Hname) as Hb.
  unfold download_image, json_get. rewrite Hf.
  unfold lift, raise, url_of, requests_get, request, write_file, print, emit, bind, ret.
  cbv beta iota. rewrite Ht. unfold os_path_basename. rewrite Hb, Hs.
  cbv beta iota. rewrite Hst. cbn [open_error set_script log].
  fold local_path. rewrite Hopen. reflexivity.
Qed.

Lemma download_image_drops_folders_witness :
  let w := init_world "http://127.0.0.1:8188" [png "one"; png "two"] in
  let image folder := JDict [("filename", JStr (folder +:+ "/img.png")); ("type", JStr "output")] in
  fst (download_image "out" [] (image "a") w) = Ret ["out/img.png"]
  /\ fst (download_image "out" [] (image "b/c") w) = Ret ["out/img.png"]
  /\ trace (snd (download_image "out" [] (image "b/c") w))
     = [EGet "http://127.0.0.1:8188/view?filename=b/c/img.png";
        EWrite "out/img.png" "one";
        EPrint (MsgDownloaded "out/img.png")].
Proof.
  intros w image.
  assert (E : forall folder, download_image "out" [] (image folder) w = _)
    by (intros folder;
        apply (download_image_drops_folders w "out" folder "img.png" [] _
                 (png "one") [png "two"]); reflexivity).
  rewrite !E. split; [reflexivity |]. split; reflexivity.
Defined.

(** X25.  A file that the file system does not open ends the download:
    when the request for a file is answered 200 and [open] raises for
    its path, as it does for a file name that ends in a slash, in "." or
    in "..", [download_image] ends with that exception right after the
    request; nothing is written or printed, and the list of the files
    downloaded so far is not returned. *)
Theorem download_image_refused (w : world) (output_dir filename : string)
    (downloaded_files : list string) (fields : list (string * json))
    (r : response) (rest : list response) (e : exn) :
  dict_get "filename" fields = Some (JStr filename) ->
  filename <> "" ->
  script w = r :: rest ->
  status_code r = 200 ->
  open_error w (local_path output_dir filename) = Some e ->
  download_image output_dir downloaded_files (JDict fields) w
  = (Raise e,
     set_script rest (log (EGet (server_address w +:+ "/view?filename=" +:+ filename)) w)).
Proof.
  intros Hf Hne Hs Hst Hopen. apply Z.eqb_eq in Hst. apply String.eqb_neq in Hne.
  assert (Ht : truthy (JStr filename) = true) by (simpl; now rewrite Hne).
  unfold local_path in Hopen.
  unfold download_image, json_get. rewrite Hf.
  unfold lift, raise, url_of, requests_get, request, write_file, print, emit, bind, ret.
  cbv beta iota. rewrite Ht. unfold os_path_basename. rewrite Hs.
  cbv beta iota. rewrite Hst. cbn [open_error set_script log].
  rewrite Hopen. reflexivity.
Qed.

Lemma download_image_refused_witness :
  let w := init_world "http://127.0.0.1:8188" [png "one"; png "two"] in
  download_image "out" ["out/a.png"] (JDict [("filename", JStr "sub/")]) w
  = (Raise OSError,
     set_script [png "two"] (log (EGet "http://127.0.0.1:8188/view?filename=sub/") w)).
Proof.
  intros w.
  apply (download_image_refused w "out" "sub/" ["out/a.png"] _ (png "one") [png "two"]);
    try reflexivity.
  discriminate.
Defined.

(** ** The story descriptions *)

Lemma read_pages_objects pages : forall story_descriptions,
  forallb is_dict pages = true ->
  read_pages story_descriptions pages
  = (story_descriptions ++ flat_map page_image pages, StoryRead).
Proof.
  induction pages as [| page pages IH]; intros sd H; simpl.
  - now rewrite app_nil_r.
  - simpl in H. apply andb_true_iff in H as [Hp H].
    destruct page as [| | | | | fields]; try discriminate. simpl.
    unfold dict_has. destruct (dict_get "image" fields) as [d |]; simpl.
    + now rewrite (IH _ H), <- app_assoc.
    + apply (IH _ H).
Qed.

(** X21.  A story whose "pages" is a list of objects adds, to the
    descriptions read so far, the values under "image" of its pages, in
    the order of the pages; a page without "image" is passed over, and
    nothing is printed. *)
Theorem read_story_collects (story_descriptions : list json)
    (fields : list (string * json)) (pages : list json) :
  dict_get "pages" fields = Some (JList pages) ->
  forallb is_dict pages = true ->
  read_story story_descriptions (JDict fields)
  = (story_descriptions ++ flat_map page_image pages, StoryRead).
Proof.
  intros Hp Hd. unfold read_story, dict_has, json_getitem. rewrite Hp.
  simpl. now apply read_pages_objects.
Qed.

Lemma read_story_collects_witness :
  let pages := [JDict [("text", JStr "x"); ("image", JStr "a rabbit")];
                JDict [("text", JStr "y")];
                JDict [("image", JStr "a turtle")]] in
  read_story [JStr "a star"] (JDict [("title", JStr "t"); ("pages", JList pages)])
  = ([JStr "a star"; JStr "a rabbit"; JStr "a turtle"], StoryRead).
Proof.
  intros pages.
  exact (read_story_collects [JStr "a star"]
           [("title", JStr "t"); ("pages", JList pages)] pages eq_refl eq_refl).
Defined.

(** X22.  A page that is no object, and in which Python finds "image"
    or cannot look for it, ends the reading of the story with a
    [TypeError]: the descriptions of the pages before it stay in the
    list, the pages after it are not read. *)
Theorem read_story_stops_at_bad_page (story_descriptions : list json)
    (fields : list (string * json)) (before after : list json) (bad : json) :
  dict_get "pages" fields = Some (JList (before ++ bad :: after)) ->
  forallb is_dict before = true ->
  is_dict bad = false ->
  json_contains "image" bad <> inr false ->
  read_story story_descriptions (JDict fields)
  = (story_descriptions ++ flat_map page_image before, StoryFailed TypeError).
Proof.
  intros Hp Hd Hb Hc. unfold read_story, dict_has, json_getitem. rewrite Hp.
  simpl. clear Hp. revert story_descriptions.
  induction before as [| page before IH]; intros sd.
  - simpl. rewrite app_nil_r.
    destruct bad as [| | | s | items | ]; try discriminate; simpl in *;
      try reflexivity.
    + destruct (is_substring "image" s); [reflexivity | congruence].
    + destruct (existsb (str_eq "image") items); [reflexivity | congruence].
  - simpl in Hd. apply andb_true_iff in Hd as [Hpage Hd].
    destruct page as [| | | | | pf]; try discriminate. simpl.
    unfold dict_has. destruct (dict_get "image" pf) as [d |]; simpl.
    + now rewrite (IH Hd), <- app_assoc.
    + apply (IH Hd).
Qed.

Lemma read_story_stops_at_bad_page_witness :
  let before := [JDict [("image", JStr "a rabbit")]] in
  let bad := JStr "the image of a turtle" in
  let after := [JDict [("image", JStr "a star")]] in
  read_story [] (JDict [("pages", JList (before ++ bad :: after))])
  = ([JStr "a rabbit"], StoryFailed TypeError).
Proof.
  intros before bad after.
  apply (read_story_stops_at_bad_page []
           [("pages", JList (before ++ bad :: after))] before after bad
           eq_refl eq_refl eq_refl).
  vm_compute. discriminate.
Defined.

(** ** More on [load_workflow] *)

(** X23.  What [json.load] returns reads back as the document it was
    given: the graph of [load_workflow] is the document of the file.  The
    objects are new: the store is the old one with the objects of the
    graph after it, and nothing is requested or printed. *)
Theorem json_load_reads_back (w : world) (document : json) :
  exists v,
    fst (json_load document w) = Ret v
    /\ denotes (heap (snd (json_load document w))) document v = true
    /\ take (length (heap w)) (heap (snd (json_load document w))) = heap w
    /\ trace (snd (json_load document w)) = trace w
    /\ script (snd (json_load document w)) = script w.
Proof.
  unfold json_load.
  destruct (load_at (length (heap w)) document) as [v ext] eqn:Hload.
  exists v. cbn [fst snd heap trace script set_heap].
  split; [reflexivity |]. split.
  - apply (load_at_denotes document _ v ext _ Hload). apply agrees_end.
  - split; [| split; reflexivity].
    apply take_app_length.
Qed.

